(** * Bike Connect backend: the query and mutation layer over the store

    A shallow embedding of [src/api]: the schema of [db.py] as records and
    lists of rows, [session_scope] as a transaction with commit and rollback,
    and the request handlers of [routes_auth.py], [routes_profiles.py],
    [routes_location.py], [routes_messaging.py] and [routes_rides.py] as
    functions over the store.

    Conventions.
    - A Python [str] is a [string]; one [ascii] stands for one character.
    - A Python [float] is a binary64 [float] of [PrimFloat].
    - A [datetime] is a [Z] (a point on the UTC time line).
    - [uuid.uuid4()] and the clock are not code of this repository: the
      values they return are arguments of the handlers.  The password hasher,
      the JWT codec and the C library behind [math] are interfaces (classes)
      the handlers are parametric in.
    - The store is given: [DATABASE_URL] is set and the engine connects.
    - The constraints of the schema are modelled as PostgreSQL enforces
      them: primary keys, [unique], [nullable=False] (by the column's type),
      foreign keys, and the declared lengths ([String(320)]): a statement
      with a value longer than its column fails.  (PostgreSQL makes one
      exception, which is not modelled: a value whose excess characters are
      all blanks is cut to the length and stored.  Here it is refused like
      any other value that is too long.) *)

From Stdlib Require Import List String Ascii ZArith Bool Lia.
From Stdlib Require Import Permutation Sorted.
From Stdlib Require Import Floats.
Import ListNotations.

Local Open Scope string_scope.
Local Open Scope bool_scope.

Definition datetime := Z.
Bind Scope Z_scope with datetime.

(* ================================================================= *)
(** ** Exceptions and results *)

Inductive exn : Type :=
| HTTPException (status_code : Z) (detail : string)
| RequestValidationError
| SQLAlchemyError
| ValueError
| OverflowError
| RuntimeError
| TypeError.

Inductive result (A : Type) : Type :=
| Ok (a : A)
| Raise (e : exn).

Arguments Ok {A} a.
Arguments Raise {A} e.

Definition is_ok {A} (r : result A) : bool :=
  match r with Ok _ => true | Raise _ => false end.

(* ================================================================= *)
(** ** db.py: the schema *)

Record users_row := {
  users_id : string;
  users_email : string;
  users_password_hash : string;
  users_display_name : option string;
  users_created_at : datetime }.

Record profiles_row := {
  profiles_user_id : string;
  profiles_display_name : option string;
  profiles_bio : option string;
  profiles_pace : option string;
  profiles_bike_type : option string;
  profiles_looking_for : option string;
  profiles_home_base : option string;
  profiles_updated_at : datetime }.

Record locations_row := {
  locations_user_id : string;
  locations_lat : float;
  locations_lng : float;
  locations_updated_at : datetime }.

Record conversations_row := {
  conversations_id : string;
  conversations_created_at : datetime }.

Record conversation_participants_row := {
  conversation_participants_conversation_id : string;
  conversation_participants_user_id : string }.

Record messages_row := {
  messages_id : string;
  messages_conversation_id : string;
  messages_sender_id : string;
  messages_text : string;
  messages_created_at : datetime }.

Record rides_row := {
  rides_id : string;
  rides_creator_id : option string;
  rides_title : string;
  rides_date : option string;
  rides_time : option string;
  rides_pace : option string;
  rides_distance_km : option float;
  rides_start : option string;
  rides_notes : option string;
  rides_created_at : datetime }.

(** The store: one list of rows per table of [metadata], in insertion order. *)
Record Db := {
  users : list users_row;
  profiles : list profiles_row;
  locations : list locations_row;
  conversations : list conversations_row;
  conversation_participants : list conversation_participants_row;
  messages : list messages_row;
  rides : list rides_row }.

Definition empty_db : Db :=
  {| users := []; profiles := []; locations := []; conversations := [];
     conversation_participants := []; messages := []; rides := [] |}.

Definition set_users (v : list users_row) (d : Db) : Db :=
  {| users := v; profiles := profiles d; locations := locations d;
     conversations := conversations d;
     conversation_participants := conversation_participants d;
     messages := messages d; rides := rides d |}.

Definition set_profiles (v : list profiles_row) (d : Db) : Db :=
  {| users := users d; profiles := v; locations := locations d;
     conversations := conversations d;
     conversation_participants := conversation_participants d;
     messages := messages d; rides := rides d |}.

Definition set_locations (v : list locations_row) (d : Db) : Db :=
  {| users := users d; profiles := profiles d; locations := v;
     conversations := conversations d;
     conversation_participants := conversation_participants d;
     messages := messages d; rides := rides d |}.

Definition set_conversations (v : list conversations_row) (d : Db) : Db :=
  {| users := users d; profiles := profiles d; locations := locations d;
     conversations := v;
     conversation_participants := conversation_participants d;
     messages := messages d; rides := rides d |}.

Definition set_conversation_participants
  (v : list conversation_participants_row) (d : Db) : Db :=
  {| users := users d; profiles := profiles d; locations := locations d;
     conversations := conversations d;
     conversation_participants := v;
     messages := messages d; rides := rides d |}.

Definition set_messages (v : list messages_row) (d : Db) : Db :=
  {| users := users d; profiles := profiles d; locations := locations d;
     conversations := conversations d;
     conversation_participants := conversation_participants d;
     messages := v; rides := rides d |}.

Definition set_rides (v : list rides_row) (d : Db) : Db :=
  {| users := users d; profiles := profiles d; locations := locations d;
     conversations := conversations d;
     conversation_participants := conversation_participants d;
     messages := messages d; rides := v |}.

(* ================================================================= *)
(** ** db.py: sessions

    The body of a [with session_scope() as db:] block runs against the
    session's working copy of the store.  A body that raises leaves its
    earlier writes in the working copy; [session_scope] decides what becomes
    of them. *)

Definition session (A : Type) : Type := Db -> result A * Db.

Definition ret {A} (a : A) : session A := fun d => (Ok a, d).

Definition raise {A} (e : exn) : session A := fun d => (Raise e, d).

Definition bind {A B} (m : session A) (k : A -> session B) : session B :=
  fun d =>
    match m d with
    | (Ok a, d') => k a d'
    | (Raise e, d') => (Raise e, d')
    end.

Notation "x <- m ;; k" := (bind m (fun x => k))
  (at level 61, m at next level, right associativity).
Notation "m ;;; k" := (bind m (fun _ => k))
  (at level 61, right associativity).

(** [db.execute(select(...))]: a read of the working copy. *)
Definition query {A} (q : Db -> A) : session A := fun d => (Ok (q d), d).

(** [session_scope]: [db.commit()] when the body returns; when it raises, the
    [except SQLAlchemyError] branch rolls back, and for any other exception
    [db.close()] discards the uncommitted writes.  Either way the exception
    propagates and the committed store is the one before the block. *)
Definition session_scope {A} (body : session A) (committed : Db)
  : result A * Db :=
  match body committed with
  | (Ok a, working) => (Ok a, working)
  | (Raise e, _) => (Raise e, committed)
  end.

(* ----------------------------------------------------------------- *)
(** *** Constraint checks of the schema *)

(** [String(n)]: a value of more than [n] characters does not fit the
    column, and the statement that carries it fails ([DataError], an
    [SQLAlchemyError]); [NULL] fits every column.  [Text] has no length.  A
    foreign key column takes the key of a stored row, which was checked when
    that row was written, so only the other columns are checked here. *)
Definition fits (n : nat) (s : string) : bool := (String.length s <=? n)%nat.

Definition fits_null (n : nat) (s : option string) : bool :=
  match s with
  | Some v => fits n v
  | None => true
  end.

Definition users_fit (r : users_row) : bool :=
  fits 36 (users_id r) && fits 320 (users_email r)
  && fits 255 (users_password_hash r)
  && fits_null 120 (users_display_name r).

Definition profiles_fit (r : profiles_row) : bool :=
  fits_null 120 (profiles_display_name r) && fits_null 32 (profiles_pace r)
  && fits_null 32 (profiles_bike_type r)
  && fits_null 32 (profiles_looking_for r)
  && fits_null 120 (profiles_home_base r).

Definition conversations_fit (r : conversations_row) : bool :=
  fits 36 (conversations_id r).

Definition messages_fit (r : messages_row) : bool := fits 36 (messages_id r).

Definition rides_fit (r : rides_row) : bool :=
  fits 36 (rides_id r) && fits 200 (rides_title r)
  && fits_null 10 (rides_date r) && fits_null 5 (rides_time r)
  && fits_null 32 (rides_pace r) && fits_null 200 (rides_start r).

Definition has_user (uid : string) (d : Db) : bool :=
  existsb (fun u => users_id u =? uid) (users d).

Definition has_conversation (cid : string) (d : Db) : bool :=
  existsb (fun c => conversations_id c =? cid) (conversations d).

(** [insert(users)]: the lengths, primary key [id], [unique] on [email]. *)
Definition insert_users (r : users_row) : session unit := fun d =>
  if users_fit r then
    if has_user (users_id r) d
       || existsb (fun u => users_email u =? users_email r) (users d)
    then (Raise SQLAlchemyError, d)
    else (Ok tt, set_users (users d ++ [r]) d)
  else (Raise SQLAlchemyError, d).

(** [insert(profiles)]: the lengths, primary key [user_id], foreign key to
    [users.id]. *)
Definition insert_profiles (r : profiles_row) : session unit := fun d =>
  if profiles_fit r then
    if existsb (fun p => profiles_user_id p =? profiles_user_id r) (profiles d)
       || negb (has_user (profiles_user_id r) d)
    then (Raise SQLAlchemyError, d)
    else (Ok tt, set_profiles (profiles d ++ [r]) d)
  else (Raise SQLAlchemyError, d).

(** [insert(locations)]: primary key [user_id], foreign key to [users.id]. *)
Definition insert_locations (r : locations_row) : session unit := fun d =>
  if existsb (fun l => locations_user_id l =? locations_user_id r) (locations d)
     || negb (has_user (locations_user_id r) d)
  then (Raise SQLAlchemyError, d)
  else (Ok tt, set_locations (locations d ++ [r]) d).

(** [insert(conversations)]: the length of [id], which is the primary
    key. *)
Definition insert_conversations (r : conversations_row) : session unit :=
  fun d =>
  if conversations_fit r then
    if has_conversation (conversations_id r) d
    then (Raise SQLAlchemyError, d)
    else (Ok tt, set_conversations (conversations d ++ [r]) d)
  else (Raise SQLAlchemyError, d).

Definition is_participant (cid uid : string) (d : Db) : bool :=
  existsb (fun p => (conversation_participants_conversation_id p =? cid)
                    && (conversation_participants_user_id p =? uid))
          (conversation_participants d).

(** [insert(conversation_participants)]: composite primary key, foreign keys
    to [conversations.id] and [users.id]. *)
Definition insert_conversation_participants
  (r : conversation_participants_row) : session unit := fun d =>
  if is_participant (conversation_participants_conversation_id r)
                    (conversation_participants_user_id r) d
     || negb (has_conversation (conversation_participants_conversation_id r) d)
     || negb (has_user (conversation_participants_user_id r) d)
  then (Raise SQLAlchemyError, d)
  else (Ok tt, set_conversation_participants
                 (conversation_participants d ++ [r]) d).

(** [insert(messages)]: the length of [id], primary key [id], foreign keys
    to [conversations.id] and [users.id]. *)
Definition insert_messages (r : messages_row) : session unit := fun d =>
  if messages_fit r then
    if existsb (fun m => messages_id m =? messages_id r) (messages d)
       || negb (has_conversation (messages_conversation_id r) d)
       || negb (has_user (messages_sender_id r) d)
    then (Raise SQLAlchemyError, d)
    else (Ok tt, set_messages (messages d ++ [r]) d)
  else (Raise SQLAlchemyError, d).

(** [insert(rides)]: the lengths, primary key [id], nullable foreign key
    [creator_id]. *)
Definition insert_rides (r : rides_row) : session unit := fun d =>
  if rides_fit r then
    if existsb (fun x => rides_id x =? rides_id r) (rides d)
       || match rides_creator_id r with
          | Some uid => negb (has_user uid d)
          | None => false
          end
    then (Raise SQLAlchemyError, d)
    else (Ok tt, set_rides (rides d ++ [r]) d)
  else (Raise SQLAlchemyError, d).

(** [update(t).where(c).values(...)]: every row that satisfies [c] is
    replaced in place; the others are kept. *)
Definition update_where {R} (c : R -> bool) (f : R -> R) (rows : list R)
  : list R :=
  map (fun r => if c r then f r else r) rows.

(** Results compose like sessions; [lift] runs a computation that does not
    touch the store inside a session. *)
Definition rbind {A B} (m : result A) (k : A -> result B) : result B :=
  match m with
  | Ok a => k a
  | Raise e => Raise e
  end.

Notation "x <-- m ;; k" := (rbind m (fun x => k))
  (at level 61, m at next level, right associativity).

Definition lift {A} (m : result A) : session A := fun d => (m, d).

(** A Python [dict] with string keys, in insertion order. *)
Definition dict (V : Type) : Type := list (string * V).

Fixpoint dict_get {V} (k : string) (d : dict V) : option V :=
  match d with
  | [] => None
  | (k', v) :: d' => if k' =? k then Some v else dict_get k d'
  end.

Fixpoint dict_set {V} (k : string) (v : V) (d : dict V) : dict V :=
  match d with
  | [] => [(k, v)]
  | (k', v') :: d' =>
      if k' =? k then (k', v) :: d' else (k', v') :: dict_set k v d'
  end.

Definition dict_update {V} (d other : dict V) : dict V :=
  fold_left (fun acc kv => dict_set (fst kv) (snd kv) acc) other d.

(** [list.sort(key=...)] and [ORDER BY ... ASC]: a stable sort that compares
    keys with [<] only.  Each element is inserted into the sorted prefix
    behind every element whose key is not greater than its own. *)
Section Sorting.
Context {A K : Type} (key : A -> K) (lt : K -> K -> bool).

Fixpoint insert_sorted (x : A) (l : list A) : list A :=
  match l with
  | [] => [x]
  | y :: l' =>
      if lt (key x) (key y) then x :: y :: l' else y :: insert_sorted x l'
  end.

Definition sort_by (l : list A) : list A :=
  fold_left (fun acc x => insert_sorted x acc) l [].
End Sorting.

(* ================================================================= *)
(** ** schemas.py *)

Record TokenResponse := {
  TokenResponse_access_token : string;
  TokenResponse_token_type : string }.

Record RegisterRequest := {
  RegisterRequest_email : string;
  RegisterRequest_password : string;
  RegisterRequest_display_name : option string }.

Record LoginRequest := {
  LoginRequest_email : string;
  LoginRequest_password : string }.

Record MeResponse := {
  MeResponse_id : string;
  MeResponse_email : string;
  MeResponse_display_name : option string }.

Record ProfileResponse := {
  ProfileResponse_user_id : string;
  ProfileResponse_display_name : option string;
  ProfileResponse_bio : option string;
  ProfileResponse_pace : option string;
  ProfileResponse_bike_type : option string;
  ProfileResponse_looking_for : option string;
  ProfileResponse_home_base : option string;
  ProfileResponse_updated_at : option datetime }.

Record ProfileUpdateRequest := {
  ProfileUpdateRequest_display_name : option string;
  ProfileUpdateRequest_bio : option string;
  ProfileUpdateRequest_pace : option string;
  ProfileUpdateRequest_bike_type : option string;
  ProfileUpdateRequest_looking_for : option string;
  ProfileUpdateRequest_home_base : option string }.

Record LocationUpdateRequest := {
  LocationUpdateRequest_lat : float;
  LocationUpdateRequest_lng : float }.

Record NearbyUserItem := {
  NearbyUserItem_user_id : string;
  NearbyUserItem_display_name : option string;
  NearbyUserItem_email : option string;
  NearbyUserItem_pace : option string;
  NearbyUserItem_bike_type : option string;
  NearbyUserItem_distance_km : float }.

Record NearbyResponse := { NearbyResponse_items : list NearbyUserItem }.

Record MessageItem := {
  MessageItem_id : string;
  MessageItem_text : string;
  MessageItem_created_at : datetime;
  MessageItem_is_mine : bool }.

Record MessagesResponse := { MessagesResponse_items : list MessageItem }.

Record SendMessageRequest := { SendMessageRequest_text : string }.

Record RideCreateRequest := {
  RideCreateRequest_title : string;
  RideCreateRequest_date : option string;
  RideCreateRequest_time : option string;
  RideCreateRequest_pace : option string;
  RideCreateRequest_distance_km : option float;
  RideCreateRequest_start : option string;
  RideCreateRequest_notes : option string }.

Record RideResponse := {
  RideResponse_id : string;
  RideResponse_title : string;
  RideResponse_date : option string;
  RideResponse_time : option string;
  RideResponse_pace : option string;
  RideResponse_distance_km : option float;
  RideResponse_start : option string;
  RideResponse_notes : option string;
  RideResponse_creator_id : option string }.

(* ----------------------------------------------------------------- *)
(** *** Validation of request bodies

    A member of a decoded JSON body, as the field's declared type sees it:
    absent, [null], of a type that does not coerce to the declared one, or a
    value of that type.  The coercion itself is the validation library's;
    the field declarations ([...], [default=None], [min_length]) are the
    schema's and are modelled here. *)

Inductive member (A : Type) : Type :=
| Absent
| Null
| Mistyped
| Given (a : A).

Arguments Absent {A}.
Arguments Null {A}.
Arguments Mistyped {A}.
Arguments Given {A} a.

(** [x: T = Field(...)]: required, and [null] is not a [T]. *)
Definition required {A} (m : member A) : result A :=
  match m with
  | Given a => Ok a
  | Absent | Null | Mistyped => Raise RequestValidationError
  end.

(** [x: Optional[T] = Field(default=None)]. *)
Definition optional {A} (m : member A) : result (option A) :=
  match m with
  | Given a => Ok (Some a)
  | Absent | Null => Ok None
  | Mistyped => Raise RequestValidationError
  end.

(** [Field(..., min_length=n)] on a [str]. *)
Definition min_length (n : nat) (s : string) : result string :=
  if (n <=? String.length s)%nat then Ok s else Raise RequestValidationError.

Record RegisterBody := {
  RegisterBody_email : member string;
  RegisterBody_password : member string;
  RegisterBody_display_name : member string }.

Definition validate_RegisterRequest (b : RegisterBody)
  : result RegisterRequest :=
  email <-- required (RegisterBody_email b) ;;
  password <-- (s <-- required (RegisterBody_password b) ;; min_length 6 s) ;;
  display_name <-- optional (RegisterBody_display_name b) ;;
  Ok {| RegisterRequest_email := email;
        RegisterRequest_password := password;
        RegisterRequest_display_name := display_name |}.



(** A route with a body parameter: the body is validated first, and the
    handler runs only on a request that passed. *)
Definition with_body {B Q A} (validate : B -> result Q)
  (handler : Q -> Db -> result A * Db) (b : B) (d : Db) : result A * Db :=
  match validate b with
  | Ok req => handler req d
  | Raise e => (Raise e, d)
  end.

(* ================================================================= *)
(** ** Libraries the handlers call

    Interfaces of code that lives outside the repository.  A function that
    can raise returns a [result]. *)

(** [passlib]'s bcrypt context.  Hashing draws a random salt, which is an
    argument here. *)
Class Passlib := {
  pwd_context_hash : string -> string -> string;
  pwd_context_verify : string -> string -> bool }.

(** A JWT claim value, and [jwt.encode(payload, key, algorithm="HS256")]. *)
Inductive claim : Type :=
| ClaimStr (s : string)
| ClaimInt (n : Z).

Class PyJWT := {
  jwt_encode : dict claim -> string -> string }.

(** Python's [int(str)]. *)
Class Builtins := {
  int_of_str : string -> result Z }.

(** The C library behind [math] and behind [float.__pow__].  [math.sin] and
    [math.cos] raise [ValueError] on an infinite argument, [x ** y] raises
    [OverflowError] when the result overflows; [math.atan2] never raises. *)
Class Libm := {
  math_sin : float -> result float;
  math_cos : float -> result float;
  math_atan2 : float -> float -> float;
  float_pow : float -> float -> result float }.

(** [os.environ], as far as the handlers read it. *)
Record Environ := {
  JWT_SECRET : option string;
  JWT_EXPIRES_MINUTES : option string }.

(* ================================================================= *)
(** ** security.py *)

Definition hash_password {passlib : Passlib} (salt password : string)
  : string :=
  pwd_context_hash salt password.

Definition verify_password {passlib : Passlib} (password password_hash : string)
  : bool :=
  pwd_context_verify password password_hash.

Definition _get_jwt_secret (env : Environ) : result string :=
  match JWT_SECRET env with
  | None => Raise RuntimeError
  | Some secret =>
      if secret =? "" then Raise RuntimeError else Ok secret
  end.

(** A [datetime] counts the microseconds from the epoch; [datetime.min] and
    [datetime.max] are the first and the last microsecond of the years 1 to
    9999. *)
Definition datetime_min : datetime := (-62135596800000000)%Z.

Definition datetime_max : datetime := 253402300799999999%Z.

(** [timedelta(minutes=m)] for an [int], in microseconds: [OverflowError]
    when it is more than 999999999 days. *)
Definition timedelta_minutes (m : Z) : result Z :=
  let us := (m * 60 * 1000000)%Z in
  let days := (us / 86400000000)%Z in
  if ((-999999999 <=? days) && (days <=? 999999999))%Z
  then Ok us
  else Raise OverflowError.

(** [dt + td]: [OverflowError] when the sum is no date of the years 1 to
    9999. *)
Definition datetime_add (dt : datetime) (td : Z) : result datetime :=
  let t := (dt + td)%Z in
  if ((datetime_min <=? t) && (t <=? datetime_max))%Z
  then Ok t
  else Raise OverflowError.

(** A finite binary64, [mantissa * 2 ^ exponent]. *)
Record binary64 := { mantissa : Z; exponent : Z }.

(** [n / d] rounded to the nearest integer, a tie to the even one. *)
Definition round_half_even (n d : Z) : Z :=
  let q := (n / d)%Z in
  let r := (n mod d)%Z in
  if (2 * r <? d)%Z then q
  else if (d <? 2 * r)%Z then (q + 1)%Z
  else if Z.even q then q else (q + 1)%Z.

(** [n / d < 2 ^ e]. *)
Definition below_pow2 (n d e : Z) : bool :=
  (n * 2 ^ Z.max 0 (- e) <? d * 2 ^ Z.max 0 e)%Z.

(** [a / b] on two [int]s, [b] positive: the binary64 nearest to the
    quotient, with a mantissa of 53 bits.  (The quotients taken here are far
    from the ends of the exponent range.) *)
Definition int_true_divide (a b : Z) : binary64 :=
  if (a =? 0)%Z then {| mantissa := 0; exponent := 0 |} else
  let n := Z.abs a in
  let e0 := (Z.log2 n - Z.log2 b)%Z in
  let e := if below_pow2 n b e0 then (e0 - 1)%Z else e0 in
  let k := (52 - e)%Z in
  {| mantissa :=
       (Z.sgn a
        * round_half_even (n * 2 ^ Z.max 0 k) (b * 2 ^ Z.max 0 (- k)))%Z;
     exponent := (e - 52)%Z |}.

(** [int(x)] on a [float]: towards zero. *)
Definition int_of_float (x : binary64) : Z :=
  Z.quot (mantissa x * 2 ^ Z.max 0 (exponent x)) (2 ^ Z.max 0 (- exponent x)).

(** [dt.timestamp()] of an aware [datetime]: its distance from the epoch as
    [total_seconds()], the microseconds divided by [10**6]. *)
Definition timestamp (dt : datetime) : binary64 :=
  int_true_divide dt 1000000.

Definition timestamp_int (dt : datetime) : Z := int_of_float (timestamp dt).

(** [now + timedelta(minutes=minutes)]. *)
Definition expiry (now : datetime) (minutes : Z) : result datetime :=
  td <-- timedelta_minutes minutes ;;
  datetime_add now td.

Definition create_access_token {pyjwt : PyJWT} {builtins : Builtins}
  (env : Environ) (subject : string) (expires_minutes : option Z)
  (extra : option (dict claim)) (now : datetime) : result string :=
  minutes <--
    match expires_minutes with
    | Some m => if (m =? 0)%Z then
                  int_of_str (match JWT_EXPIRES_MINUTES env with
                              | Some s => s
                              | None => "10080"
                              end)
                else Ok m
    | None => int_of_str (match JWT_EXPIRES_MINUTES env with
                          | Some s => s
                          | None => "10080"
                          end)
    end ;;
  expires <-- expiry now minutes ;;
  let payload : dict claim :=
    [("sub", ClaimStr subject);
     ("iat", ClaimInt (timestamp_int now));
     ("exp", ClaimInt (timestamp_int expires))] in
  let payload :=
    match extra with
    | Some (kv :: more) => dict_update payload (kv :: more)
    | Some [] | None => payload
    end in
  secret <-- _get_jwt_secret env ;;
  Ok (jwt_encode payload secret).

(* ================================================================= *)
(** ** routes_auth.py *)

(** [user_id] is [str(uuid.uuid4())], [salt] the hasher's salt, [t_users]
    and [t_profiles] the clock readings of the two column defaults. *)
Definition register {passlib : Passlib} (user_id salt : string)
  (t_users t_profiles : datetime) (req : RegisterRequest)
  : Db -> result MeResponse * Db :=
  let pw_hash := hash_password salt (RegisterRequest_password req) in
  session_scope (
    existing <- query (fun d =>
      find (fun u => users_email u =? RegisterRequest_email req) (users d)) ;;
    match existing with
    | Some _ => raise (HTTPException 409 "Email already registered")
    | None =>
        insert_users
          {| users_id := user_id;
             users_email := RegisterRequest_email req;
             users_password_hash := pw_hash;
             users_display_name := RegisterRequest_display_name req;
             users_created_at := t_users |} ;;;
        insert_profiles
          {| profiles_user_id := user_id;
             profiles_display_name := RegisterRequest_display_name req;
             profiles_bio := Some "";
             profiles_pace := Some "casual";
             profiles_bike_type := Some "road";
             profiles_looking_for := Some "friends";
             profiles_home_base := Some "";
             profiles_updated_at := t_profiles |} ;;;
        ret {| MeResponse_id := user_id;
               MeResponse_email := RegisterRequest_email req;
               MeResponse_display_name := RegisterRequest_display_name req |}
    end).

(** [POST /auth/register]. *)
Definition auth_register {passlib : Passlib} (user_id salt : string)
  (t_users t_profiles : datetime)
  : RegisterBody -> Db -> result MeResponse * Db :=
  with_body validate_RegisterRequest
            (register user_id salt t_users t_profiles).

Definition login {passlib : Passlib} {pyjwt : PyJWT} {builtins : Builtins}
  (env : Environ) (now : datetime) (req : LoginRequest)
  : Db -> result TokenResponse * Db :=
  session_scope (
    row <- query (fun d =>
      find (fun u => users_email u =? LoginRequest_email req) (users d)) ;;
    match row with
    | None => raise (HTTPException 401 "Invalid credentials")
    | Some row =>
        if negb (verify_password (LoginRequest_password req)
                                 (users_password_hash row))
        then raise (HTTPException 401 "Invalid credentials")
        else
          token <- lift (create_access_token env (users_id row)
                                             None None now) ;;
          ret {| TokenResponse_access_token := token;
                 TokenResponse_token_type := "bearer" |}
    end).

(* ================================================================= *)
(** ** routes_profiles.py *)

Definition model_dump (req : ProfileUpdateRequest) : dict (option string) :=
  [("display_name", ProfileUpdateRequest_display_name req);
   ("bio", ProfileUpdateRequest_bio req);
   ("pace", ProfileUpdateRequest_pace req);
   ("bike_type", ProfileUpdateRequest_bike_type req);
   ("looking_for", ProfileUpdateRequest_looking_for req);
   ("home_base", ProfileUpdateRequest_home_base req)].

(** [{k: v for k, v in d.items() if v is not None}]. *)
Definition drop_none {V} (d : dict (option V)) : dict V :=
  flat_map (fun kv => match snd kv with
                      | Some v => [(fst kv, v)]
                      | None => []
                      end) d.

(** [insert(profiles)] with [user_id] and the entries of [values] as its
    values: a column without a value is NULL, and [updated_at] takes its
    default, the clock. *)
Definition profiles_values (user_id : string) (values : dict string)
  (now : datetime) : profiles_row :=
  {| profiles_user_id := user_id;
     profiles_display_name := dict_get "display_name" values;
     profiles_bio := dict_get "bio" values;
     profiles_pace := dict_get "pace" values;
     profiles_bike_type := dict_get "bike_type" values;
     profiles_looking_for := dict_get "looking_for" values;
     profiles_home_base := dict_get "home_base" values;
     profiles_updated_at := now |}.

(** One column of an [update] whose values are the entries of [values]. *)
Definition set_column (k : string) (values : dict string)
  (old : option string) : option string :=
  match dict_get k values with
  | Some v => Some v
  | None => old
  end.

(** [update(profiles)] with the entries of [values], on one row: the columns
    of [values] are set, and [updated_at] takes its [onupdate], the clock. *)
Definition profiles_set_values (values : dict string) (now : datetime)
  (p : profiles_row) : profiles_row :=
  {| profiles_user_id := profiles_user_id p;
     profiles_display_name :=
       set_column "display_name" values (profiles_display_name p);
     profiles_bio := set_column "bio" values (profiles_bio p);
     profiles_pace := set_column "pace" values (profiles_pace p);
     profiles_bike_type := set_column "bike_type" values (profiles_bike_type p);
     profiles_looking_for :=
       set_column "looking_for" values (profiles_looking_for p);
     profiles_home_base := set_column "home_base" values (profiles_home_base p);
     profiles_updated_at := now |}.

Definition users_set_display_name (v : string) (u : users_row) : users_row :=
  {| users_id := users_id u;
     users_email := users_email u;
     users_password_hash := users_password_hash u;
     users_display_name := Some v;
     users_created_at := users_created_at u |}.

(** [ProfileResponse] built from the columns of a row. *)
Definition ProfileResponse_of_row (p : profiles_row) : ProfileResponse :=
  {| ProfileResponse_user_id := profiles_user_id p;
     ProfileResponse_display_name := profiles_display_name p;
     ProfileResponse_bio := profiles_bio p;
     ProfileResponse_pace := profiles_pace p;
     ProfileResponse_bike_type := profiles_bike_type p;
     ProfileResponse_looking_for := profiles_looking_for p;
     ProfileResponse_home_base := profiles_home_base p;
     ProfileResponse_updated_at := Some (profiles_updated_at p) |}.

Definition select_profile (uid : string) (d : Db) : option profiles_row :=
  find (fun p => profiles_user_id p =? uid) (profiles d).

(** [update(profiles).where(user_id == me).values(...)]: the statement fails
    when one of its values does not fit its column, whatever rows it
    matches. *)
Definition update_profiles (me : string) (values : dict string)
  (now : datetime) : session unit := fun d =>
  if profiles_fit (profiles_values me values now)
  then (Ok tt,
        set_profiles
          (update_where (fun p => profiles_user_id p =? me)
                        (profiles_set_values values now)
                        (profiles d)) d)
  else (Raise SQLAlchemyError, d).

(** [update(users).where(id == me).values(display_name=v)]. *)
Definition update_users_display_name (me v : string) : session unit := fun d =>
  if fits 120 v
  then (Ok tt,
        set_users
          (update_where (fun u => users_id u =? me)
                        (users_set_display_name v) (users d)) d)
  else (Raise SQLAlchemyError, d).

Definition update_me (now : datetime) (req : ProfileUpdateRequest)
  (current_user : users_row) : Db -> result ProfileResponse * Db :=
  let values := drop_none (model_dump req) in
  let me := users_id current_user in
  session_scope (
    existing <- query (select_profile me) ;;
    match existing with
    | None => insert_profiles (profiles_values me values now)
    | Some _ => update_profiles me values now
    end ;;;
    match dict_get "display_name" values with
    | Some v => update_users_display_name me v
    | None => ret tt
    end ;;;
    row <- query (select_profile me) ;;
    match row with
    | Some row => ret (ProfileResponse_of_row row)
    | None => raise TypeError
    end).

(* ================================================================= *)
(** ** routes_location.py *)

(** [math.radians]: the argument times the constant [pi / 180]. *)
Definition degToRad : float := (0x1.921fb54442d18p+1 / 180)%float.

Definition math_radians (x : float) : float := (x * degToRad)%float.

(** [math.sqrt]: [ValueError] on a negative argument. *)
Definition math_sqrt (x : float) : result float :=
  if (x <? 0)%float then Raise ValueError else Ok (PrimFloat.sqrt x).

Definition _haversine_km {libm : Libm} (lat1 lng1 lat2 lng2 : float)
  : result float :=
  let r := 6371.0%float in
  let p1 := math_radians lat1 in
  let p2 := math_radians lat2 in
  let dlat := math_radians (lat2 - lat1)%float in
  let dlng := math_radians (lng2 - lng1)%float in
  sin_dlat <-- math_sin (dlat / 2)%float ;;
  sq_dlat <-- float_pow sin_dlat 2%float ;;
  cos_p1 <-- math_cos p1 ;;
  cos_p2 <-- math_cos p2 ;;
  sin_dlng <-- math_sin (dlng / 2)%float ;;
  sq_dlng <-- float_pow sin_dlng 2%float ;;
  let a := (sq_dlat + cos_p1 * cos_p2 * sq_dlng)%float in
  sqrt_a <-- math_sqrt a ;;
  sqrt_1a <-- math_sqrt (1 - a)%float ;;
  let c := (2 * math_atan2 sqrt_a sqrt_1a)%float in
  Ok (r * c)%float.

Definition update_location (now : datetime) (req : LocationUpdateRequest)
  (current_user : users_row) : Db -> result (dict bool) * Db :=
  let me := users_id current_user in
  session_scope (
       existing <- query (fun d =>
         find (fun l => locations_user_id l =? me) (locations d)) ;;
       match existing with
       | Some _ =>
           fun d => (Ok tt,
                     set_locations
                       (update_where
                          (fun l => locations_user_id l =? me)
                          (fun l =>
                             {| locations_user_id := locations_user_id l;
                                locations_lat := LocationUpdateRequest_lat req;
                                locations_lng := LocationUpdateRequest_lng req;
                                locations_updated_at := now |})
                          (locations d)) d)
       | None =>
           insert_locations
             {| locations_user_id := me;
                locations_lat := LocationUpdateRequest_lat req;
                locations_lng := LocationUpdateRequest_lng req;
                locations_updated_at := now |}
       end) ;;;
  ret [("ok", true)].

(** A row of the select of [nearby_search]. *)
Record nearby_row := {
  nearby_row_user_id : string;
  nearby_row_email : string;
  nearby_row_display_name : option string;
  nearby_row_pace : option string;
  nearby_row_bike_type : option string;
  nearby_row_lat : float;
  nearby_row_lng : float }.

(** [users JOIN locations LEFT OUTER JOIN profiles WHERE users.id != me]:
    every pair of a user and a location of that user, once for each profile
    of the user, and once with NULL profile columns when there is none. *)
Definition nearby_select (me : string) (d : Db) : list nearby_row :=
  flat_map (fun u =>
    if negb (users_id u =? me) then
      flat_map (fun l =>
        let row pace bike_type :=
          {| nearby_row_user_id := users_id u;
             nearby_row_email := users_email u;
             nearby_row_display_name := users_display_name u;
             nearby_row_pace := pace;
             nearby_row_bike_type := bike_type;
             nearby_row_lat := locations_lat l;
             nearby_row_lng := locations_lng l |} in
        match filter (fun p => profiles_user_id p =? users_id u)
                     (profiles d) with
        | [] => [row None None]
        | ps => map (fun p => row (profiles_pace p) (profiles_bike_type p)) ps
        end)
        (filter (fun l => locations_user_id l =? users_id u) (locations d))
    else [])
    (users d).

Definition NearbyUserItem_of_row (r : nearby_row) (dist : float)
  : NearbyUserItem :=
  {| NearbyUserItem_user_id := nearby_row_user_id r;
     NearbyUserItem_email := Some (nearby_row_email r);
     NearbyUserItem_display_name := nearby_row_display_name r;
     NearbyUserItem_pace := nearby_row_pace r;
     NearbyUserItem_bike_type := nearby_row_bike_type r;
     NearbyUserItem_distance_km := dist |}.

(** The [for r in rows] loop: one step appends to [items] or leaves it. *)
Definition nearby_step {libm : Libm} (lat lng radius_km : float)
  (acc : result (list NearbyUserItem)) (r : nearby_row)
  : result (list NearbyUserItem) :=
  items <-- acc ;;
  dist <-- _haversine_km lat lng (nearby_row_lat r) (nearby_row_lng r) ;;
  if (dist <=? radius_km)%float
  then Ok (items ++ [NearbyUserItem_of_row r dist])%list
  else Ok items.

Definition nearby_search {libm : Libm} (lat lng radius_km : float)
  (current_user : users_row) : Db -> result NearbyResponse * Db :=
  rows <- session_scope (query (nearby_select (users_id current_user))) ;;
  lift (
    items <-- fold_left (nearby_step lat lng radius_km) rows (Ok []) ;;
    let items := sort_by NearbyUserItem_distance_km PrimFloat.ltb items in
    Ok {| NearbyResponse_items := items |}).

(* ================================================================= *)
(** ** routes_messaging.py *)

Definition _ensure_participant (conversation_id user_id : string)
  : session unit :=
  exists_ <- query (is_participant conversation_id user_id) ;;
  if negb exists_
  then raise (HTTPException 403 "Not a participant in this conversation")
  else ret tt.

Definition order_by_created_at_asc : list messages_row -> list messages_row :=
  sort_by messages_created_at Z.ltb.

Definition MessageItem_of_row (me : string) (r : messages_row) : MessageItem :=
  {| MessageItem_id := messages_id r;
     MessageItem_text := messages_text r;
     MessageItem_created_at := messages_created_at r;
     MessageItem_is_mine := messages_sender_id r =? me |}.

Definition get_messages (conversation_id : string) (current_user : users_row)
  : Db -> result MessagesResponse * Db :=
  let me := users_id current_user in
  rows <- session_scope (
    _ensure_participant conversation_id me ;;;
    query (fun d =>
      order_by_created_at_asc
        (filter (fun m => messages_conversation_id m =? conversation_id)
                (messages d)))) ;;
  ret {| MessagesResponse_items := map (MessageItem_of_row me) rows |}.

(** [msg_id] is [str(uuid.uuid4())] and [now] the clock reading. *)
Definition send_message (msg_id : string) (now : datetime)
  (conversation_id : string) (req : SendMessageRequest)
  (current_user : users_row) : Db -> result MessageItem * Db :=
  let me := users_id current_user in
  session_scope (
       conv <- query (fun d =>
         find (fun c => conversations_id c =? conversation_id)
              (conversations d)) ;;
       match conv with
       | None =>
           insert_conversations
             {| conversations_id := conversation_id;
                conversations_created_at := now |} ;;;
           insert_conversation_participants
             {| conversation_participants_conversation_id := conversation_id;
                conversation_participants_user_id := me |}
       | Some _ => ret tt
       end ;;;
       _ensure_participant conversation_id me ;;;
       insert_messages
         {| messages_id := msg_id;
            messages_conversation_id := conversation_id;
            messages_sender_id := me;
            messages_text := SendMessageRequest_text req;
            messages_created_at := now |}) ;;;
  ret {| MessageItem_id := msg_id;
         MessageItem_text := SendMessageRequest_text req;
         MessageItem_created_at := now;
         MessageItem_is_mine := true |}.

(* ================================================================= *)
(** ** routes_rides.py *)

Definition RideResponse_of_row (r : rides_row) : RideResponse :=
  {| RideResponse_id := rides_id r;
     RideResponse_title := rides_title r;
     RideResponse_date := rides_date r;
     RideResponse_time := rides_time r;
     RideResponse_pace := rides_pace r;
     RideResponse_distance_km := rides_distance_km r;
     RideResponse_start := rides_start r;
     RideResponse_notes := rides_notes r;
     RideResponse_creator_id := rides_creator_id r |}.

(** [ride_id] is [str(uuid.uuid4())] and [now] the clock reading of the
    default of [created_at]. *)
Definition create_ride (ride_id : string) (now : datetime)
  (current_user : users_row) (req : RideCreateRequest)
  : Db -> result RideResponse * Db :=
  session_scope (
    insert_rides
      {| rides_id := ride_id;
         rides_creator_id := Some (users_id current_user);
         rides_title := RideCreateRequest_title req;
         rides_date := RideCreateRequest_date req;
         rides_time := RideCreateRequest_time req;
         rides_pace := RideCreateRequest_pace req;
         rides_distance_km := RideCreateRequest_distance_km req;
         rides_start := RideCreateRequest_start req;
         rides_notes := RideCreateRequest_notes req;
         rides_created_at := now |} ;;;
    row <- query (fun d => find (fun r => rides_id r =? ride_id) (rides d)) ;;
    match row with
    | Some row => ret (RideResponse_of_row row)
    | None => raise TypeError
    end).


(* ================================================================= *)
(** ** Integrity of a store

    What the schema's keys guarantee of every committed store, as checks
    that can be run on a given one. *)

Definition fk_profiles (d : Db) : bool :=
  forallb (fun p => has_user (profiles_user_id p) d) (profiles d).

Definition fk_conversation_participants (d : Db) : bool :=
  forallb (fun p =>
             has_conversation (conversation_participants_conversation_id p) d
             && has_user (conversation_participants_user_id p) d)
          (conversation_participants d).

(** The rows of a table that bear a given key. *)
Definition locations_of (uid : string) (d : Db) : list locations_row :=
  filter (fun l => locations_user_id l =? uid) (locations d).


Definition messages_of (cid : string) (d : Db) : list messages_row :=
  filter (fun m => messages_conversation_id m =? cid) (messages d).

(** Primary key of [locations]: no two rows of one user. *)
Definition pk_locations (d : Db) : Prop :=
  forall uid, (List.length (locations_of uid d) <= 1)%nat.

(** A run of [update_location] calls, whatever each of them returns. *)
Definition update_location_calls
  (calls : list (datetime * LocationUpdateRequest * users_row)) (d : Db)
  : Db :=
  fold_left (fun d c =>
               match c with
               | (now, req, current_user) =>
                   snd (update_location now req current_user d)
               end) calls d.

(** What [update_location] returns, and the row it writes for a caller. *)
Definition ok_response : dict bool := [("ok", true)].

Definition location_fix (me : string) (req : LocationUpdateRequest)
  (now : datetime) : locations_row :=
  {| locations_user_id := me;
     locations_lat := LocationUpdateRequest_lat req;
     locations_lng := LocationUpdateRequest_lng req;
     locations_updated_at := now |}.

(** Two stores that differ at most in one table. *)
Definition same_but_locations (d d' : Db) : Prop :=
  users d' = users d /\ profiles d' = profiles d /\
  conversations d' = conversations d /\
  conversation_participants d' = conversation_participants d /\
  messages d' = messages d /\ rides d' = rides d.

(* ================================================================= *)
(** ** Sample data *)

Definition alice : users_row :=
  {| users_id := "u-alice"; users_email := "alice@example.org";
     users_password_hash := "wheels"; users_display_name := Some "Alice";
     users_created_at := 1000%Z |}.

Definition bob : users_row :=
  {| users_id := "u-bob"; users_email := "bob@example.org";
     users_password_hash := "spokes"; users_display_name := Some "Bob";
     users_created_at := 2000%Z |}.

Definition carol : users_row :=
  {| users_id := "u-carol"; users_email := "carol@example.org";
     users_password_hash := "saddle"; users_display_name := None;
     users_created_at := 3000%Z |}.

Definition club_users : Db := set_users [alice; bob; carol] empty_db.

Definition fix_origin : LocationUpdateRequest :=
  {| LocationUpdateRequest_lat := 0; LocationUpdateRequest_lng := 0 |}.

Definition fix_north : LocationUpdateRequest :=
  {| LocationUpdateRequest_lat := 0.5; LocationUpdateRequest_lng := 0 |}.

(** A hasher that stores the password as it is, for running the handlers
    on sample data. *)
Definition plain_passlib : Passlib :=
  {| pwd_context_hash := fun _ password => password;
     pwd_context_verify := fun password password_hash =>
                             password =? password_hash |}.

Definition dave_request : RegisterRequest :=
  {| RegisterRequest_email := "dave@example.org";
     RegisterRequest_password := "pedals";
     RegisterRequest_display_name := Some "Dave" |}.

(** The rows [register] writes. *)
Definition registered_user {passlib : Passlib} (user_id salt : string)
  (t_users : datetime) (req : RegisterRequest) : users_row :=
  {| users_id := user_id;
     users_email := RegisterRequest_email req;
     users_password_hash := hash_password salt (RegisterRequest_password req);
     users_display_name := RegisterRequest_display_name req;
     users_created_at := t_users |}.

Definition default_profile (user_id : string) (t_profiles : datetime)
  (req : RegisterRequest) : profiles_row :=
  {| profiles_user_id := user_id;
     profiles_display_name := RegisterRequest_display_name req;
     profiles_bio := Some "";
     profiles_pace := Some "casual";
     profiles_bike_type := Some "road";
     profiles_looking_for := Some "friends";
     profiles_home_base := Some "";
     profiles_updated_at := t_profiles |}.

Definition email_taken (email : string) (d : Db) : bool :=
  existsb (fun u => users_email u =? email) (users d).

Definition has_profile (uid : string) (d : Db) : bool :=
  existsb (fun p => profiles_user_id p =? uid) (profiles d).

(** Ascending order of a list by a key, for a boolean [<=] on keys. *)
Definition ascending {A K} (key : A -> K) (le : K -> K -> bool) (a b : A)
  : Prop :=
  le (key a) (key b) = true.

Definition forbidden : exn :=
  HTTPException 403 "Not a participant in this conversation".

(** A message row and the item returned for it to the caller [me]. *)
Definition item_of_message (me : string) (r : messages_row) (it : MessageItem)
  : Prop :=
  MessageItem_id it = messages_id r
  /\ MessageItem_text it = messages_text r
  /\ MessageItem_created_at it = messages_created_at r
  /\ (MessageItem_is_mine it = true <-> messages_sender_id r = me).

Definition club_chat : Db :=
  set_messages
    [ {| messages_id := "m2"; messages_conversation_id := "c1";
         messages_sender_id := "u-bob"; messages_text := "Sure, 8am?";
         messages_created_at := 7200 |};
      {| messages_id := "m1"; messages_conversation_id := "c1";
         messages_sender_id := "u-alice"; messages_text := "Ride on Sunday?";
         messages_created_at := 7100 |};
      {| messages_id := "m3"; messages_conversation_id := "c2";
         messages_sender_id := "u-carol"; messages_text := "Anyone around?";
         messages_created_at := 7150 |} ]
    (set_conversation_participants
       [ {| conversation_participants_conversation_id := "c1";
            conversation_participants_user_id := "u-alice" |};
         {| conversation_participants_conversation_id := "c1";
            conversation_participants_user_id := "u-bob" |};
         {| conversation_participants_conversation_id := "c2";
            conversation_participants_user_id := "u-carol" |} ]
       (set_conversations
          [ {| conversations_id := "c1"; conversations_created_at := 7000 |};
            {| conversations_id := "c2"; conversations_created_at := 7050 |} ]
          club_users)).

Definition has_message (mid : string) (d : Db) : bool :=
  existsb (fun m => messages_id m =? mid) (messages d).

(** The row [send_message] stores and the item it returns. *)
Definition sent_row (msg_id : string) (now : datetime)
  (conversation_id : string) (req : SendMessageRequest) (me : string)
  : messages_row :=
  {| messages_id := msg_id;
     messages_conversation_id := conversation_id;
     messages_sender_id := me;
     messages_text := SendMessageRequest_text req;
     messages_created_at := now |}.

Definition sent_item (msg_id : string) (now : datetime)
  (req : SendMessageRequest) : MessageItem :=
  {| MessageItem_id := msg_id;
     MessageItem_text := SendMessageRequest_text req;
     MessageItem_created_at := now;
     MessageItem_is_mine := true |}.

(** The store after a conversation was created for its first sender. *)
Definition conversation_opened (conversation_id : string) (now : datetime)
  (me : string) (d : Db) : Db :=
  set_conversation_participants
    (conversation_participants d
     ++ [ {| conversation_participants_conversation_id := conversation_id;
             conversation_participants_user_id := me |} ])
    (set_conversations
       (conversations d
        ++ [ {| conversations_id := conversation_id;
                conversations_created_at := now |} ]) d).

Definition hello : SendMessageRequest :=
  {| SendMessageRequest_text := "Hello from the road" |}.

(** A supplied non-null value replaces the old one; an absent or null one
    keeps it. *)
Definition supplied {V} (new old : option V) : option V :=
  match new with
  | Some v => Some v
  | None => old
  end.

Definition club_profiles : Db :=
  set_profiles
    [ {| profiles_user_id := "u-alice"; profiles_display_name := Some "Alice";
         profiles_bio := Some "Climber"; profiles_pace := Some "fast";
         profiles_bike_type := Some "gravel";
         profiles_looking_for := Some "rides";
         profiles_home_base := Some "Leeds"; profiles_updated_at := 1500 |};
      {| profiles_user_id := "u-bob"; profiles_display_name := Some "Bob";
         profiles_bio := Some ""; profiles_pace := Some "casual";
         profiles_bike_type := Some "road";
         profiles_looking_for := Some "friends";
         profiles_home_base := Some ""; profiles_updated_at := 2500 |} ]
    club_users.

Definition only_bio : ProfileUpdateRequest :=
  {| ProfileUpdateRequest_display_name := None;
     ProfileUpdateRequest_bio := Some "new";
     ProfileUpdateRequest_pace := None;
     ProfileUpdateRequest_bike_type := None;
     ProfileUpdateRequest_looking_for := None;
     ProfileUpdateRequest_home_base := None |}.

Definition rename_carol : ProfileUpdateRequest :=
  {| ProfileUpdateRequest_display_name := Some "Carol";
     ProfileUpdateRequest_bio := None;
     ProfileUpdateRequest_pace := Some "steady";
     ProfileUpdateRequest_bike_type := None;
     ProfileUpdateRequest_looking_for := None;
     ProfileUpdateRequest_home_base := None |}.

(** The profile row a request creates for a caller who has none. *)
Definition created_profile (me : string) (req : ProfileUpdateRequest)
  (now : datetime) : profiles_row :=
  {| profiles_user_id := me;
     profiles_display_name := ProfileUpdateRequest_display_name req;
     profiles_bio := ProfileUpdateRequest_bio req;
     profiles_pace := ProfileUpdateRequest_pace req;
     profiles_bike_type := ProfileUpdateRequest_bike_type req;
     profiles_looking_for := ProfileUpdateRequest_looking_for req;
     profiles_home_base := ProfileUpdateRequest_home_base req;
     profiles_updated_at := now |}.

(** The profile row a request makes of an existing one. *)
Definition updated_profile (req : ProfileUpdateRequest) (now : datetime)
  (p : profiles_row) : profiles_row :=
  {| profiles_user_id := profiles_user_id p;
     profiles_display_name :=
       supplied (ProfileUpdateRequest_display_name req)
                (profiles_display_name p);
     profiles_bio := supplied (ProfileUpdateRequest_bio req) (profiles_bio p);
     profiles_pace :=
       supplied (ProfileUpdateRequest_pace req) (profiles_pace p);
     profiles_bike_type :=
       supplied (ProfileUpdateRequest_bike_type req) (profiles_bike_type p);
     profiles_looking_for :=
       supplied (ProfileUpdateRequest_looking_for req)
                (profiles_looking_for p);
     profiles_home_base :=
       supplied (ProfileUpdateRequest_home_base req) (profiles_home_base p);
     profiles_updated_at := now |}.

(** The [users] table after a profile update of [me]. *)
Definition users_synced (me : string) (req : ProfileUpdateRequest)
  (us : list users_row) : list users_row :=
  match ProfileUpdateRequest_display_name req with
  | Some v =>
      map (fun u => if users_id u =? me then users_set_display_name v u else u)
          us
  | None => us
  end.

Definition same_but_users_profiles (d d' : Db) : Prop :=
  locations d' = locations d /\ conversations d' = conversations d /\
  conversation_participants d' = conversation_participants d /\
  messages d' = messages d /\ rides d' = rides d.

Definition invalid_credentials : exn :=
  HTTPException 401 "Invalid credentials".


(** The claims of a token issued without extra claims. *)
Definition token_payload (subject : string) (now : datetime) (minutes : Z)
  : dict claim :=
  [("sub", ClaimStr subject);
   ("iat", ClaimInt (timestamp_int now));
   ("exp", ClaimInt (timestamp_int (now + minutes * 60 * 1000000)%Z))].

(** Stand-ins for the JWT codec and for [int], for running the handlers on
    sample data: the "token" shows the key and the subject, and [int] reads
    plain decimal digits. *)
Definition readable_jwt : PyJWT :=
  {| jwt_encode := fun payload secret =>
       secret ++ ":" ++ match dict_get "sub" payload with
                        | Some (ClaimStr s) => s
                        | _ => ""
                        end |}.

Fixpoint decimal_digits (s : string) (acc : Z) : result Z :=
  match s with
  | EmptyString => Ok acc
  | String c s' =>
      let n := Z.of_nat (nat_of_ascii c) in
      if ((48 <=? n) && (n <=? 57))%Z
      then decimal_digits s' (acc * 10 + (n - 48))%Z
      else Raise ValueError
  end.

Definition decimal_int : Builtins :=
  {| int_of_str := fun s =>
       match s with
       | EmptyString => Raise ValueError
       | _ => decimal_digits s 0
       end |}.

Definition club_env : Environ :=
  {| JWT_SECRET := Some "s3cret"; JWT_EXPIRES_MINUTES := None |}.


(** What an optional member of a body becomes when it validates. *)
Definition as_option {A} (m : member A) : option A :=
  match m with
  | Given a => Some a
  | Absent | Null | Mistyped => None
  end.

Definition is_mistyped {A} (m : member A) : bool :=
  match m with
  | Mistyped => true
  | Absent | Null | Given _ => false
  end.

Definition is_given {A} (m : member A) : bool :=
  match m with
  | Given _ => true
  | Absent | Null | Mistyped => false
  end.

Definition has_ride (rid : string) (d : Db) : bool :=
  existsb (fun r => rides_id r =? rid) (rides d).

(** The row [create_ride] stores. *)
Definition stored_ride (ride_id : string) (now : datetime) (me : string)
  (req : RideCreateRequest) : rides_row :=
  {| rides_id := ride_id;
     rides_creator_id := Some me;
     rides_title := RideCreateRequest_title req;
     rides_date := RideCreateRequest_date req;
     rides_time := RideCreateRequest_time req;
     rides_pace := RideCreateRequest_pace req;
     rides_distance_km := RideCreateRequest_distance_km req;
     rides_start := RideCreateRequest_start req;
     rides_notes := RideCreateRequest_notes req;
     rides_created_at := now |}.





(** A registration body with an empty email. *)
Definition no_email_body : RegisterBody :=
  {| RegisterBody_email := Given "";
     RegisterBody_password := Given "pedals";
     RegisterBody_display_name := Absent |}.

Definition short_password_body : RegisterBody :=
  {| RegisterBody_email := Given "erin@example.org";
     RegisterBody_password := Given "12345";
     RegisterBody_display_name := Absent |}.

Definition register_request_of (email password : string) (b : RegisterBody)
  : RegisterRequest :=
  {| RegisterRequest_email := email;
     RegisterRequest_password := password;
     RegisterRequest_display_name := as_option (RegisterBody_display_name b) |}.

(** A row of the select of [nearby_search], from the rows it joins. *)
Definition joined_row (u : users_row) (l : locations_row)
  (pace bike_type : option string) : nearby_row :=
  {| nearby_row_user_id := users_id u;
     nearby_row_email := users_email u;
     nearby_row_display_name := users_display_name u;
     nearby_row_pace := pace;
     nearby_row_bike_type := bike_type;
     nearby_row_lat := locations_lat l;
     nearby_row_lng := locations_lng l |}.

(** What the loop of [nearby_search] keeps of one row. *)
Definition nearby_kept {libm : Libm} (lat lng radius_km : float)
  (r : nearby_row) : list NearbyUserItem :=
  match _haversine_km lat lng (nearby_row_lat r) (nearby_row_lng r) with
  | Ok dist =>
      if (dist <=? radius_km)%float then [NearbyUserItem_of_row r dist]
      else []
  | Raise _ => []
  end.

Definition distance_defined {libm : Libm} (lat lng : float) (r : nearby_row)
  : bool :=
  is_ok (_haversine_km lat lng (nearby_row_lat r) (nearby_row_lng r)).

(** A float that is not NaN compares [<=] with itself. *)
Definition comparable (x : float) : Prop := (x <=? x)%float = true.

(** Stand-ins for the C library, for running the handlers on sample data:
    the first terms of the series of sine and cosine, the quotient for the
    arc tangent, and squaring for the power. *)
Definition series_libm : Libm :=
  {| math_sin := fun x => Ok (x - x * x * x / 6)%float;
     math_cos := fun x => Ok (1 - x * x / 2)%float;
     math_atan2 := fun y x => (y / x)%float;
     float_pow := fun x y =>
       if (y =? 2)%float then Ok (x * x)%float else Raise OverflowError |}.

Definition club_riders : Db :=
  set_locations
    [ {| locations_user_id := "u-alice"; locations_lat := 0;
         locations_lng := 0; locations_updated_at := 8100 |};
      {| locations_user_id := "u-bob"; locations_lat := 0;
         locations_lng := 0.0078125; locations_updated_at := 8200 |};
      {| locations_user_id := "u-carol"; locations_lat := 0.00390625;
         locations_lng := 0; locations_updated_at := 8300 |} ]
    club_profiles.

(** The haversine formula on a sphere of radius 6371.0, step by step. *)
Definition haversine_formula {libm : Libm} (lat1 lng1 lat2 lng2 dist : float)
  : Prop :=
  exists sin_dlat sq_dlat cos_p1 cos_p2 sin_dlng sq_dlng sqrt_a sqrt_1a,
    math_sin (math_radians (lat2 - lat1) / 2)%float = Ok sin_dlat
    /\ float_pow sin_dlat 2%float = Ok sq_dlat
    /\ math_cos (math_radians lat1) = Ok cos_p1
    /\ math_cos (math_radians lat2) = Ok cos_p2
    /\ math_sin (math_radians (lng2 - lng1) / 2)%float = Ok sin_dlng
    /\ float_pow sin_dlng 2%float = Ok sq_dlng
    /\ let a := (sq_dlat + cos_p1 * cos_p2 * sq_dlng)%float in
       math_sqrt a = Ok sqrt_a
       /\ math_sqrt (1 - a)%float = Ok sqrt_1a
       /\ dist = (6371.0 * (2 * math_atan2 sqrt_a sqrt_1a))%float.

(** The answer to Alice's query at (0, 0) with a radius of 5 km. *)
Definition club_nearby : NearbyResponse :=
  Eval vm_compute in
    match fst (nearby_search (libm := series_libm) 0 0 5 alice club_riders)
    with
    | Ok resp => resp
    | Raise _ => {| NearbyResponse_items := [] |}
    end.

Definition carol_fix : locations_row :=
  {| locations_user_id := "u-carol"; locations_lat := 0.00390625;
     locations_lng := 0; locations_updated_at := 8300 |}.

Definition carol_distance : float :=
  Eval vm_compute in
    match _haversine_km (libm := series_libm) 0 0 0.00390625 0 with
    | Ok dist => dist
    | Raise _ => nan
    end.

(** The integrity that the theorems below assume of a store. *)
Definition integrity (d : Db) : Prop :=
  fk_profiles d = true
  /\ fk_conversation_participants d = true
  /\ pk_locations d.

(** The stores the handlers can produce from an empty one, whatever the
    libraries, identifiers, clock readings and requests are. *)
Inductive reachable : Db -> Prop :=
| reachable_empty : reachable empty_db
| reachable_register (passlib : Passlib) user_id salt t_users t_profiles
    req d :
    reachable d ->
    reachable (snd (register user_id salt t_users t_profiles req d))
| reachable_update_me now req current_user d :
    reachable d -> reachable (snd (update_me now req current_user d))
| reachable_update_location now req current_user d :
    reachable d -> reachable (snd (update_location now req current_user d))
| reachable_send_message msg_id now conversation_id req current_user d :
    reachable d ->
    reachable (snd (send_message msg_id now conversation_id req
                                 current_user d))
| reachable_create_ride ride_id now current_user req d :
    reachable d ->
    reachable (snd (create_ride ride_id now current_user req d)).

(** Primary keys of [users] and [profiles]: no two rows with one key. *)
Definition pk_users (d : Db) : Prop := NoDup (map users_id (users d)).

Definition pk_profiles (d : Db) : Prop :=
  NoDup (map profiles_user_id (profiles d)).

Definition primary_keys (d : Db) : Prop :=
  pk_users d /\ pk_profiles d /\ pk_locations d.

(* ================================================================= *)
(** ** More of schemas.py *)

Record ConversationItem := {
  ConversationItem_id : string;
  ConversationItem_title : string;
  ConversationItem_last_message : string }.

Record ConversationsResponse := {
  ConversationsResponse_items : list ConversationItem }.

Record RidesResponse := { RidesResponse_items : list RideResponse }.

(** [Field(..., ge=lo, le=hi)] on a [float]. *)
Definition ge_le (lo hi x : float) : result float :=
  if ((lo <=? x) && (x <=? hi))%float then Ok x
  else Raise RequestValidationError.

Record LocationUpdateBody := {
  LocationUpdateBody_lat : member float;
  LocationUpdateBody_lng : member float }.

Definition validate_LocationUpdateRequest (b : LocationUpdateBody)
  : result LocationUpdateRequest :=
  lat <-- (x <-- required (LocationUpdateBody_lat b) ;; ge_le (-90) 90 x) ;;
  lng <-- (x <-- required (LocationUpdateBody_lng b) ;; ge_le (-180) 180 x) ;;
  Ok {| LocationUpdateRequest_lat := lat; LocationUpdateRequest_lng := lng |}.

Record SendMessageBody := { SendMessageBody_text : member string }.

Definition validate_SendMessageRequest (b : SendMessageBody)
  : result SendMessageRequest :=
  text <-- (s <-- required (SendMessageBody_text b) ;; min_length 1 s) ;;
  Ok {| SendMessageRequest_text := text |}.

(* ================================================================= *)
(** ** deps.py *)

(** [jwt.decode(token, key, algorithms=["HS256"])]: the claims of a token
    that carries a valid signature and has not expired at the time of the
    call, and an exception otherwise. *)
Class PyJWTDecode := {
  jwt_decode : string -> string -> datetime -> result (dict claim) }.

(** security.py: [decode_access_token]. *)
Definition decode_access_token {pyjwt_decode : PyJWTDecode} (env : Environ)
  (now : datetime) (token : string) : result (dict claim) :=
  secret <-- _get_jwt_secret env ;;
  jwt_decode token secret now.

(** [not v] for a claim value. *)
Definition claim_falsy (c : claim) : bool :=
  match c with
  | ClaimStr s => s =? ""
  | ClaimInt n => (n =? 0)%Z
  end.

(** [users.c.id == v] for a claim value: an identifier is a string, and an
    integer equals none. *)
Definition id_is (c : claim) (uid : string) : bool :=
  match c with
  | ClaimStr s => uid =? s
  | ClaimInt _ => false
  end.

(** [creds] is the bearer credential of the request, if it has one; [now]
    is the time at which the token is decoded.  The [try] block turns every
    exception of its body into the one 401. *)
Definition get_current_user {pyjwt_decode : PyJWTDecode} (env : Environ)
  (now : datetime) (creds : option string) : Db -> result users_row * Db :=
  match creds with
  | None => raise (HTTPException 401 "Not authenticated")
  | Some token =>
      if token =? "" then raise (HTTPException 401 "Not authenticated")
      else
        match (payload <-- decode_access_token env now token ;;
               match dict_get "sub" payload with
               | None => Raise (HTTPException 401 "Invalid token")
               | Some user_id =>
                   if claim_falsy user_id
                   then Raise (HTTPException 401 "Invalid token")
                   else Ok user_id
               end) with
        | Raise _ => raise (HTTPException 401 "Invalid token")
        | Ok user_id =>
            session_scope (
              row <- query (fun d =>
                find (fun u => id_is user_id (users_id u)) (users d)) ;;
              match row with
              | None => raise (HTTPException 401 "User not found")
              | Some row => ret row
              end)
        end
  end.


(* ================================================================= *)
(** ** More of routes_profiles.py *)

Definition me (current_user : users_row) : MeResponse :=
  {| MeResponse_id := users_id current_user;
     MeResponse_email := users_email current_user;
     MeResponse_display_name := users_display_name current_user |}.


Definition get_profile (user_id : string) (current_user : users_row)
  : Db -> result ProfileResponse * Db :=
  session_scope (
    row <- query (select_profile user_id) ;;
    match row with
    | None => raise (HTTPException 404 "Profile not found")
    | Some row => ret (ProfileResponse_of_row row)
    end).

(* ================================================================= *)
(** ** More of routes_location.py *)

(** [POST /location]. *)
Definition location_update (now : datetime) (current_user : users_row)
  : LocationUpdateBody -> Db -> result (dict bool) * Db :=
  with_body validate_LocationUpdateRequest
            (fun req => update_location now req current_user).

(** A parameter of a query string, as its declared type sees it. *)
Inductive param (A : Type) : Type :=
| NoParam
| BadParam
| Param (a : A).

Arguments NoParam {A}.
Arguments BadParam {A}.
Arguments Param {A} a.

(** The [Query] declarations of [nearby_search]: [lat] and [lng] are
    required, [radius_km] defaults to 5.0 and is checked against [gt=0] and
    [le=200] when it is given. *)
Definition nearby_query (lat lng radius_km : param float)
  : result (float * float * float) :=
  lat <-- match lat with
          | Param x => Ok x
          | NoParam | BadParam => Raise RequestValidationError
          end ;;
  lng <-- match lng with
          | Param x => Ok x
          | NoParam | BadParam => Raise RequestValidationError
          end ;;
  radius_km <-- match radius_km with
                | NoParam => Ok 5.0%float
                | Param r =>
                    if ((0 <? r) && (r <=? 200))%float then Ok r
                    else Raise RequestValidationError
                | BadParam => Raise RequestValidationError
                end ;;
  Ok (lat, lng, radius_km).

(** [GET /nearby]. *)
Definition nearby {libm : Libm} (lat lng radius_km : param float)
  (current_user : users_row) : Db -> result NearbyResponse * Db :=
  with_body (fun q => nearby_query (fst (fst q)) (snd (fst q)) (snd q))
            (fun q => nearby_search (fst (fst q)) (snd (fst q)) (snd q)
                                    current_user)
            (lat, lng, radius_km).

(* ================================================================= *)
(** ** More of routes_messaging.py *)

(** The first row of participants joined with users, for the conversation
    and any user but the caller. *)
Definition other_participant (cid me_id : string) (d : Db)
  : option (option string * string) :=
  hd_error
    (flat_map (fun p =>
       map (fun u => (users_display_name u, users_email u))
           (filter (fun u => users_id u =? conversation_participants_user_id p)
                   (users d)))
       (filter (fun p =>
                  (conversation_participants_conversation_id p =? cid)
                  && negb (conversation_participants_user_id p =? me_id))
               (conversation_participants d))).

Definition order_by_created_at_desc : list messages_row -> list messages_row :=
  sort_by messages_created_at Z.gtb.

(** The text of the latest message of the conversation. *)
Definition last_message_text (cid : string) (d : Db) : option string :=
  hd_error (map messages_text
                (firstn 1 (order_by_created_at_desc (messages_of cid d)))).

(** [a or b] on strings that may be [None]. *)
Definition or_else (a : option string) (b : string) : string :=
  match a with
  | Some s => if s =? "" then b else s
  | None => b
  end.

(** The title of a conversation, from the other participant if any. *)
Definition conversation_title (other : option (option string * string))
  : string :=
  or_else (match other with Some (display_name, _) => display_name
                          | None => None end)
          (or_else (match other with Some (_, email) => Some email
                                   | None => None end)
                   "Conversation").

(** One turn of the [for cid in conv_ids] loop. *)
Definition list_conversations_step (me_id : string) (d : Db)
  (items : list ConversationItem) (cid : string) : list ConversationItem :=
  let other := other_participant cid me_id d in
  let last_msg := last_message_text cid d in
  let title := conversation_title other in
  (items ++ [ {| ConversationItem_id := cid;
                 ConversationItem_title := title;
                 ConversationItem_last_message := or_else last_msg "" |} ])%list.

Definition list_conversations (current_user : users_row)
  : Db -> result ConversationsResponse * Db :=
  let me_id := users_id current_user in
  session_scope (
    conv_ids <- query (fun d =>
      map conversation_participants_conversation_id
          (filter (fun p => conversation_participants_user_id p =? me_id)
                  (conversation_participants d))) ;;
    items <- query (fun d =>
      fold_left (list_conversations_step me_id d) conv_ids []) ;;
    ret {| ConversationsResponse_items := items |}).

(** [POST /conversations/{conversation_id}/messages]. *)
Definition conversations_messages_send (msg_id : string) (now : datetime)
  (conversation_id : string) (current_user : users_row)
  : SendMessageBody -> Db -> result MessageItem * Db :=
  with_body validate_SendMessageRequest
            (fun req => send_message msg_id now conversation_id req
                                     current_user).

(* ================================================================= *)
(** ** More of routes_rides.py *)

Definition order_rides_by_created_at_desc : list rides_row -> list rides_row :=
  sort_by rides_created_at Z.gtb.

Definition list_rides (current_user : users_row)
  : Db -> result RidesResponse * Db :=
  session_scope (
    rows <- query (fun d =>
      firstn 200 (order_rides_by_created_at_desc (rides d))) ;;
    ret {| RidesResponse_items := map RideResponse_of_row rows |}).

Definition get_ride (ride_id : string) (current_user : users_row)
  : Db -> result RideResponse * Db :=
  session_scope (
    row <- query (fun d => find (fun r => rides_id r =? ride_id) (rides d)) ;;
    match row with
    | None => raise (HTTPException 404 "Ride not found")
    | Some row => ret (RideResponse_of_row row)
    end).

Definition not_found_profile : exn := HTTPException 404 "Profile not found".

Definition not_found_ride : exn := HTTPException 404 "Ride not found".

Definition sunday_loop : RideCreateRequest :=
  {| RideCreateRequest_title := "Sunday loop";
     RideCreateRequest_date := Some "2025-06-01";
     RideCreateRequest_time := None;
     RideCreateRequest_pace := Some "steady";
     RideCreateRequest_distance_km := Some 62.5%float;
     RideCreateRequest_start := Some "Town hall";
     RideCreateRequest_notes := None |}.

Definition club_rides : Db :=
  set_rides [stored_ride "r1" 9100 "u-alice" sunday_loop;
             stored_ride "r2" 9300 "u-bob" sunday_loop;
             stored_ride "r3" 9200 "u-alice" sunday_loop] club_users.

(** The item [list_conversations] makes of a conversation id. *)
Definition conversation_item (me_id : string) (d : Db) (cid : string)
  : ConversationItem :=
  {| ConversationItem_id := cid;
     ConversationItem_title :=
       conversation_title (other_participant cid me_id d);
     ConversationItem_last_message := or_else (last_message_text cid d) "" |}.

(** The conversation ids of the participant rows of a user, in table
    order. *)
Definition conversations_of (me_id : string) (d : Db) : list string :=
  map conversation_participants_conversation_id
      (filter (fun p => conversation_participants_user_id p =? me_id)
              (conversation_participants d)).

(** Foreign keys of [messages]. *)
Definition fk_messages (d : Db) : bool :=
  forallb (fun m => has_conversation (messages_conversation_id m) d
                    && has_user (messages_sender_id m) d)
          (messages d).

Definition not_authenticated : exn := HTTPException 401 "Not authenticated".

Definition invalid_token : exn := HTTPException 401 "Invalid token".

Definition user_not_found : exn := HTTPException 401 "User not found".

(** A stand-in for [jwt.decode] that reads the tokens of [readable_jwt]. *)
Fixpoint strip_prefix (p s : string) : option string :=
  match p, s with
  | EmptyString, _ => Some s
  | String a p', String b s' =>
      if Ascii.eqb a b then strip_prefix p' s' else None
  | String _ _, EmptyString => None
  end.

Definition readable_jwt_decode : PyJWTDecode :=
  {| jwt_decode := fun token secret _ =>
       match strip_prefix (secret ++ ":") token with
       | Some subject => Ok [("sub", ClaimStr subject)]
       | None => Raise ValueError
       end |}.

Definition location_body (lat lng : float) : LocationUpdateBody :=
  {| LocationUpdateBody_lat := Given lat; LocationUpdateBody_lng := Given lng |}.

Definition text_body (text : string) : SendMessageBody :=
  {| SendMessageBody_text := Given text |}.

(** The remaining constraints of the schema: [unique] on [users.email], the
    primary keys of [conversations], [conversation_participants],
    [messages] and [rides], and the foreign keys of [locations] and
    [rides] (those of [messages] are [fk_messages]). *)
Definition unique_emails (d : Db) : Prop :=
  NoDup (map users_email (users d)).

Definition pk_conversations (d : Db) : Prop :=
  NoDup (map conversations_id (conversations d)).

Definition participant_rows (cid uid : string) (d : Db)
  : list conversation_participants_row :=
  filter (fun p => (conversation_participants_conversation_id p =? cid)
                   && (conversation_participants_user_id p =? uid))
         (conversation_participants d).

Definition pk_conversation_participants (d : Db) : Prop :=
  forall cid uid, (List.length (participant_rows cid uid d) <= 1)%nat.

Definition pk_messages (d : Db) : Prop :=
  NoDup (map messages_id (messages d)).

Definition pk_rides (d : Db) : Prop := NoDup (map rides_id (rides d)).

Definition fk_locations (d : Db) : bool :=
  forallb (fun l => has_user (locations_user_id l) d) (locations d).

Definition fk_rides (d : Db) : bool :=
  forallb (fun r => match rides_creator_id r with
                    | Some uid => has_user uid d
                    | None => true
                    end) (rides d).

(** A store that has every user, or every conversation, of another. *)
Definition keeps_users (d d' : Db) : Prop :=
  forall uid, has_user uid d = true -> has_user uid d' = true.

Definition keeps_conversations (d d' : Db) : Prop :=
  forall cid, has_conversation cid d = true -> has_conversation cid d' = true.

Definition key_constraints (d : Db) : Prop :=
  unique_emails d /\ pk_conversations d /\ pk_conversation_participants d
  /\ pk_messages d /\ pk_rides d
  /\ fk_locations d = true /\ fk_messages d = true /\ fk_rides d = true.

Definition schema_constraints (d : Db) : Prop :=
  integrity d /\ primary_keys d /\ key_constraints d.

(* ================================================================= *)
(** ** main.py: the origins allowed by the CORS middleware *)

(** [str.isspace] on the characters of a [string]. *)
Definition isspace (c : ascii) : bool :=
  let n := nat_of_ascii c in
  ((9 <=? n) && (n <=? 13) || (28 <=? n) && (n <=? 32)
   || (n =? 133) || (n =? 160))%nat.

Fixpoint lstrip (s : string) : string :=
  match s with
  | EmptyString => EmptyString
  | String c s' => if isspace c then lstrip s' else s
  end.

Fixpoint rstrip (s : string) : string :=
  match s with
  | EmptyString => EmptyString
  | String c s' =>
      match rstrip s' with
      | EmptyString => if isspace c then EmptyString else String c EmptyString
      | t => String c t
      end
  end.

(** [s.strip()]. *)
Definition strip (s : string) : string := rstrip (lstrip s).

Definition is_comma (c : ascii) : bool := Ascii.eqb c ","%char.

(** [s.split(",")]. *)
Fixpoint split_comma (s : string) : list string :=
  match s with
  | EmptyString => [EmptyString]
  | String c s' =>
      if is_comma c then EmptyString :: split_comma s'
      else match split_comma s' with
           | piece :: pieces => String c piece :: pieces
           | [] => [String c EmptyString]
           end
  end.

(** [CORS_ALLOW_ORIGINS] is the value of the environment variable, if it is
    set. *)
Definition allow_origins (CORS_ALLOW_ORIGINS : option string) : list string :=
  let cors_origins_raw :=
    strip (match CORS_ALLOW_ORIGINS with Some s => s | None => "" end) in
  if cors_origins_raw =? "" then ["*"]
  else map strip
           (filter (fun o => negb (strip o =? "")) (split_comma cors_origins_raw)).

(** Every character of a string passes a test. *)
Fixpoint all_chars (f : ascii -> bool) (s : string) : bool :=
  match s with
  | EmptyString => true
  | String c s' => f c && all_chars f s'
  end.

(** A string that is empty or starts with a character that is no space. *)
Definition starts_clean (s : string) : bool :=
  match s with
  | EmptyString => true
  | String c _ => negb (isspace c)
  end.

(* ================================================================= *)
(** ** db.py: the engine and the cached sessionmaker *)

(** [sqlalchemy.create_engine], which may raise on a URL it cannot parse. *)
Class SQLAlchemy := {
  Engine : Type;
  create_engine : string -> result Engine }.

(** [sessionmaker(bind=engine, autoflush=False, autocommit=False,
    future=True)]. *)
Record Sessionmaker {sqlalchemy : SQLAlchemy} := {
  bind_engine : Engine;
  autoflush : bool;
  autocommit : bool;
  future : bool }.

(** [DATABASE_URL] is the value of the environment variable, if it is set. *)
Definition get_engine {sqlalchemy : SQLAlchemy}
  (DATABASE_URL : option string) : result Engine :=
  match DATABASE_URL with
  | None => Raise RuntimeError
  | Some database_url =>
      if database_url =? "" then Raise RuntimeError
      else create_engine database_url
  end.

(** [_SessionLocal] is the module's global: the call returns a sessionmaker
    or raises, and leaves the global as its second component. *)
Definition get_sessionmaker {sqlalchemy : SQLAlchemy}
  (DATABASE_URL : option string) (_SessionLocal : option Sessionmaker)
  : result Sessionmaker * option Sessionmaker :=
  match _SessionLocal with
  | Some cached => (Ok cached, Some cached)
  | None =>
      match get_engine DATABASE_URL with
      | Ok engine =>
          let made := {| bind_engine := engine; autoflush := false;
                         autocommit := false; future := true |} in
          (Ok made, Some made)
      | Raise e => (Raise e, None)
      end
  end.

(** The global after a run of calls, one for each state of the
    environment. *)
Definition sessionmaker_after {sqlalchemy : SQLAlchemy}
  (urls : list (option string)) (_SessionLocal : option Sessionmaker)
  : option Sessionmaker :=
  fold_left (fun cache url => snd (get_sessionmaker url cache)) urls
            _SessionLocal.

(** A stand-in for [create_engine]: the engine is the URL. *)
Definition url_engine : SQLAlchemy :=
  {| Engine := string; create_engine := fun url => Ok url |}.

(** A list that continues another. *)
Definition extends {A} (l l' : list A) : Prop :=
  exists more, l' = (l ++ more)%list.

(** What every handler keeps of a store: the messages, rides, conversations
    and participant rows, and the ids, emails and password hashes of the
    users, to which it can only add. *)
Definition history_kept (d d' : Db) : Prop :=
  extends (messages d) (messages d')
  /\ extends (rides d) (rides d')
  /\ extends (conversations d) (conversations d')
  /\ extends (conversation_participants d) (conversation_participants d')
  /\ extends (map users_id (users d)) (map users_id (users d'))
  /\ extends (map users_email (users d)) (map users_email (users d'))
  /\ extends (map users_password_hash (users d))
             (map users_password_hash (users d')).

(** The stores a store can become through the handlers. *)
Inductive evolves (d0 : Db) : Db -> Prop :=
| evolves_refl : evolves d0 d0
| evolves_register (passlib : Passlib) user_id salt t_users t_profiles
    req d :
    evolves d0 d ->
    evolves d0 (snd (register user_id salt t_users t_profiles req d))
| evolves_update_me now req current_user d :
    evolves d0 d -> evolves d0 (snd (update_me now req current_user d))
| evolves_update_location now req current_user d :
    evolves d0 d ->
    evolves d0 (snd (update_location now req current_user d))
| evolves_send_message msg_id now conversation_id req current_user d :
    evolves d0 d ->
    evolves d0 (snd (send_message msg_id now conversation_id req
                                  current_user d))
| evolves_create_ride ride_id now current_user req d :
    evolves d0 d ->
    evolves d0 (snd (create_ride ride_id now current_user req d)).

(* ================================================================= *)
(** ** What fits the columns *)

(** The values [register] writes fit the columns of [users] and
    [profiles]. *)
Definition register_fits {passlib : Passlib} (user_id salt : string)
  (req : RegisterRequest) : bool :=
  fits 36 user_id && fits 320 (RegisterRequest_email req)
  && fits 255 (hash_password salt (RegisterRequest_password req))
  && fits_null 120 (RegisterRequest_display_name req).

(** The values of a profile update fit the columns of [profiles] (and its
    display name the column of [users], which has the same length). *)
Definition profile_request_fits (req : ProfileUpdateRequest) : bool :=
  fits_null 120 (ProfileUpdateRequest_display_name req)
  && fits_null 32 (ProfileUpdateRequest_pace req)
  && fits_null 32 (ProfileUpdateRequest_bike_type req)
  && fits_null 32 (ProfileUpdateRequest_looking_for req)
  && fits_null 120 (ProfileUpdateRequest_home_base req).

(** The values of a ride fit the columns of [rides]. *)
Definition ride_request_fits (req : RideCreateRequest) : bool :=
  fits 200 (RideCreateRequest_title req)
  && fits_null 10 (RideCreateRequest_date req)
  && fits_null 5 (RideCreateRequest_time req)
  && fits_null 32 (RideCreateRequest_pace req)
  && fits_null 200 (RideCreateRequest_start req).

(** A string of [n] times one character. *)
Fixpoint replicate (n : nat) (c : ascii) : string :=
  match n with
  | O => EmptyString
  | S n' => String c (replicate n' c)
  end.

(** A registration whose email has 321 characters. *)
Definition long_email_request : RegisterRequest :=
  {| RegisterRequest_email := replicate 309 "e" ++ "@example.org";
     RegisterRequest_password := "pedals";
     RegisterRequest_display_name := None |}.

(** A conversation id of 37 characters: a UUID and one character more. *)
Definition long_conversation_id : string :=
  "123e4567-e89b-42d3-a456-426614174000x".



(** The binary64 of [PrimFloat] that a [binary64] stands for, and the
    quotient that binary64 division makes of two [int]s which a binary64
    holds exactly ([b] positive), for comparing the two. *)
Definition binary64_to_float (x : binary64) : float :=
  let m := PrimFloat.of_uint63 (Uint63.of_Z (Z.abs (mantissa x))) in
  let v := Z.ldexp m (exponent x) in
  if (mantissa x <? 0)%Z then (- v)%float else v.

Definition float_quotient (a b : Z) : float :=
  let fa := PrimFloat.of_uint63 (Uint63.of_Z (Z.abs a)) in
  let fb := PrimFloat.of_uint63 (Uint63.of_Z b) in
  if (a <? 0)%Z then (- (fa / fb))%float else (fa / fb)%float.

(** Every stored value fits its column, foreign keys included. *)
Definition lengths_kept (d : Db) : Prop :=
  forallb users_fit (users d) = true
  /\ forallb (fun r => profiles_fit r && fits 36 (profiles_user_id r))
             (profiles d) = true
  /\ forallb (fun r => fits 36 (locations_user_id r)) (locations d) = true
  /\ forallb conversations_fit (conversations d) = true
  /\ forallb (fun r =>
                fits 36 (conversation_participants_conversation_id r)
                && fits 36 (conversation_participants_user_id r))
             (conversation_participants d) = true
  /\ forallb (fun r => messages_fit r
                       && fits 36 (messages_conversation_id r)
                       && fits 36 (messages_sender_id r))
             (messages d) = true
  /\ forallb (fun r => rides_fit r && fits_null 36 (rides_creator_id r))
             (rides d) = true.

(* ================================================================= *)
(** * Properties *)

(** ** Reads of a table *)

Lemma find_None_existsb {A} (f : A -> bool) (l : list A) :
  find f l = None <-> existsb f l = false.
Proof.
  induction l as [|x l IH]; simpl; [tauto|].
  destruct (f x); simpl; [split; discriminate | exact IH].
Qed.

Lemma find_Some_existsb {A} (f : A -> bool) (l : list A) (x : A) :
  find f l = Some x -> existsb f l = true.
Proof.
  intros E. destruct (existsb f l) eqn:B; [reflexivity|].
  apply find_None_existsb in B. congruence.
Qed.

Lemma existsb_app_one {A} (f : A -> bool) (l : list A) (x : A) :
  existsb f (l ++ [x]) = existsb f l || f x.
Proof. rewrite existsb_app. simpl. now rewrite orb_false_r. Qed.

Lemma find_app_fresh {A} (f : A -> bool) (l : list A) (x : A) :
  existsb f l = false -> f x = true -> find f (l ++ [x]) = Some x.
Proof.
  induction l as [|y l IH]; simpl; intros B F.
  - now rewrite F.
  - apply orb_false_iff in B as [By B]. rewrite By. now apply IH.
Qed.

Lemma filter_none {A} (f : A -> bool) (l : list A) :
  existsb f l = false -> filter f l = [].
Proof.
  induction l as [|y l IH]; simpl; intros B; [reflexivity|].
  apply orb_false_iff in B as [By B]. rewrite By. now apply IH.
Qed.

Lemma update_where_length_filter {R} (c g : R -> bool) (f : R -> R)
  (rows : list R) :
  (forall r, g (f r) = g r) ->
  List.length (filter g (update_where c f rows))
  = List.length (filter g rows).
Proof.
  intros Hg. induction rows as [|r rows IH]; simpl; [reflexivity|].
  assert (E : g (if c r then f r else r) = g r) by (destruct (c r); auto).
  rewrite E. destruct (g r); simpl; now rewrite IH.
Qed.

Lemma update_where_other {R} (c : R -> bool) (f : R -> R) (rows : list R)
  (r : R) :
  c r = false -> (forall x, c (f x) = c x) ->
  (In r (update_where c f rows) <-> In r rows).
Proof.
  intros Hr Hf. unfold update_where. rewrite in_map_iff. split.
  - intros (x & E & Hx). destruct (c x) eqn:Cx.
    + subst r. rewrite Hf in Hr. congruence.
    + now subst.
  - intros Hin. exists r. now rewrite Hr.
Qed.

(** ** [update_location] *)

Lemma update_location_eq now req cu d :
  update_location now req cu d =
  if existsb (fun l => locations_user_id l =? users_id cu) (locations d)
  then (Ok ok_response,
        set_locations
          (update_where (fun l => locations_user_id l =? users_id cu)
                        (fun l => location_fix (locations_user_id l) req now)
                        (locations d)) d)
  else if has_user (users_id cu) d
       then (Ok ok_response,
             set_locations
               (locations d ++ [location_fix (users_id cu) req now]) d)
       else (Raise SQLAlchemyError, d).
Proof.
  unfold update_location, bind, session_scope, query, ret.
  destruct (find _ (locations d)) as [l|] eqn:F.
  - now rewrite (find_Some_existsb _ _ _ F).
  - apply find_None_existsb in F. rewrite F.
    unfold insert_locations. cbn [locations_user_id]. rewrite F. simpl.
    now destruct (has_user (users_id cu) d).
Qed.

Lemma update_location_pk now req cu d :
  pk_locations d -> pk_locations (snd (update_location now req cu d)).
Proof.
  intros PK uid. rewrite update_location_eq. unfold locations_of.
  destruct (existsb _ (locations d)) eqn:B; simpl.
  - rewrite update_where_length_filter by reflexivity. apply PK.
  - destruct (has_user (users_id cu) d); simpl; [|apply PK].
    rewrite filter_app, length_app. simpl.
    destruct (String.eqb_spec (users_id cu) uid) as [E|N]; simpl.
    + rewrite <- E, (filter_none _ _ B). simpl. lia.
    + specialize (PK uid). unfold locations_of in PK. lia.
Qed.

Lemma update_location_calls_pk calls :
  forall d, pk_locations d -> pk_locations (update_location_calls calls d).
Proof.
  unfold update_location_calls.
  induction calls as [|[[now req] cu] calls IH]; simpl; intros d PK.
  - exact PK.
  - apply IH. now apply update_location_pk.
Qed.

(** C10.  [update_location] touches no table but [locations]; there it
    leaves every row of every other user as it is and where it is; a caller
    that has a row gets it overwritten in place with the new latitude,
    longitude and time, a caller that has none (and is a user) gets one
    appended; and a store in which every user has at most one location row
    stays so through any run of [update_location] calls. *)
Theorem update_location_upserts_own_row :
  forall now req current_user d,
    let me := users_id current_user in
    let d' := snd (update_location now req current_user d) in
    same_but_locations d d'
    /\ (forall l, locations_user_id l <> me ->
                  (In l (locations d') <-> In l (locations d)))
    /\ (locations_of me d <> [] ->
        update_location now req current_user d = (Ok ok_response, d')
        /\ locations d' =
           map (fun l => if locations_user_id l =? me
                         then location_fix me req now else l)
               (locations d))
    /\ (locations_of me d = [] -> has_user me d = true ->
        update_location now req current_user d = (Ok ok_response, d')
        /\ locations d' = (locations d ++ [location_fix me req now])%list)
    /\ (pk_locations d ->
        forall calls, pk_locations (update_location_calls calls d')).
Proof.
  intros now req cu d me d'. subst d'.
  assert (Hex : existsb (fun l => locations_user_id l =? me) (locations d)
                = negb (match locations_of me d with
                        | [] => true
                        | _ => false
                        end)).
  { unfold locations_of. induction (locations d) as [|l ls IH]; simpl; auto.
    destruct (locations_user_id l =? me); simpl; auto. }
  split; [|split; [|split; [|split]]].
  - unfold same_but_locations. rewrite update_location_eq. fold me.
    destruct (existsb _ (locations d)); [|destruct (has_user me d)];
      repeat split; reflexivity.
  - intros l Hl. rewrite update_location_eq. fold me.
    assert (Hb : (locations_user_id l =? me) = false)
      by now apply String.eqb_neq.
    destruct (existsb _ (locations d)); [|destruct (has_user me d)];
      simpl; try tauto.
    + now apply update_where_other.
    + rewrite in_app_iff. simpl. split; [|tauto].
      intros [Hin|[E|[]]]; [exact Hin|]. subst l. now elim Hl.
  - intros Hne. rewrite update_location_eq. fold me. rewrite Hex.
    destruct (locations_of me d) as [|l0 ls0]; [congruence|]. simpl.
    split; [reflexivity|].
    unfold update_where. apply map_ext. intros l.
    destruct (String.eqb_spec (locations_user_id l) me) as [E|];
      [now rewrite E|reflexivity].
  - intros He Hu. rewrite update_location_eq. fold me.
    rewrite Hex, He, Hu. simpl. split; reflexivity.
  - intros PK calls. apply update_location_calls_pk.
    now apply update_location_pk.
Qed.

Lemma update_location_upserts_own_row_witness :
  let d1 := snd (update_location 10 fix_origin alice club_users) in
  update_location 10 fix_origin alice club_users = (Ok ok_response, d1)
  /\ locations d1 = [location_fix "u-alice" fix_origin 10]
  /\ pk_locations
       (update_location_calls
          [(20%Z, fix_north, alice); (30%Z, fix_origin, bob)] d1).
Proof.
  destruct (update_location_upserts_own_row 10 fix_origin alice club_users)
    as (_ & _ & _ & Hins & Hpk).
  destruct Hins as [E L]; [reflexivity | reflexivity |].
  split; [exact E|]. split; [exact L|].
  apply Hpk. intros uid. apply le_0_n.
Defined.

(** ** [register] *)


Lemma has_user_app_one uid u d :
  has_user uid (set_users (users d ++ [u]) d)
  = has_user uid d || (users_id u =? uid).
Proof. unfold has_user. simpl. now rewrite existsb_app_one. Qed.

Section Register.
Context {passlib : Passlib}.

Lemma register_fits_rows user_id salt t_users t_profiles req :
  users_fit (registered_user user_id salt t_users req)
  = register_fits user_id salt req
  /\ (register_fits user_id salt req = true ->
      profiles_fit (default_profile user_id t_profiles req) = true).
Proof.
  split; [reflexivity|].
  unfold register_fits, profiles_fit. cbn [default_profile
    profiles_display_name profiles_pace profiles_bike_type
    profiles_looking_for profiles_home_base].
  intros E. apply andb_true_iff in E as [_ ->]. reflexivity.
Qed.

Lemma register_eq user_id salt t_users t_profiles req d :
  register user_id salt t_users t_profiles req d =
  if email_taken (RegisterRequest_email req) d
  then (Raise (HTTPException 409 "Email already registered"), d)
  else if register_fits user_id salt req
  then if has_user user_id d || has_profile user_id d
       then (Raise SQLAlchemyError, d)
       else (Ok {| MeResponse_id := user_id;
                   MeResponse_email := RegisterRequest_email req;
                   MeResponse_display_name :=
                     RegisterRequest_display_name req |},
             set_profiles
               (profiles d ++ [default_profile user_id t_profiles req])
               (set_users
                  (users d ++ [registered_user user_id salt t_users req])
                  d))
  else (Raise SQLAlchemyError, d).
Proof.
  destruct (register_fits_rows user_id salt t_users t_profiles req)
    as [Eu Ep].
  unfold register, bind, session_scope, query, raise, ret, email_taken.
  destruct (find _ (users d)) as [u|] eqn:F.
  - now rewrite (find_Some_existsb _ _ _ F).
  - apply find_None_existsb in F. rewrite F.
    unfold insert_users.
    change (users_fit _) with (users_fit (registered_user user_id salt
                                                          t_users req)).
    rewrite Eu.
    destruct (register_fits user_id salt req) eqn:W; [|reflexivity].
    cbn [users_id users_email]. rewrite F.
    rewrite orb_false_r.
    destruct (has_user user_id d) eqn:Hu; [reflexivity|].
    unfold insert_profiles.
    change (profiles_fit _)
      with (profiles_fit (default_profile user_id t_profiles req)).
    rewrite (Ep eq_refl).
    cbn [profiles_user_id].
    rewrite has_user_app_one, Hu. cbn [users_id orb].
    rewrite String.eqb_refl. cbn [negb]. rewrite orb_false_r.
    change (existsb _ (profiles (set_users _ d))) with (has_profile user_id d).
    now destruct (has_profile user_id d).
Qed.

End Register.



(** ** Sorting *)

Section SortingFacts.
Context {A K : Type} (key : A -> K) (lt le : K -> K -> bool) (ok : K -> Prop).
Hypothesis lt_le : forall x y, lt x y = true -> le x y = true.
Hypothesis le_total :
  forall x y, ok x -> ok y -> lt x y = false -> le y x = true.
Hypothesis le_trans :
  forall x y z, le x y = true -> le y z = true -> le x z = true.

Lemma insert_sorted_perm x l :
  Permutation (insert_sorted key lt x l) (x :: l).
Proof.
  induction l as [|y l IH]; simpl; [reflexivity|].
  destruct (lt (key x) (key y)); [reflexivity|].
  rewrite IH. apply perm_swap.
Qed.

Lemma sort_by_perm_acc l :
  forall acc,
    Permutation (fold_left (fun acc x => insert_sorted key lt x acc) l acc)
                (acc ++ l).
Proof.
  induction l as [|x l IH]; simpl; intros acc.
  - now rewrite app_nil_r.
  - rewrite IH, insert_sorted_perm. apply Permutation_middle.
Qed.

Lemma sort_by_perm l : Permutation (sort_by key lt l) l.
Proof. unfold sort_by. now rewrite sort_by_perm_acc. Qed.

Lemma insert_sorted_ascending x l :
  ok (key x) -> Forall (fun y => ok (key y)) l ->
  StronglySorted (ascending key le) l ->
  StronglySorted (ascending key le) (insert_sorted key lt x l).
Proof.
  intros Hx. induction l as [|y l IH]; simpl; intros Hok Hs.
  - constructor; constructor.
  - inversion Hok as [|? ? Hy Hl]; subst.
    inversion Hs as [|? ? Hs' Hall]; subst.
    destruct (lt (key x) (key y)) eqn:L.
    + constructor; [exact Hs|]. constructor.
      * now apply lt_le.
      * eapply Forall_impl; [|exact Hall]. intros z Hz.
        unfold ascending in *. eapply le_trans; [|exact Hz]. now apply lt_le.
    + constructor; [now apply IH|].
      eapply Permutation_Forall;
        [symmetry; apply insert_sorted_perm|].
      constructor; [|exact Hall]. now apply le_total.
Qed.

Lemma sort_by_ascending_acc l :
  forall acc,
    Forall (fun y => ok (key y)) acc -> Forall (fun y => ok (key y)) l ->
    StronglySorted (ascending key le) acc ->
    StronglySorted (ascending key le)
      (fold_left (fun acc x => insert_sorted key lt x acc) l acc).
Proof.
  induction l as [|x l IH]; simpl; intros acc Hacc Hl Hs; [exact Hs|].
  inversion Hl as [|? ? Hx Hl']; subst.
  apply IH; [|exact Hl'|now apply insert_sorted_ascending].
  eapply Permutation_Forall; [symmetry; apply insert_sorted_perm|].
  now constructor.
Qed.

Lemma sort_by_ascending l :
  Forall (fun y => ok (key y)) l ->
  StronglySorted (ascending key le) (sort_by key lt l).
Proof.
  intros Hl. apply sort_by_ascending_acc; [constructor|exact Hl|constructor].
Qed.
End SortingFacts.

Lemma order_by_created_at_asc_perm rows :
  Permutation (order_by_created_at_asc rows) rows.
Proof. apply sort_by_perm. Qed.

Lemma order_by_created_at_asc_ascending rows :
  StronglySorted (ascending messages_created_at Z.leb)
                 (order_by_created_at_asc rows).
Proof.
  apply (sort_by_ascending messages_created_at Z.ltb Z.leb (fun _ => True)).
  - intros x y L. apply Z.leb_le. apply Z.ltb_lt in L. lia.
  - intros x y _ _ L. apply Z.leb_le. apply Z.ltb_ge in L. lia.
  - intros x y z L1 L2. apply Z.leb_le. apply Z.leb_le in L1, L2. lia.
  - apply Forall_forall. trivial.
Qed.

(** ** [get_messages] *)

Lemma is_participant_iff cid uid d :
  is_participant cid uid d = true <->
  exists p, In p (conversation_participants d)
            /\ conversation_participants_conversation_id p = cid
            /\ conversation_participants_user_id p = uid.
Proof.
  unfold is_participant. rewrite existsb_exists. split.
  - intros (p & Hp & E). apply andb_true_iff in E as [E1 E2].
    apply String.eqb_eq in E1, E2. eauto.
  - intros (p & Hp & E1 & E2). exists p. split; [exact Hp|].
    apply andb_true_iff. now rewrite E1, E2, !String.eqb_refl.
Qed.

Lemma fk_no_conversation_no_participant cid uid d :
  fk_conversation_participants d = true -> has_conversation cid d = false ->
  is_participant cid uid d = false.
Proof.
  intros FK Hc. destruct (is_participant cid uid d) eqn:P; [|reflexivity].
  apply is_participant_iff in P as (p & Hp & E & _).
  unfold fk_conversation_participants in FK. rewrite forallb_forall in FK.
  specialize (FK p Hp). apply andb_true_iff in FK as [FK _]. congruence.
Qed.

Lemma get_messages_eq cid cu d :
  get_messages cid cu d =
  if is_participant cid (users_id cu) d
  then (Ok {| MessagesResponse_items :=
                map (MessageItem_of_row (users_id cu))
                    (order_by_created_at_asc (messages_of cid d)) |}, d)
  else (Raise forbidden, d).
Proof.
  unfold get_messages, bind, session_scope, _ensure_participant, bind, query,
    raise, ret.
  now destruct (is_participant cid (users_id cu) d).
Qed.

(** C4.  [get_messages] fails with 403 Forbidden exactly when the caller has
    no participant row for the conversation, which is the case whenever the
    conversation does not exist; it fails in no other way and never writes;
    when it succeeds, the items are those of the conversation's messages, in
    ascending order of creation time, and an item is flagged [is_mine]
    exactly when the caller sent the message. *)
Theorem get_messages_forbidden_or_ordered :
  forall conversation_id current_user d,
    let me := users_id current_user in
    let out := get_messages conversation_id current_user d in
    (out = (Raise forbidden, d) <->
     ~ exists p, In p (conversation_participants d)
                 /\ conversation_participants_conversation_id p
                    = conversation_id
                 /\ conversation_participants_user_id p = me)
    /\ (forall e, fst out = Raise e -> e = forbidden)
    /\ snd out = d
    /\ (fk_conversation_participants d = true ->
        has_conversation conversation_id d = false ->
        out = (Raise forbidden, d))
    /\ (is_participant conversation_id me d = true ->
        exists rows,
          fst out = Ok {| MessagesResponse_items :=
                            map (MessageItem_of_row me) rows |}
          /\ Permutation rows (messages_of conversation_id d)
          /\ StronglySorted (ascending messages_created_at Z.leb) rows
          /\ StronglySorted (ascending MessageItem_created_at Z.leb)
               (map (MessageItem_of_row me) rows)
          /\ Forall2 (item_of_message me) rows
               (map (MessageItem_of_row me) rows)).
Proof.
  intros cid cu d me out. subst out. rewrite get_messages_eq. fold me.
  split; [|split; [|split; [|split]]].
  - rewrite <- is_participant_iff.
    destruct (is_participant cid me d); split; intros E;
      try discriminate; try reflexivity; congruence.
  - intros e. destruct (is_participant cid me d); simpl; congruence.
  - now destruct (is_participant cid me d).
  - intros FK Hc.
    now rewrite (fk_no_conversation_no_participant _ _ _ FK Hc).
  - intros P. rewrite P. simpl.
    exists (order_by_created_at_asc (messages_of cid d)).
    split; [reflexivity|].
    split; [apply order_by_created_at_asc_perm|].
    split; [apply order_by_created_at_asc_ascending|].
    split.
    + generalize (order_by_created_at_asc_ascending (messages_of cid d)).
      generalize (order_by_created_at_asc (messages_of cid d)).
      intros rows Hs. induction Hs as [|r rows Hs IH Hall]; simpl;
        constructor; [exact IH|].
      apply Forall_map. exact Hall.
    + generalize (order_by_created_at_asc (messages_of cid d)).
      intros rows. induction rows as [|r rows IH]; simpl; constructor;
        [|exact IH].
      unfold item_of_message. simpl. repeat split; try reflexivity;
        apply String.eqb_eq.
Qed.

Lemma get_messages_forbidden_or_ordered_witness :
  (exists rows,
      fst (get_messages "c1" alice club_chat)
      = Ok {| MessagesResponse_items :=
                map (MessageItem_of_row "u-alice") rows |}
      /\ Permutation rows (messages_of "c1" club_chat)
      /\ StronglySorted (ascending messages_created_at Z.leb) rows
      /\ StronglySorted (ascending MessageItem_created_at Z.leb)
           (map (MessageItem_of_row "u-alice") rows)
      /\ Forall2 (item_of_message "u-alice") rows
           (map (MessageItem_of_row "u-alice") rows))
  /\ get_messages "c2" alice club_chat = (Raise forbidden, club_chat)
  /\ get_messages "c9" alice club_chat = (Raise forbidden, club_chat).
Proof.
  split; [|split].
  - destruct (get_messages_forbidden_or_ordered "c1" alice club_chat)
      as (_ & _ & _ & _ & Hok).
    exact (Hok eq_refl).
  - destruct (get_messages_forbidden_or_ordered "c2" alice club_chat)
      as (Hiff & _).
    apply Hiff. intros (p & Hp & E1 & E2). simpl in Hp.
    destruct Hp as [<-|[<-|[<-|[]]]]; discriminate.
  - destruct (get_messages_forbidden_or_ordered "c9" alice club_chat)
      as (_ & _ & _ & Hfk & _).
    exact (Hfk eq_refl eq_refl).
Defined.

(** ** [send_message] *)

Lemma is_participant_app_one cid uid p d :
  is_participant cid uid
    (set_conversation_participants (conversation_participants d ++ [p]) d)
  = is_participant cid uid d
    || ((conversation_participants_conversation_id p =? cid)
        && (conversation_participants_user_id p =? uid)).
Proof. unfold is_participant. simpl. now rewrite existsb_app_one. Qed.

Lemma has_conversation_app_one cid c d :
  has_conversation cid (set_conversations (conversations d ++ [c]) d)
  = has_conversation cid d || (conversations_id c =? cid).
Proof. unfold has_conversation. simpl. now rewrite existsb_app_one. Qed.

Lemma send_message_eq msg_id now cid req cu d :
  let me := users_id cu in
  send_message msg_id now cid req cu d =
  if has_conversation cid d then
    if is_participant cid me d then
      if fits 36 msg_id then
        if has_message msg_id d || negb (has_user me d)
        then (Raise SQLAlchemyError, d)
        else (Ok (sent_item msg_id now req),
              set_messages (messages d ++ [sent_row msg_id now cid req me]) d)
      else (Raise SQLAlchemyError, d)
    else (Raise forbidden, d)
  else
    if fits 36 cid && fits 36 msg_id then
      if is_participant cid me d || negb (has_user me d)
         || has_message msg_id d
      then (Raise SQLAlchemyError, d)
      else (Ok (sent_item msg_id now req),
            set_messages (messages d ++ [sent_row msg_id now cid req me])
                         (conversation_opened cid now me d))
    else (Raise SQLAlchemyError, d).
Proof.
  intros me. unfold send_message. fold me.
  unfold bind at 1. unfold session_scope.
  unfold bind at 1. unfold bind at 1. unfold query at 1.
  destruct (find _ (conversations d)) as [c|] eqn:F.
  - rewrite (find_Some_existsb _ _ _ F : has_conversation cid d = true).
    unfold ret at 1. unfold bind at 1.
    unfold _ensure_participant, bind, query, raise, ret.
    destruct (is_participant cid me d) eqn:P; cbn [negb]; [|reflexivity].
    unfold insert_messages, messages_fit.
    cbn [messages_id messages_conversation_id messages_sender_id].
    destruct (fits 36 msg_id); [|reflexivity].
    rewrite (find_Some_existsb _ _ _ F : has_conversation cid d = true).
    fold (has_message msg_id d). cbn [negb]. rewrite orb_false_r.
    now destruct (has_message msg_id d || negb (has_user me d)).
  - apply find_None_existsb in F. fold (has_conversation cid d) in F.
    rewrite F.
    unfold bind at 1. unfold insert_conversations at 1.
    unfold conversations_fit. cbn [conversations_id].
    destruct (fits 36 cid); [|reflexivity]. cbn [andb].
    rewrite F.
    unfold insert_conversation_participants.
    cbn [conversation_participants_conversation_id
         conversation_participants_user_id].
    rewrite has_conversation_app_one, F. cbn [conversations_id].
    rewrite String.eqb_refl. cbn [orb negb].
    change (is_participant cid me (set_conversations _ d))
      with (is_participant cid me d).
    change (has_user me (set_conversations _ d)) with (has_user me d).
    rewrite orb_false_r.
    destruct (is_participant cid me d) eqn:P;
      [now destruct (fits 36 msg_id)|].
    destruct (has_user me d) eqn:U; [|now destruct (fits 36 msg_id)].
    cbn [orb negb].
    unfold bind at 1.
    unfold _ensure_participant, bind, query, raise, ret.
    rewrite is_participant_app_one.
    cbn [conversation_participants_conversation_id
         conversation_participants_user_id].
    rewrite !String.eqb_refl, orb_true_r. cbn [negb andb].
    unfold insert_messages, messages_fit.
    cbn [messages_id messages_conversation_id messages_sender_id].
    destruct (fits 36 msg_id); [|reflexivity].
    change (has_conversation cid (set_conversation_participants ?x ?y))
      with (has_conversation cid y).
    rewrite has_conversation_app_one. cbn [conversations_id].
    rewrite String.eqb_refl, orb_true_r.
    change (has_user me (set_conversation_participants _ _))
      with (has_user me d).
    rewrite U. cbn [negb orb]. rewrite !orb_false_r.
    change (existsb _ (messages _)) with (has_message msg_id d).
    now destruct (has_message msg_id d).
Qed.





(** ** [update_me] *)

Lemma values_get req :
  let values := drop_none (model_dump req) in
  dict_get "display_name" values = ProfileUpdateRequest_display_name req
  /\ dict_get "bio" values = ProfileUpdateRequest_bio req
  /\ dict_get "pace" values = ProfileUpdateRequest_pace req
  /\ dict_get "bike_type" values = ProfileUpdateRequest_bike_type req
  /\ dict_get "looking_for" values = ProfileUpdateRequest_looking_for req
  /\ dict_get "home_base" values = ProfileUpdateRequest_home_base req.
Proof.
  destruct req as [[a|] [b|] [c|] [e|] [f|] [g|]]; repeat split; reflexivity.
Qed.

Lemma profiles_values_created me req now :
  profiles_values me (drop_none (model_dump req)) now
  = created_profile me req now.
Proof.
  destruct (values_get req) as (E1 & E2 & E3 & E4 & E5 & E6).
  unfold profiles_values, created_profile.
  now rewrite E1, E2, E3, E4, E5, E6.
Qed.

Lemma profiles_set_values_updated req now p :
  profiles_set_values (drop_none (model_dump req)) now p
  = updated_profile req now p.
Proof.
  destruct (values_get req) as (E1 & E2 & E3 & E4 & E5 & E6).
  unfold profiles_set_values, updated_profile, set_column, supplied.
  now rewrite E1, E2, E3, E4, E5, E6.
Qed.

Lemma find_update_where {R} (c : R -> bool) (f : R -> R) (rows : list R) :
  (forall r, c (f r) = c r) ->
  find c (update_where c f rows) = option_map f (find c rows).
Proof.
  intros Hc. induction rows as [|r rows IH]; simpl; [reflexivity|].
  destruct (c r) eqn:C.
  - now rewrite Hc, C.
  - now rewrite C.
Qed.

Lemma profiles_values_fit me req now :
  profiles_fit (profiles_values me (drop_none (model_dump req)) now)
  = profile_request_fits req.
Proof. now rewrite profiles_values_created. Qed.

Lemma profile_request_fits_display_name req v :
  profile_request_fits req = true ->
  ProfileUpdateRequest_display_name req = Some v -> fits 120 v = true.
Proof.
  unfold profile_request_fits. intros W E. rewrite E in W.
  now repeat (apply andb_true_iff in W; destruct W as [W _]).
Qed.

Lemma update_me_eq now req cu d :
  let me := users_id cu in
  update_me now req cu d =
  if profile_request_fits req then
    match select_profile me d with
    | Some p =>
        (Ok (ProfileResponse_of_row (updated_profile req now p)),
         set_users (users_synced me req (users d))
           (set_profiles
              (map (fun q => if profiles_user_id q =? me
                             then updated_profile req now q else q)
                   (profiles d)) d))
    | None =>
        if has_user me d
        then (Ok (ProfileResponse_of_row (created_profile me req now)),
              set_users (users_synced me req (users d))
                (set_profiles (profiles d ++ [created_profile me req now]) d))
        else (Raise SQLAlchemyError, d)
    end
  else (Raise SQLAlchemyError, d).
Proof.
  intros me. unfold update_me. fold me.
  destruct (values_get req) as (E1 & _).
  unfold session_scope, bind, query, ret, raise.
  unfold update_profiles, insert_profiles, update_users_display_name.
  rewrite profiles_values_fit.
  destruct (profile_request_fits req) eqn:W;
    [|now destruct (select_profile me d)].
  assert (Wv : forall v, ProfileUpdateRequest_display_name req = Some v ->
                         fits 120 v = true)
    by (intros v; now apply profile_request_fits_display_name).
  destruct (select_profile me d) as [p|] eqn:S.
  - rewrite E1. unfold users_synced.
    assert (M : update_where (fun p => profiles_user_id p =? me)
                  (profiles_set_values (drop_none (model_dump req)) now)
                  (profiles d)
                = map (fun q => if profiles_user_id q =? me
                                then updated_profile req now q else q)
                      (profiles d)).
    { unfold update_where. apply map_ext. intros q.
      now rewrite profiles_set_values_updated. }
    rewrite M.
    assert (F : forall d1,
               profiles d1
               = map (fun q => if profiles_user_id q =? me
                               then updated_profile req now q else q)
                     (profiles d) ->
               select_profile me d1 = Some (updated_profile req now p)).
    { intros d1 E. unfold select_profile. rewrite E, <- M.
      rewrite find_update_where by reflexivity.
      unfold select_profile in S. rewrite S. cbn [option_map].
      now rewrite profiles_set_values_updated. }
    destruct (ProfileUpdateRequest_display_name req) as [v|];
      [rewrite (Wv v eq_refl)|]; now rewrite F by reflexivity.
  - cbn [profiles_user_id profiles_values].
    unfold select_profile in S. apply find_None_existsb in S. rewrite S.
    cbn [orb]. destruct (has_user me d) eqn:U; [|reflexivity]. cbn [negb].
    rewrite E1, profiles_values_created. unfold users_synced.
    assert (F : forall d1,
               profiles d1
               = (profiles d ++ [created_profile me req now])%list ->
               select_profile me d1 = Some (created_profile me req now)).
    { intros d1 E. unfold select_profile. rewrite E.
      apply find_app_fresh; [exact S|]. apply String.eqb_refl. }
    destruct (ProfileUpdateRequest_display_name req) as [v|];
      [rewrite (Wv v eq_refl)|]; now rewrite F by reflexivity.
Qed.

Lemma users_synced_absent me req d :
  has_user me d = false -> users_synced me req (users d) = users d.
Proof.
  unfold users_synced, has_user. intros U.
  destruct (ProfileUpdateRequest_display_name req) as [v|]; [|reflexivity].
  induction (users d) as [|u us IH]; simpl in *; [reflexivity|].
  apply orb_false_iff in U as [Hu U]. now rewrite Hu, IH.
Qed.




(** ** [login] *)

Lemma expiry_cases now minutes :
  let t := (now + minutes * 60 * 1000000)%Z in
  (expiry now minutes = Ok t /\ (datetime_min <= t <= datetime_max)%Z)
  \/ expiry now minutes = Raise OverflowError.
Proof.
  intros t. unfold expiry, timedelta_minutes, datetime_add.
  destruct (_ && _); cbn [rbind]; [|now right]. fold t.
  destruct (andb _ _) eqn:R; [|now right]. left. split; [reflexivity|].
  apply andb_true_iff in R as [R1 R2]. split; now apply Z.leb_le.
Qed.


Section Login.
Context {passlib : Passlib} {pyjwt : PyJWT} {builtins : Builtins}.


Lemma login_eq env now req d :
  login env now req d =
  match find (fun u => users_email u =? LoginRequest_email req) (users d) with
  | None => (Raise invalid_credentials, d)
  | Some row =>
      if verify_password (LoginRequest_password req) (users_password_hash row)
      then match create_access_token env (users_id row) None None now with
           | Ok token => (Ok {| TokenResponse_access_token := token;
                                TokenResponse_token_type := "bearer" |}, d)
           | Raise e => (Raise e, d)
           end
      else (Raise invalid_credentials, d)
  end.
Proof.
  unfold login, session_scope, bind, query, raise, ret, lift.
  destruct (find _ (users d)) as [row|]; [|reflexivity].
  destruct (verify_password _ _); [|reflexivity]. cbn [negb].
  now destruct (create_access_token env (users_id row) None None now).
Qed.

End Login.


(** ** Validation and [create_ride] *)

Lemma optional_as_option {A} (m : member A) :
  is_mistyped m = false -> optional m = Ok (as_option m).
Proof. now destruct m. Qed.

Lemma required_not_given {A} (m : member A) :
  is_given m = false -> required m = Raise RequestValidationError.
Proof. now destruct m. Qed.

Lemma with_body_rejected {B Q A} (validate : B -> result Q)
  (handler : Q -> Db -> result A * Db) b d e :
  validate b = Raise e -> with_body validate handler b d = (Raise e, d).
Proof. unfold with_body. now intros ->. Qed.

Lemma with_body_accepted {B Q A} (validate : B -> result Q)
  (handler : Q -> Db -> result A * Db) b d req :
  validate b = Ok req -> with_body validate handler b d = handler req d.
Proof. unfold with_body. now intros ->. Qed.



Lemma create_ride_eq ride_id now cu req d :
  let me := users_id cu in
  create_ride ride_id now cu req d =
  if fits 36 ride_id && ride_request_fits req
  then if has_ride ride_id d || negb (has_user me d)
       then (Raise SQLAlchemyError, d)
       else (Ok (RideResponse_of_row (stored_ride ride_id now me req)),
             set_rides (rides d ++ [stored_ride ride_id now me req]) d)
  else (Raise SQLAlchemyError, d).
Proof.
  intros me. unfold create_ride, session_scope, bind, query, ret, raise.
  unfold insert_rides. fold me.
  fold (stored_ride ride_id now me req).
  assert (W : rides_fit (stored_ride ride_id now me req)
              = fits 36 ride_id && ride_request_fits req)
    by (unfold rides_fit, ride_request_fits; cbn [stored_ride rides_id
          rides_title rides_date rides_time rides_pace rides_start];
        now destruct (fits 36 ride_id)).
  rewrite W. destruct (fits 36 ride_id && ride_request_fits req);
    [|reflexivity].
  cbn [rides_id rides_creator_id stored_ride].
  fold (has_ride ride_id d).
  destruct (has_ride ride_id d) eqn:R; [reflexivity|].
  destruct (has_user me d); [|reflexivity]. cbn [orb negb].
  cbn [rides set_rides].
  fold (stored_ride ride_id now me req).
  rewrite (find_app_fresh _ _ (stored_ride ride_id now me req));
    [reflexivity|exact R|apply String.eqb_refl].
Qed.




(** ** Validation and [register] *)

Lemma validate_RegisterRequest_short b password :
  RegisterBody_password b = Given password ->
  (String.length password < 6)%nat ->
  validate_RegisterRequest b = Raise RequestValidationError.
Proof.
  unfold validate_RegisterRequest. intros P L. rewrite P.
  destruct (RegisterBody_email b); cbn [required rbind]; try reflexivity.
  unfold min_length. apply Nat.leb_gt in L. now rewrite L.
Qed.

Lemma validate_RegisterRequest_no_email b :
  is_given (RegisterBody_email b) = false ->
  validate_RegisterRequest b = Raise RequestValidationError.
Proof.
  unfold validate_RegisterRequest. intros E.
  now rewrite (required_not_given _ E).
Qed.

Lemma validate_RegisterRequest_given b email password :
  RegisterBody_email b = Given email ->
  RegisterBody_password b = Given password ->
  (6 <= String.length password)%nat ->
  is_mistyped (RegisterBody_display_name b) = false ->
  validate_RegisterRequest b = Ok (register_request_of email password b).
Proof.
  unfold validate_RegisterRequest. intros E P L M. rewrite E, P.
  cbn [required rbind]. unfold min_length.
  apply Nat.leb_le in L. rewrite L.
  now rewrite (optional_as_option _ M).
Qed.

Section RegisterBoundary.
Context {passlib : Passlib}.

(** C8, as the code has it.  [POST /auth/register] rejects at validation a
    body whose password has fewer than six characters and a body whose email
    is absent, null or not a string; a rejected body does not reach
    [register] and the store is as before.  The email's content is not
    looked at: any string, the empty one too, with a password of six or more
    characters is handed to [register]. *)
Theorem auth_register_checks_password_length_only :
  forall user_id salt t_users t_profiles b d,
    let out := auth_register user_id salt t_users t_profiles b d in
    (forall password,
        RegisterBody_password b = Given password ->
        (String.length password < 6)%nat ->
        out = (Raise RequestValidationError, d))
    /\ (is_given (RegisterBody_email b) = false ->
        out = (Raise RequestValidationError, d))
    /\ (forall e, validate_RegisterRequest b = Raise e -> out = (Raise e, d))
    /\ (forall email password,
           RegisterBody_email b = Given email ->
           RegisterBody_password b = Given password ->
           (6 <= String.length password)%nat ->
           is_mistyped (RegisterBody_display_name b) = false ->
           out = register user_id salt t_users t_profiles
                          (register_request_of email password b) d).
Proof.
  intros user_id salt t_users t_profiles b d out. subst out.
  unfold auth_register. split; [|split; [|split]].
  - intros password P L. apply with_body_rejected.
    now apply (validate_RegisterRequest_short b password).
  - intros E. apply with_body_rejected.
    now apply validate_RegisterRequest_no_email.
  - intros e E. now apply with_body_rejected.
  - intros email password E P L M. apply with_body_accepted.
    now apply validate_RegisterRequest_given.
Qed.
End RegisterBoundary.

Lemma auth_register_checks_password_length_only_witness :
  auth_register (passlib := plain_passlib) "u-erin" "salt" 6000 6001
                short_password_body club_users
  = (Raise RequestValidationError, club_users)
  /\ auth_register (passlib := plain_passlib) "u-erin" "salt" 6000 6001
                   no_email_body club_users
     = register (passlib := plain_passlib) "u-erin" "salt" 6000 6001
                (register_request_of "" "pedals" no_email_body) club_users.
Proof.
  split.
  - destruct (auth_register_checks_password_length_only
                (passlib := plain_passlib) "u-erin" "salt" 6000 6001
                short_password_body club_users) as (Hshort & _).
    apply (Hshort "12345" eq_refl). apply le_n.
  - destruct (auth_register_checks_password_length_only
                (passlib := plain_passlib) "u-erin" "salt" 6000 6001
                no_email_body club_users) as (_ & _ & _ & Hpass).
    apply (Hpass "" "pedals" eq_refl eq_refl); [apply le_n|reflexivity].
Defined.

(** C8 as stated fails: a body with the empty string as email and a
    six-character password passes validation, [register] runs, and a user
    row and a profile row are written. *)
Lemma auth_register_accepts_empty_email :
  let out := auth_register (passlib := plain_passlib) "u-erin" "salt"
                           6000 6001 no_email_body club_users in
  RegisterBody_email no_email_body = Given ""
  /\ is_ok (fst out) = true
  /\ map users_email (users (snd out))
     = (map users_email (users club_users) ++ [""])%list
  /\ map profiles_user_id (profiles (snd out)) = ["u-erin"].
Proof. repeat split; reflexivity. Qed.

(** ** The order of floats *)

Lemma SFcompare_antisym x y :
  SFcompare y x = option_map CompOpp (SFcompare x y).
Proof.
  destruct x as [sx|sx| |sx mx ex], y as [sy|sy| |sy my ey];
    try destruct sx; try destruct sy; simpl; try reflexivity.
  all: rewrite (Z.compare_antisym ey ex).
  all: change (Pos.compare_cont Eq mx my) with (Pos.compare mx my).
  all: change (Pos.compare_cont Eq my mx) with (Pos.compare my mx).
  all: rewrite (Pos.compare_antisym my mx).
  all: destruct (ey ?= ex)%Z; simpl; try reflexivity.
  all: now destruct (my ?= mx)%positive.
Qed.

Lemma SFleb_trans x y z :
  SFleb x y = true -> SFleb y z = true -> SFleb x z = true.
Proof.
  unfold SFleb.
  destruct x as [sx|sx| |sx mx ex], y as [sy|sy| |sy my ey],
           z as [sz|sz| |sz mz ez];
    try destruct sx; try destruct sy; try destruct sz; simpl;
    try reflexivity; try discriminate; try (intros _ E; exact E);
    try (intros E _; exact E).
  all: change (Pos.compare_cont Eq ?a ?b) with (Pos.compare a b).
  all: destruct (Z.compare_spec ex ey), (Z.compare_spec ey ez),
         (Z.compare_spec ex ez); try lia; try reflexivity; try discriminate;
       subst.
  all: destruct (Pos.compare_spec mx my), (Pos.compare_spec my mz),
         (Pos.compare_spec mx mz); simpl; try lia; try reflexivity;
       try discriminate.
Qed.

Lemma SFcompare_defined x y :
  SFleb x x = true -> SFleb y y = true -> SFcompare x y <> None.
Proof.
  unfold SFleb.
  destruct x as [sx|sx| |sx mx ex], y as [sy|sy| |sy my ey]; simpl;
    discriminate.
Qed.

Lemma SFleb_self x y : SFleb x y = true -> SFleb x x = true.
Proof.
  unfold SFleb.
  destruct x as [sx|sx| |sx mx ex], y as [sy|sy| |sy my ey]; simpl;
    try discriminate; try (now destruct sx).
  all: intros _; rewrite Z.compare_refl.
  all: change (Pos.compare_cont Eq mx mx) with (Pos.compare mx mx).
  all: rewrite Pos.compare_refl; now destruct sx.
Qed.

Lemma float_leb_comparable x y : (x <=? y)%float = true -> comparable x.
Proof. unfold comparable. rewrite !leb_spec. apply SFleb_self. Qed.

Lemma float_ltb_leb x y : (x <? y)%float = true -> (x <=? y)%float = true.
Proof.
  rewrite ltb_spec, leb_spec. unfold SFltb, SFleb.
  now destruct (SFcompare (Prim2SF x) (Prim2SF y)) as [[| |]|].
Qed.

Lemma float_leb_total x y :
  comparable x -> comparable y ->
  (x <? y)%float = false -> (y <=? x)%float = true.
Proof.
  unfold comparable. rewrite ltb_spec, !leb_spec. intros Hx Hy.
  assert (D := SFcompare_defined _ _ Hx Hy).
  unfold SFltb, SFleb. rewrite (SFcompare_antisym (Prim2SF x) (Prim2SF y)).
  destruct (SFcompare (Prim2SF x) (Prim2SF y)) as [[| |]|]; simpl;
    congruence.
Qed.

Lemma float_leb_trans x y z :
  (x <=? y)%float = true -> (y <=? z)%float = true -> (x <=? z)%float = true.
Proof. rewrite !leb_spec. apply SFleb_trans. Qed.

Lemma sort_by_distance_ascending items :
  Forall (fun it => comparable (NearbyUserItem_distance_km it)) items ->
  StronglySorted (ascending NearbyUserItem_distance_km PrimFloat.leb)
    (sort_by NearbyUserItem_distance_km PrimFloat.ltb items).
Proof.
  apply (sort_by_ascending NearbyUserItem_distance_km PrimFloat.ltb
           PrimFloat.leb comparable).
  - exact float_ltb_leb.
  - exact float_leb_total.
  - exact float_leb_trans.
Qed.

(** ** [nearby_search] *)

(** The rows of the select: one for each user other than the caller and
    each of that user's location rows, with the columns of a profile of the
    user, or with NULL in their place when the user has no profile. *)
Lemma nearby_select_rows me d r :
  In r (nearby_select me d) <->
  exists u l,
    In u (users d) /\ users_id u <> me
    /\ In l (locations d) /\ locations_user_id l = users_id u
    /\ ((has_profile (users_id u) d = false /\ r = joined_row u l None None)
        \/ exists p, In p (profiles d) /\ profiles_user_id p = users_id u
                     /\ r = joined_row u l (profiles_pace p)
                                       (profiles_bike_type p)).
Proof.
  unfold nearby_select. rewrite in_flat_map. split.
  - intros (u & Hu & Hr). destruct (users_id u =? me) eqn:Eme;
      cbn [negb] in Hr; [destruct Hr|].
    apply String.eqb_neq in Eme.
    apply in_flat_map in Hr as (l & Hl & Hr).
    apply filter_In in Hl as [Hl El]. apply String.eqb_eq in El.
    exists u, l. repeat (split; [assumption|]).
    destruct (filter _ (profiles d)) as [|p ps] eqn:F.
    + left. destruct Hr as [<-|[]]. split; [|reflexivity].
      unfold has_profile.
      destruct (existsb _ (profiles d)) eqn:B; [|reflexivity].
      apply existsb_exists in B as (p & Hp & Ep).
      assert (Hin : In p (filter (fun p => profiles_user_id p =? users_id u)
                                 (profiles d)))
        by (apply filter_In; now split).
      rewrite F in Hin. destruct Hin.
    + right. apply in_map_iff in Hr as (q & <- & Hq).
      rewrite <- F in Hq. apply filter_In in Hq as [Hq Eq].
      apply String.eqb_eq in Eq. exists q. now repeat split.
  - intros (u & l & Hu & Hne & Hl & El & Hp). exists u. split; [exact Hu|].
    apply String.eqb_neq in Hne. rewrite Hne. cbn [negb].
    apply in_flat_map. exists l. split.
    + apply filter_In. split; [exact Hl|]. now apply String.eqb_eq.
    + destruct Hp as [[Hp ->]|(p & Hp & Ep & ->)].
      * unfold has_profile in Hp. rewrite (filter_none _ _ Hp). now left.
      * assert (Hin : In p (filter (fun p => profiles_user_id p =? users_id u)
                                   (profiles d)))
          by (apply filter_In; split; [exact Hp|now apply String.eqb_eq]).
        destruct (filter _ (profiles d)) as [|q qs]; [destruct Hin|].
        apply in_map_iff. now exists p.
Qed.

Section Nearby.
Context {libm : Libm}.

Lemma nearby_loop_raise lat lng radius_km rows e :
  fold_left (nearby_step lat lng radius_km) rows (Raise e) = Raise e.
Proof. induction rows as [|r rows IH]; simpl; [reflexivity|exact IH]. Qed.

Lemma nearby_loop_ok lat lng radius_km rows :
  forall acc items,
    fold_left (nearby_step lat lng radius_km) rows (Ok acc) = Ok items ->
    items = (acc ++ flat_map (nearby_kept lat lng radius_km) rows)%list.
Proof.
  induction rows as [|r rows IH]; simpl; intros acc items E.
  - injection E as <-. now rewrite app_nil_r.
  - unfold nearby_kept at 1.
    destruct (_haversine_km lat lng (nearby_row_lat r) (nearby_row_lng r))
      as [dist|e]; simpl in E.
    + destruct (dist <=? radius_km)%float.
      * apply IH in E. now rewrite <- app_assoc in E.
      * now apply IH in E.
    + now rewrite nearby_loop_raise in E.
Qed.

Lemma nearby_loop_total lat lng radius_km rows :
  forall acc,
    forallb (distance_defined lat lng) rows = true ->
    fold_left (nearby_step lat lng radius_km) rows (Ok acc)
    = Ok (acc ++ flat_map (nearby_kept lat lng radius_km) rows)%list.
Proof.
  induction rows as [|r rows IH]; simpl; intros acc D.
  - now rewrite app_nil_r.
  - apply andb_true_iff in D as [Dr D]. unfold distance_defined in Dr.
    unfold nearby_kept at 1.
    destruct (_haversine_km lat lng (nearby_row_lat r) (nearby_row_lng r))
      as [dist|e]; [|discriminate]. simpl.
    destruct (dist <=? radius_km)%float; rewrite (IH _ D);
      [now rewrite <- app_assoc|reflexivity].
Qed.

Lemma nearby_kept_item lat lng radius_km r it :
  In it (nearby_kept lat lng radius_km r) <->
  exists dist,
    _haversine_km lat lng (nearby_row_lat r) (nearby_row_lng r) = Ok dist
    /\ (dist <=? radius_km)%float = true
    /\ it = NearbyUserItem_of_row r dist.
Proof.
  unfold nearby_kept.
  destruct (_haversine_km lat lng (nearby_row_lat r) (nearby_row_lng r))
    as [dist|e].
  - destruct (dist <=? radius_km)%float eqn:L; simpl; split.
    + intros [<-|[]]. now exists dist.
    + intros (x & E & _ & ->). injection E as <-. now left.
    + intros [].
    + intros (x & E & Lx & _). injection E as <-. congruence.
  - simpl. split; [intros []|]. intros (x & E & _). discriminate.
Qed.

Lemma nearby_search_eq lat lng radius_km cu d :
  nearby_search lat lng radius_km cu d =
  (match fold_left (nearby_step lat lng radius_km)
                   (nearby_select (users_id cu) d) (Ok []) with
   | Ok items =>
       Ok {| NearbyResponse_items :=
               sort_by NearbyUserItem_distance_km PrimFloat.ltb items |}
   | Raise e => Raise e
   end, d).
Proof.
  unfold nearby_search, bind, session_scope, query, lift.
  now destruct (fold_left _ _ _).
Qed.

(** The distance is the haversine formula on a sphere of radius 6371.0. *)
Lemma _haversine_km_formula lat1 lng1 lat2 lng2 dist :
  _haversine_km lat1 lng1 lat2 lng2 = Ok dist ->
  haversine_formula lat1 lng1 lat2 lng2 dist.
Proof.
  unfold _haversine_km, haversine_formula.
  destruct (math_sin (math_radians (lat2 - lat1) / 2)%float) as [s1|] eqn:E1;
    [|discriminate]; cbn [rbind].
  destruct (float_pow s1 2%float) as [q1|] eqn:E2; [|discriminate];
    cbn [rbind].
  destruct (math_cos (math_radians lat1)) as [c1|] eqn:E3; [|discriminate];
    cbn [rbind].
  destruct (math_cos (math_radians lat2)) as [c2|] eqn:E4; [|discriminate];
    cbn [rbind].
  destruct (math_sin (math_radians (lng2 - lng1) / 2)%float) as [s2|] eqn:E5;
    [|discriminate]; cbn [rbind].
  destruct (float_pow s2 2%float) as [q2|] eqn:E6; [|discriminate];
    cbn [rbind].
  destruct (math_sqrt (q1 + c1 * c2 * q2)%float) as [ra|] eqn:Ea;
    [|discriminate]; cbn [rbind].
  destruct (math_sqrt (1 - (q1 + c1 * c2 * q2))%float) as [rb|] eqn:Eb;
    [|discriminate]; cbn [rbind].
  intros E. injection E as <-.
  exists s1, q1, c1, c2, s2, q2, ra, rb.
  repeat split; try assumption; reflexivity.
Qed.
End Nearby.

(** Under the primary keys, the select has at most one row for a user. *)
Lemma NoDup_key_filter {R} (key : R -> string) (rows : list R) (k : string) :
  NoDup (map key rows) ->
  (List.length (filter (fun r => (key r =? k)%string) rows) <= 1)%nat.
Proof.
  induction rows as [|r rows IH]; simpl; intros ND; [apply le_0_n|].
  inversion ND as [|? ? Hnin ND']; subst.
  destruct (String.eqb_spec (key r) k) as [E|N]; [|now apply IH].
  simpl. rewrite filter_none; [apply le_n|].
  destruct (existsb _ rows) eqn:B; [|reflexivity].
  apply existsb_exists in B as (x & Hx & Ex). apply String.eqb_eq in Ex.
  elim Hnin. rewrite E, <- Ex. now apply in_map.
Qed.

Lemma NoDup_flat_map_keys {R S} (key : R -> string) (key' : S -> string)
  (f : R -> list S) (rows : list R) :
  NoDup (map key rows) ->
  (forall r, (List.length (f r) <= 1)%nat) ->
  (forall r s, In s (f r) -> key' s = key r) ->
  NoDup (map key' (flat_map f rows)).
Proof.
  intros ND Hone Hkey. induction rows as [|r rows IH]; simpl; [constructor|].
  inversion ND as [|? ? Hnin ND']; subst. specialize (IH ND').
  rewrite map_app. specialize (Hone r).
  assert (Hr := Hkey r).
  destruct (f r) as [|s [|s' ss]]; simpl in *; [exact IH| |lia].
  constructor; [|exact IH].
  intros Hin. apply in_map_iff in Hin as (t & Et & Ht).
  apply in_flat_map in Ht as (r' & Hr' & Ht). apply Hkey in Ht.
  elim Hnin. rewrite <- (Hr s (or_introl eq_refl)), <- Et, Ht.
  now apply in_map.
Qed.

Lemma nearby_select_one_row_per_user me d :
  primary_keys d -> NoDup (map nearby_row_user_id (nearby_select me d)).
Proof.
  intros (PU & PP & PL). unfold nearby_select.
  apply (NoDup_flat_map_keys users_id nearby_row_user_id); [exact PU| |].
  - intros u. destruct (negb (users_id u =? me)); [|apply le_0_n].
    assert (HL := PL (users_id u)). unfold locations_of in HL.
    assert (HP := NoDup_key_filter profiles_user_id (profiles d)
                    (users_id u) PP).
    destruct (filter _ (locations d)) as [|l [|l' ls]]; simpl in *;
      [apply le_0_n| |lia].
    rewrite app_nil_r.
    destruct (filter _ (profiles d)) as [|p [|p' ps]]; simpl in *; lia.
  - intros u r Hr. destruct (negb (users_id u =? me)); [|destruct Hr].
    apply in_flat_map in Hr as (l & _ & Hr).
    destruct (filter _ (profiles d)) as [|p ps].
    + now destruct Hr as [<-|[]].
    + apply in_map_iff in Hr as (q & <- & _). reflexivity.
Qed.

Section NearbyResults.
Context {libm : Libm}.

Lemma nearby_search_items lat lng radius_km cu d resp :
  fst (nearby_search lat lng radius_km cu d) = Ok resp ->
  NearbyResponse_items resp
  = sort_by NearbyUserItem_distance_km PrimFloat.ltb
      (flat_map (nearby_kept lat lng radius_km)
                (nearby_select (users_id cu) d)).
Proof.
  rewrite nearby_search_eq. cbn [fst].
  destruct (fold_left _ _ _) as [items|e] eqn:L; [|discriminate].
  intros E. injection E as <-. apply nearby_loop_ok in L. now subst items.
Qed.

Lemma nearby_search_member lat lng radius_km cu d resp it :
  fst (nearby_search lat lng radius_km cu d) = Ok resp ->
  (In it (NearbyResponse_items resp) <->
   exists r dist,
     In r (nearby_select (users_id cu) d)
     /\ _haversine_km lat lng (nearby_row_lat r) (nearby_row_lng r) = Ok dist
     /\ (dist <=? radius_km)%float = true
     /\ it = NearbyUserItem_of_row r dist).
Proof.
  intros E. rewrite (nearby_search_items _ _ _ _ _ _ E).
  assert (P := sort_by_perm NearbyUserItem_distance_km PrimFloat.ltb
                 (flat_map (nearby_kept lat lng radius_km)
                           (nearby_select (users_id cu) d))).
  split.
  - intros Hin. apply (Permutation_in _ P) in Hin.
    apply in_flat_map in Hin as (r & Hr & Hin).
    apply nearby_kept_item in Hin as (dist & Hd & L & ->). now exists r, dist.
  - intros (r & dist & Hr & Hd & L & ->).
    apply (Permutation_in _ (Permutation_sym P)).
    apply in_flat_map. exists r. split; [exact Hr|].
    apply nearby_kept_item. now exists dist.
Qed.

(** C1.  [nearby_search] writes nothing, and returns a result whenever the
    distance of every joined row is defined.  The items it returns are those
    of the users other than the caller that have a location row: each item
    is such a user with a location row of that user, its distance is the
    haversine distance (sphere of radius 6371.0) from the query point to
    that location and is at most [radius_km]; each such user whose distance
    is at most [radius_km] has an item, and under the primary keys only one;
    and the items are in ascending order of distance. *)
Theorem nearby_search_filters_and_sorts :
  forall lat lng radius_km current_user d,
    let me := users_id current_user in
    let out := nearby_search lat lng radius_km current_user d in
    snd out = d
    /\ (forallb (distance_defined lat lng) (nearby_select me d) = true ->
        is_ok (fst out) = true)
    /\ (forall resp, fst out = Ok resp ->
        let items := NearbyResponse_items resp in
        Permutation items
          (flat_map (nearby_kept lat lng radius_km) (nearby_select me d))
        /\ (forall it, In it items ->
              exists u l,
                In u (users d) /\ users_id u <> me
                /\ In l (locations d) /\ locations_user_id l = users_id u
                /\ NearbyUserItem_user_id it = users_id u
                /\ NearbyUserItem_email it = Some (users_email u)
                /\ NearbyUserItem_display_name it = users_display_name u
                /\ _haversine_km lat lng (locations_lat l) (locations_lng l)
                   = Ok (NearbyUserItem_distance_km it)
                /\ haversine_formula lat lng (locations_lat l)
                     (locations_lng l) (NearbyUserItem_distance_km it)
                /\ (NearbyUserItem_distance_km it <=? radius_km)%float = true)
        /\ (forall u l dist,
              In u (users d) -> users_id u <> me ->
              In l (locations d) -> locations_user_id l = users_id u ->
              _haversine_km lat lng (locations_lat l) (locations_lng l)
              = Ok dist ->
              (dist <=? radius_km)%float = true ->
              exists it, In it items
                         /\ NearbyUserItem_user_id it = users_id u
                         /\ NearbyUserItem_distance_km it = dist)
        /\ StronglySorted
             (ascending NearbyUserItem_distance_km PrimFloat.leb) items
        /\ (primary_keys d -> NoDup (map NearbyUserItem_user_id items))).
Proof.
  intros lat lng radius_km cu d me out. subst out.
  split; [|split].
  - now rewrite nearby_search_eq.
  - intros D. rewrite nearby_search_eq. fold me.
    now rewrite (nearby_loop_total _ _ _ _ [] D).
  - intros resp E items.
    assert (M := fun it => nearby_search_member _ _ _ _ _ _ it E).
    fold me in M. fold items in M.
    split; [|split; [|split; [|split]]].
    + unfold items. rewrite (nearby_search_items _ _ _ _ _ _ E).
      apply sort_by_perm.
    + intros it Hin. apply M in Hin as (r & dist & Hr & Hd & L & ->).
      apply nearby_select_rows in Hr as (u & l & Hu & Hne & Hl & El & Hp).
      exists u, l.
      assert (Er : nearby_row_user_id r = users_id u
                   /\ nearby_row_email r = users_email u
                   /\ nearby_row_display_name r = users_display_name u
                   /\ nearby_row_lat r = locations_lat l
                   /\ nearby_row_lng r = locations_lng l).
      { destruct Hp as [[_ ->]|(p & _ & _ & ->)]; now repeat split. }
      destruct Er as (E1 & E2 & E3 & E4 & E5). rewrite E4, E5 in Hd.
      cbn [NearbyUserItem_of_row NearbyUserItem_user_id NearbyUserItem_email
           NearbyUserItem_display_name NearbyUserItem_distance_km].
      rewrite E1, E2, E3. repeat (split; [assumption || reflexivity|]).
      split; [now apply _haversine_km_formula|exact L].
    + intros u l dist Hu Hne Hl El Hd L.
      assert (Hr : exists pace bike_type,
                 In (joined_row u l pace bike_type) (nearby_select me d)).
      { destruct (has_profile (users_id u) d) eqn:P.
        - apply existsb_exists in P as (p & Hp & Ep).
          apply String.eqb_eq in Ep.
          exists (profiles_pace p), (profiles_bike_type p).
          apply nearby_select_rows. exists u, l.
          repeat (split; [assumption|]). right. now exists p.
        - exists None, None. apply nearby_select_rows. exists u, l.
          repeat (split; [assumption|]). now left. }
      destruct Hr as (pace & bike_type & Hr).
      exists (NearbyUserItem_of_row (joined_row u l pace bike_type) dist).
      split; [|split; reflexivity].
      apply M. now exists (joined_row u l pace bike_type), dist.
    + unfold items. rewrite (nearby_search_items _ _ _ _ _ _ E).
      apply sort_by_distance_ascending. apply Forall_forall. intros it Hin.
      apply in_flat_map in Hin as (r & _ & Hin).
      apply nearby_kept_item in Hin as (dist & _ & L & ->).
      now apply (float_leb_comparable _ radius_km).
    + intros PK. unfold items. rewrite (nearby_search_items _ _ _ _ _ _ E).
      eapply Permutation_NoDup;
        [apply Permutation_map; symmetry; apply sort_by_perm|].
      apply (NoDup_flat_map_keys nearby_row_user_id NearbyUserItem_user_id).
      * now apply nearby_select_one_row_per_user.
      * intros r. unfold nearby_kept.
        destruct (_haversine_km _ _ _ _) as [dist|]; [|apply le_0_n].
        destruct (dist <=? radius_km)%float; [apply le_n|apply le_0_n].
      * intros r it Hin. now apply nearby_kept_item in Hin as (? & _ & _ & ->).
Qed.

(** C9.  A user other than the caller who has a location row within the
    radius and no profile row has an item in the answer of [nearby_search],
    with [pace] and [bike_type] null. *)
Theorem nearby_search_keeps_users_without_profile :
  forall lat lng radius_km current_user d u l dist resp,
    In u (users d) -> users_id u <> users_id current_user ->
    In l (locations d) -> locations_user_id l = users_id u ->
    has_profile (users_id u) d = false ->
    _haversine_km lat lng (locations_lat l) (locations_lng l) = Ok dist ->
    (dist <=? radius_km)%float = true ->
    fst (nearby_search lat lng radius_km current_user d) = Ok resp ->
    In {| NearbyUserItem_user_id := users_id u;
          NearbyUserItem_display_name := users_display_name u;
          NearbyUserItem_email := Some (users_email u);
          NearbyUserItem_pace := None;
          NearbyUserItem_bike_type := None;
          NearbyUserItem_distance_km := dist |}
       (NearbyResponse_items resp).
Proof.
  intros lat lng radius_km cu d u l dist resp Hu Hne Hl El P Hd L E.
  apply (nearby_search_member _ _ _ _ _ _ _ E).
  exists (joined_row u l None None), dist.
  split; [|now repeat split].
  apply nearby_select_rows. exists u, l.
  repeat (split; [assumption|]). now left.
Qed.
End NearbyResults.

Lemma nearby_search_filters_and_sorts_witness :
  StronglySorted (ascending NearbyUserItem_distance_km PrimFloat.leb)
    (NearbyResponse_items club_nearby)
  /\ Permutation (NearbyResponse_items club_nearby)
       (flat_map (nearby_kept (libm := series_libm) 0 0 5)
                 (nearby_select "u-alice" club_riders))
  /\ map NearbyUserItem_user_id (NearbyResponse_items club_nearby)
     = ["u-carol"; "u-bob"].
Proof.
  destruct (nearby_search_filters_and_sorts (libm := series_libm)
              0 0 5 alice club_riders) as (_ & _ & Hresp).
  assert (E : fst (nearby_search (libm := series_libm) 0 0 5 alice club_riders)
              = Ok club_nearby) by (vm_compute; reflexivity).
  destruct (Hresp club_nearby E) as (P & _ & _ & S & _).
  split; [exact S|]. split; [exact P|reflexivity].
Defined.

Lemma nearby_search_keeps_users_without_profile_witness :
  In {| NearbyUserItem_user_id := "u-carol";
        NearbyUserItem_display_name := None;
        NearbyUserItem_email := Some "carol@example.org";
        NearbyUserItem_pace := None;
        NearbyUserItem_bike_type := None;
        NearbyUserItem_distance_km := carol_distance |}
     (NearbyResponse_items club_nearby).
Proof.
  apply (nearby_search_keeps_users_without_profile (libm := series_libm)
           0 0 5 alice club_riders carol carol_fix carol_distance club_nearby).
  - simpl. tauto.
  - discriminate.
  - simpl. tauto.
  - reflexivity.
  - reflexivity.
  - vm_compute. reflexivity.
  - vm_compute. reflexivity.
  - vm_compute. reflexivity.
Defined.

(** ** Integrity of reachable stores *)

Lemma has_user_more uid us d :
  has_user uid d = true -> has_user uid (set_users (users d ++ us) d) = true.
Proof.
  unfold has_user. simpl. intros U. rewrite existsb_app, U. reflexivity.
Qed.

Lemma has_user_synced uid me req d d' :
  users d' = users_synced me req (users d) ->
  has_user uid d' = has_user uid d.
Proof.
  unfold has_user, users_synced. intros ->.
  destruct (ProfileUpdateRequest_display_name req) as [v|]; [|reflexivity].
  induction (users d) as [|u us IH]; simpl; [reflexivity|].
  rewrite IH. now destruct (users_id u =? me).
Qed.

Lemma forallb_impl {A} (f g : A -> bool) (l : list A) :
  (forall x, f x = true -> g x = true) ->
  forallb f l = true -> forallb g l = true.
Proof.
  intros Hfg. rewrite !forallb_forall. intros Hf x Hx. auto.
Qed.

Lemma register_integrity {passlib : Passlib}
  user_id salt t_users t_profiles req d :
  integrity d ->
  integrity (snd (register user_id salt t_users t_profiles req d)).
Proof.
  intros (FP & FC & PK). rewrite register_eq.
  destruct (email_taken (RegisterRequest_email req) d); [now repeat split|].
  destruct (register_fits user_id salt req); [|now repeat split].
  destruct (has_user user_id d || has_profile user_id d);
    [now repeat split|].
  cbn [snd]. repeat split.
  - unfold fk_profiles. cbn [profiles set_profiles set_users].
    rewrite forallb_app. apply andb_true_iff. split.
    + revert FP. unfold fk_profiles. apply forallb_impl. intros p Hp.
      change (has_user (profiles_user_id p) (set_profiles ?x ?y))
        with (has_user (profiles_user_id p) y).
      now apply has_user_more.
    + cbn [forallb profiles_user_id default_profile].
      change (has_user user_id (set_profiles ?x ?y))
        with (has_user user_id y).
      rewrite has_user_app_one. cbn [users_id registered_user].
      now rewrite String.eqb_refl, orb_true_r.
  - revert FC. unfold fk_conversation_participants.
    cbn [conversation_participants set_profiles set_users].
    apply forallb_impl. intros p Hp.
    apply andb_true_iff in Hp as [Hc Hu]. apply andb_true_iff. split.
    + exact Hc.
    + change (has_user ?u (set_profiles ?x ?y)) with (has_user u y).
      now apply has_user_more.
  - exact PK.
Qed.

Lemma update_me_store now req cu d :
  let me := users_id cu in
  let d' := snd (update_me now req cu d) in
  same_but_users_profiles d d'
  /\ (exists req', users d' = users_synced me req' (users d))
  /\ (forall q, In q (profiles d') ->
                has_user (profiles_user_id q) d = true
                \/ exists q0, In q0 (profiles d)
                              /\ profiles_user_id q0 = profiles_user_id q).
Proof.
  intros me d'. subst d'. rewrite update_me_eq. fold me.
  destruct (profile_request_fits req);
    [destruct (select_profile me d) as [p|];
     [|destruct (has_user me d) eqn:U]|]; cbn [snd].
  - split; [now repeat split|]. split; [now exists req|].
    cbn [profiles set_users set_profiles]. intros q Hq.
    apply in_map_iff in Hq as (q0 & E & Hq0). right. exists q0.
    split; [exact Hq0|]. subst q. now destruct (profiles_user_id q0 =? me).
  - split; [now repeat split|]. split; [now exists req|].
    cbn [profiles set_users set_profiles]. intros q Hq.
    apply in_app_or in Hq as [Hq|[<-|[]]]; [right; now exists q|].
    left. exact U.
  - split; [now repeat split|]. split.
    + exists req. symmetry. now apply users_synced_absent.
    + intros q Hq. right. now exists q.
  - split; [now repeat split|]. split.
    + now exists only_bio.
    + intros q Hq. right. now exists q.
Qed.

Lemma update_me_integrity now req cu d :
  integrity d -> integrity (snd (update_me now req cu d)).
Proof.
  intros (FP & FC & PK).
  destruct (update_me_store now req cu d)
    as (Hsame & (req' & Husers) & Hprofiles).
  destruct Hsame as (Hl & Hc & Hp & _).
  assert (HU : forall uid,
             has_user uid (snd (update_me now req cu d)) = has_user uid d)
    by (intros uid; now apply (has_user_synced uid (users_id cu) req')).
  unfold fk_profiles in FP. rewrite forallb_forall in FP.
  repeat split.
  - unfold fk_profiles. apply forallb_forall. intros q Hq. rewrite HU.
    apply Hprofiles in Hq as [Hq|(q0 & Hq0 & E)]; [exact Hq|].
    rewrite <- E. now apply FP.
  - unfold fk_conversation_participants. rewrite Hp.
    revert FC. unfold fk_conversation_participants.
    apply forallb_impl. intros p Hp'. rewrite HU.
    unfold has_conversation in *. now rewrite Hc.
  - intros uid. unfold locations_of. rewrite Hl. apply PK.
Qed.

Lemma update_location_integrity now req cu d :
  integrity d -> integrity (snd (update_location now req cu d)).
Proof.
  intros (FP & FC & PK). split; [|split].
  - rewrite update_location_eq.
    destruct (existsb _ (locations d)); [|destruct (has_user (users_id cu) d)];
      exact FP.
  - rewrite update_location_eq.
    destruct (existsb _ (locations d)); [|destruct (has_user (users_id cu) d)];
      exact FC.
  - now apply update_location_pk.
Qed.

Lemma send_message_integrity msg_id now cid req cu d :
  integrity d -> integrity (snd (send_message msg_id now cid req cu d)).
Proof.
  intros (FP & FC & PK). rewrite send_message_eq.
  destruct (has_conversation cid d) eqn:Hc.
  - destruct (is_participant cid (users_id cu) d); [|now repeat split].
    destruct (fits 36 msg_id); [|now repeat split].
    destruct (has_message msg_id d || negb (has_user (users_id cu) d));
      now repeat split.
  - destruct (fits 36 cid && fits 36 msg_id); [|now repeat split].
    destruct (is_participant cid (users_id cu) d); [now repeat split|].
    destruct (has_user (users_id cu) d) eqn:U; [|now repeat split].
    destruct (has_message msg_id d); [now repeat split|].
    cbn [orb negb snd]. split; [exact FP|]. split; [|exact PK].
    unfold fk_conversation_participants, conversation_opened.
    cbn [conversation_participants set_messages
         set_conversation_participants].
    assert (Hmore : forall c,
               has_conversation c d = true ->
               has_conversation c
                 (set_conversations
                    (conversations d
                     ++ [ {| conversations_id := cid;
                             conversations_created_at := now |} ]) d) = true).
    { intros c Hd. rewrite has_conversation_app_one. now rewrite Hd. }
    rewrite forallb_app. apply andb_true_iff. split.
    + revert FC. unfold fk_conversation_participants.
      apply forallb_impl. intros p Hp.
      apply andb_true_iff in Hp as [Hpc Hpu]. apply andb_true_iff. split.
      * change (has_conversation ?c (set_messages ?x ?y))
          with (has_conversation c y).
        change (has_conversation ?c (set_conversation_participants ?x ?y))
          with (has_conversation c y).
        now apply Hmore.
      * exact Hpu.
    + cbn [forallb conversation_participants_conversation_id
           conversation_participants_user_id].
      change (has_conversation ?c (set_messages ?x ?y))
        with (has_conversation c y).
      change (has_conversation ?c (set_conversation_participants ?x ?y))
        with (has_conversation c y).
      rewrite has_conversation_app_one. cbn [conversations_id].
      rewrite String.eqb_refl, orb_true_r.
      change (has_user ?u (set_messages ?x ?y)) with (has_user u d).
      now rewrite U.
Qed.

Lemma create_ride_integrity ride_id now cu req d :
  integrity d -> integrity (snd (create_ride ride_id now cu req d)).
Proof.
  intros I. rewrite create_ride_eq.
  destruct (fits 36 ride_id && ride_request_fits req); [|exact I].
  now destruct (has_ride ride_id d || negb (has_user (users_id cu) d)).
Qed.

(** Every store the handlers produce from the empty one has the integrity
    the theorems above assume. *)
Lemma reachable_integrity d : reachable d -> integrity d.
Proof.
  induction 1.
  - repeat split. intros uid. apply le_0_n.
  - now apply register_integrity.
  - now apply update_me_integrity.
  - now apply update_location_integrity.
  - now apply send_message_integrity.
  - now apply create_ride_integrity.
Qed.

Lemma NoDup_app_fresh {R} (key : R -> string) (rows : list R) (r : R) :
  NoDup (map key rows) ->
  existsb (fun x => key x =? key r) rows = false ->
  NoDup (map key (rows ++ [r])).
Proof.
  intros ND B. rewrite map_app. simpl.
  apply NoDup_app; [exact ND|repeat constructor; intros []|].
  intros k Hk [<-|[]]. apply in_map_iff in Hk as (x & E & Hx).
  assert (T : existsb (fun x => key x =? key r) rows = true).
  { apply existsb_exists. exists x. split; [exact Hx|].
    now apply String.eqb_eq. }
  congruence.
Qed.

Lemma register_primary_keys {passlib : Passlib}
  user_id salt t_users t_profiles req d :
  primary_keys d ->
  primary_keys (snd (register user_id salt t_users t_profiles req d)).
Proof.
  intros (PU & PP & PL). rewrite register_eq.
  destruct (email_taken (RegisterRequest_email req) d); [now repeat split|].
  destruct (register_fits user_id salt req); [|now repeat split].
  destruct (has_user user_id d) eqn:U; [now repeat split|].
  destruct (has_profile user_id d) eqn:P; [now repeat split|].
  cbn [orb snd]. repeat split.
  - unfold pk_users. cbn [users set_profiles set_users].
    now apply NoDup_app_fresh.
  - unfold pk_profiles. cbn [profiles set_profiles set_users].
    now apply NoDup_app_fresh.
  - exact PL.
Qed.

Lemma update_me_primary_keys now req cu d :
  primary_keys d -> primary_keys (snd (update_me now req cu d)).
Proof.
  intros (PU & PP & PL). rewrite update_me_eq.
  assert (HU : map users_id (users_synced (users_id cu) req (users d))
               = map users_id (users d)).
  { unfold users_synced.
    destruct (ProfileUpdateRequest_display_name req) as [v|]; [|reflexivity].
    rewrite map_map. apply map_ext. intros u.
    now destruct (users_id u =? users_id cu). }
  destruct (profile_request_fits req); [|now repeat split].
  destruct (select_profile (users_id cu) d) as [p|] eqn:S;
    [|destruct (has_user (users_id cu) d)]; cbn [snd].
  - repeat split.
    + unfold pk_users. cbn [users set_users]. now rewrite HU.
    + unfold pk_profiles. cbn [profiles set_users set_profiles].
      rewrite map_map.
      replace (map _ (profiles d)) with (map profiles_user_id (profiles d));
        [exact PP|].
      apply map_ext. intros q.
      now destruct (profiles_user_id q =? users_id cu).
    + exact PL.
  - repeat split.
    + unfold pk_users. cbn [users set_users]. now rewrite HU.
    + unfold pk_profiles. cbn [profiles set_users set_profiles].
      apply NoDup_app_fresh; [exact PP|].
      now apply find_None_existsb.
    + exact PL.
  - now repeat split.
Qed.

Lemma send_message_primary_keys msg_id now cid req cu d :
  primary_keys d -> primary_keys (snd (send_message msg_id now cid req cu d)).
Proof.
  intros PK. rewrite send_message_eq.
  destruct (has_conversation cid d).
  - destruct (is_participant cid (users_id cu) d); [|exact PK].
    destruct (fits 36 msg_id); [|exact PK].
    now destruct (has_message msg_id d || negb (has_user (users_id cu) d)).
  - destruct (fits 36 cid && fits 36 msg_id); [|exact PK].
    now destruct (is_participant cid (users_id cu) d
                  || negb (has_user (users_id cu) d) || has_message msg_id d).
Qed.

Lemma create_ride_primary_keys ride_id now cu req d :
  primary_keys d -> primary_keys (snd (create_ride ride_id now cu req d)).
Proof.
  intros PK. rewrite create_ride_eq.
  destruct (fits 36 ride_id && ride_request_fits req); [|exact PK].
  now destruct (has_ride ride_id d || negb (has_user (users_id cu) d)).
Qed.

Lemma update_location_primary_keys now req cu d :
  primary_keys d -> primary_keys (snd (update_location now req cu d)).
Proof.
  intros (PU & PP & PL). split; [|split].
  - rewrite update_location_eq.
    destruct (existsb _ (locations d)); [|destruct (has_user (users_id cu) d)];
      exact PU.
  - rewrite update_location_eq.
    destruct (existsb _ (locations d)); [|destruct (has_user (users_id cu) d)];
      exact PP.
  - now apply update_location_pk.
Qed.

(** Every store the handlers produce from the empty one has its primary
    keys. *)
Lemma reachable_primary_keys d : reachable d -> primary_keys d.
Proof.
  induction 1.
  - split; [constructor|split; [constructor|]]. intros uid. apply le_0_n.
  - now apply register_primary_keys.
  - now apply update_me_primary_keys.
  - now apply update_location_primary_keys.
  - now apply send_message_primary_keys.
  - now apply create_ride_primary_keys.
Qed.

(* ================================================================= *)
(** * Further properties *)

(** ** Profiles: what is written is what is read *)

Lemma get_profile_eq user_id cu d :
  get_profile user_id cu d =
  match select_profile user_id d with
  | Some p => (Ok (ProfileResponse_of_row p), d)
  | None => (Raise not_found_profile, d)
  end.
Proof.
  unfold get_profile, session_scope, bind, query, raise, ret.
  now destruct (select_profile user_id d).
Qed.



(** X2.  [get_profile] answers 404 exactly for a user id that has no
    profile row, never writes, and does not depend on who asks; and what
    [update_me] returned to a caller is what any later [get_profile] of that
    caller returns. *)
Theorem get_profile_reads_what_update_me_wrote :
  forall now req current_user d viewer user_id,
    let out := update_me now req current_user d in
    (fst (get_profile user_id viewer d) = Raise not_found_profile
     <-> has_profile user_id d = false)
    /\ snd (get_profile user_id viewer d) = d
    /\ get_profile user_id viewer d = get_profile user_id current_user d
    /\ (forall resp,
          fst out = Ok resp ->
          get_profile (users_id current_user) viewer (snd out)
          = (Ok resp, snd out)).
Proof.
  intros now req cu d viewer user_id out. subst out.
  rewrite !get_profile_eq. split; [|split; [|split]].
  - unfold select_profile, has_profile.
    rewrite <- find_None_existsb.
    destruct (find _ (profiles d)); cbn [fst]; split; congruence.
  - now destruct (select_profile user_id d).
  - reflexivity.
  - intros resp. rewrite update_me_eq.
    destruct (profile_request_fits req); [|discriminate].
    destruct (select_profile (users_id cu) d) as [p|] eqn:S.
    + cbn [fst snd]. intros E. injection E as <-.
      unfold select_profile in *.
      cbn [profiles set_users set_profiles].
      replace (find _ (map _ (profiles d)))
        with (option_map (updated_profile req now)
                (find (fun q => profiles_user_id q =? users_id cu)
                      (profiles d))).
      * now rewrite S.
      * symmetry.
        apply (find_update_where
                 (fun q => profiles_user_id q =? users_id cu)
                 (updated_profile req now)). reflexivity.
    + destruct (has_user (users_id cu) d); [|discriminate].
      cbn [fst snd]. intros E. injection E as <-.
      unfold select_profile in *.
      cbn [profiles set_users set_profiles].
      rewrite (find_app_fresh _ _ (created_profile (users_id cu) req now));
        [reflexivity|now apply find_None_existsb|apply String.eqb_refl].
Qed.

Lemma get_profile_reads_what_update_me_wrote_witness :
  get_profile "u-carol" bob
    (snd (update_me 9000 rename_carol carol club_profiles))
  = (Ok (ProfileResponse_of_row (created_profile "u-carol" rename_carol 9000)),
     snd (update_me 9000 rename_carol carol club_profiles)).
Proof.
  destruct (get_profile_reads_what_update_me_wrote 9000 rename_carol carol
              club_profiles bob "u-carol") as (_ & _ & _ & Hread).
  exact (Hread _ eq_refl).
Defined.

(** ** Rides: lookup and listing *)

Lemma find_app_found {A} (f : A -> bool) (l l' : list A) (x : A) :
  find f l = Some x -> find f (l ++ l') = Some x.
Proof.
  induction l as [|y l IH]; simpl; [discriminate|].
  now destruct (f y).
Qed.

Lemma get_ride_eq ride_id cu d :
  get_ride ride_id cu d =
  match find (fun r => rides_id r =? ride_id) (rides d) with
  | Some r => (Ok (RideResponse_of_row r), d)
  | None => (Raise not_found_ride, d)
  end.
Proof.
  unfold get_ride, session_scope, bind, query, raise, ret.
  now destruct (find _ (rides d)).
Qed.

(** X3.  [get_ride] answers 404 exactly for an id no ride has and never
    writes.  After a [create_ride] that succeeded, [get_ride] of the new id
    returns, to any caller, the response [create_ride] returned, and every
    ride that could be read before reads the same. *)
Theorem get_ride_reads_what_create_ride_wrote :
  forall ride_id now current_user req d viewer rid,
    (fst (get_ride rid viewer d) = Raise not_found_ride
     <-> has_ride rid d = false)
    /\ snd (get_ride rid viewer d) = d
    /\ (forall resp d',
          create_ride ride_id now current_user req d = (Ok resp, d') ->
          get_ride ride_id viewer d' = (Ok resp, d')
          /\ (forall r, fst (get_ride rid viewer d) = Ok r ->
                        fst (get_ride rid viewer d') = Ok r)).
Proof.
  intros ride_id now cu req d viewer rid. rewrite !get_ride_eq.
  split; [|split].
  - unfold has_ride. rewrite <- find_None_existsb.
    destruct (find _ (rides d)); cbn [fst]; split; congruence.
  - now destruct (find _ (rides d)).
  - intros resp d'. rewrite create_ride_eq.
    destruct (fits 36 ride_id && ride_request_fits req); [|discriminate].
    destruct (has_ride ride_id d) eqn:R; [discriminate|].
    destruct (has_user (users_id cu) d); [|discriminate]. cbn [orb negb].
    intros E. injection E as <- <-. rewrite !get_ride_eq.
    cbn [rides set_rides]. split.
    + rewrite (find_app_fresh _ _ (stored_ride ride_id now (users_id cu) req));
        [reflexivity|exact R|apply String.eqb_refl].
    + intros r.
      destruct (find (fun x => rides_id x =? rid) (rides d)) as [x|] eqn:F;
        [|discriminate].
      now rewrite (find_app_found _ _ _ _ F).
Qed.

Lemma get_ride_reads_what_create_ride_wrote_witness :
  get_ride "r4" bob
    (snd (create_ride "r4" 9400 alice sunday_loop club_rides))
  = (Ok (RideResponse_of_row (stored_ride "r4" 9400 "u-alice" sunday_loop)),
     snd (create_ride "r4" 9400 alice sunday_loop club_rides)).
Proof.
  destruct (get_ride_reads_what_create_ride_wrote "r4" 9400 alice sunday_loop
              club_rides bob "r1") as (_ & _ & Hread).
  exact (proj1 (Hread _ _ eq_refl)).
Defined.

Lemma StronglySorted_app_inv {A} (R : A -> A -> Prop) (l1 l2 : list A) :
  StronglySorted R (l1 ++ l2) ->
  StronglySorted R l1
  /\ forall a b, In a l1 -> In b l2 -> R a b.
Proof.
  induction l1 as [|x l1 IH]; simpl; intros S.
  - split; [constructor|]. intros a b [].
  - inversion S as [|? ? S' Hall]; subst. destruct (IH S') as [S1 H12].
    split.
    + constructor; [exact S1|].
      apply Forall_forall. intros y Hy. rewrite Forall_forall in Hall.
      apply Hall. apply in_or_app. now left.
    + intros a b [<-|Ha] Hb; [|now apply H12].
      rewrite Forall_forall in Hall. apply Hall. apply in_or_app. now right.
Qed.

Lemma order_rides_by_created_at_desc_perm rows :
  Permutation (order_rides_by_created_at_desc rows) rows.
Proof. apply sort_by_perm. Qed.

Lemma order_rides_by_created_at_desc_descending rows :
  StronglySorted (ascending rides_created_at Z.geb)
                 (order_rides_by_created_at_desc rows).
Proof.
  apply (sort_by_ascending rides_created_at Z.gtb Z.geb (fun _ => True)).
  - intros x y L. apply Z.geb_le. apply Z.gtb_lt in L. lia.
  - intros x y _ _ L. apply Z.geb_le.
    destruct (Z.gtb_spec x y) as [|G]; [discriminate|lia].
  - intros x y z L1 L2. apply Z.geb_le. apply Z.geb_le in L1, L2. lia.
  - apply Forall_forall. trivial.
Qed.

(** X4.  [list_rides] never fails and never writes.  It returns the
    responses of at most 200 ride rows, in descending order of creation
    time: all rides when there are at most 200, and otherwise 200 of them
    such that no ride left out is newer than a ride returned. *)
Theorem list_rides_most_recent_200 :
  forall current_user d,
    exists rows,
      list_rides current_user d
      = (Ok {| RidesResponse_items := map RideResponse_of_row rows |}, d)
      /\ List.length rows = Nat.min 200 (List.length (rides d))
      /\ StronglySorted (ascending rides_created_at Z.geb) rows
      /\ incl rows (rides d)
      /\ ((List.length (rides d) <= 200)%nat -> Permutation rows (rides d))
      /\ (forall r k, In r (rides d) -> ~ In r rows -> In k rows ->
                      (rides_created_at r <= rides_created_at k)%Z).
Proof.
  intros cu d.
  set (sorted := order_rides_by_created_at_desc (rides d)).
  assert (P : Permutation sorted (rides d))
    by apply order_rides_by_created_at_desc_perm.
  assert (S : StronglySorted (ascending rides_created_at Z.geb) sorted)
    by apply order_rides_by_created_at_desc_descending.
  rewrite <- (firstn_skipn 200 sorted) in S.
  apply StronglySorted_app_inv in S as [S1 S12].
  exists (firstn 200 sorted). split; [reflexivity|].
  split; [|split; [exact S1|split; [|split]]].
  - rewrite length_firstn. now rewrite (Permutation_length P).
  - intros r Hr. apply (Permutation_in _ P).
    rewrite <- (firstn_skipn 200 sorted). apply in_or_app. now left.
  - intros L. rewrite firstn_all2; [exact P|].
    now rewrite (Permutation_length P).
  - intros r k Hr Hn Hk.
    apply (Permutation_in _ (Permutation_sym P)) in Hr.
    rewrite <- (firstn_skipn 200 sorted) in Hr.
    apply in_app_or in Hr as [Hr|Hr]; [now elim Hn|].
    specialize (S12 k r Hk Hr). unfold ascending in S12.
    apply Z.geb_le in S12. exact S12.
Qed.

Lemma list_rides_most_recent_200_witness :
  fst (list_rides alice club_rides)
  = Ok {| RidesResponse_items :=
            map RideResponse_of_row
                [stored_ride "r2" 9300 "u-bob" sunday_loop;
                 stored_ride "r3" 9200 "u-alice" sunday_loop;
                 stored_ride "r1" 9100 "u-alice" sunday_loop] |}
  /\ exists rows,
       list_rides alice club_rides
       = (Ok {| RidesResponse_items := map RideResponse_of_row rows |},
          club_rides)
       /\ Permutation rows (rides club_rides).
Proof.
  split; [reflexivity|].
  destruct (list_rides_most_recent_200 alice club_rides)
    as (rows & E & _ & _ & _ & Hall & _).
  exists rows. split; [exact E|]. apply Hall. simpl. repeat constructor.
Defined.

(** X5.  A ride created later than every ride of the store is the first
    item of the next [list_rides], for any caller, and the item is the
    response [create_ride] returned. *)
Theorem list_rides_after_create_ride :
  forall ride_id now current_user req d resp d' viewer,
    create_ride ride_id now current_user req d = (Ok resp, d') ->
    (forall r, In r (rides d) -> (rides_created_at r < now)%Z) ->
    exists rest,
      list_rides viewer d'
      = (Ok {| RidesResponse_items := resp :: rest |}, d').
Proof.
  intros ride_id now cu req d resp d' viewer C Hold.
  rewrite create_ride_eq in C.
  destruct (fits 36 ride_id && ride_request_fits req); [|discriminate].
  destruct (has_ride ride_id d || negb (has_user (users_id cu) d));
    [discriminate|].
  injection C as <- <-.
  set (new := stored_ride ride_id now (users_id cu) req).
  unfold list_rides, session_scope, bind, query, ret. cbn [rides set_rides].
  set (sorted := order_rides_by_created_at_desc (rides d ++ [new])).
  assert (P : Permutation sorted (rides d ++ [new]))
    by apply order_rides_by_created_at_desc_perm.
  assert (S : StronglySorted (ascending rides_created_at Z.geb) sorted)
    by apply order_rides_by_created_at_desc_descending.
  assert (Hnew : In new sorted).
  { apply (Permutation_in _ (Permutation_sym P)). apply in_or_app.
    right. now left. }
  destruct sorted as [|h t]; [destruct Hnew|].
  assert (Hh : h = new).
  { assert (Hin : In h (rides d ++ [new]))
      by (apply (Permutation_in _ P); now left).
    apply in_app_or in Hin as [Hin|[E|[]]]; [|now symmetry].
    specialize (Hold h Hin).
    destruct Hnew as [E|Hnew]; [exact E|].
    inversion S as [|? ? _ Hall]; subst. rewrite Forall_forall in Hall.
    specialize (Hall new Hnew). unfold ascending in Hall.
    apply Z.geb_le in Hall. cbn [rides_created_at new stored_ride] in Hall.
    lia. }
  subst h. exists (map RideResponse_of_row (firstn 199 t)). reflexivity.
Qed.

Lemma list_rides_after_create_ride_witness :
  exists rest,
    list_rides bob (snd (create_ride "r4" 9400 alice sunday_loop club_rides))
    = (Ok {| RidesResponse_items :=
               RideResponse_of_row
                 (stored_ride "r4" 9400 "u-alice" sunday_loop) :: rest |},
       snd (create_ride "r4" 9400 alice sunday_loop club_rides)).
Proof.
  apply (list_rides_after_create_ride "r4" 9400 alice sunday_loop club_rides
           _ _ bob eq_refl).
  intros r [<-|[<-|[<-|[]]]]; reflexivity.
Defined.

(** ** Conversations: listing, and reading after sending *)

Lemma fold_left_append {A B} (f : A -> B) (l : list A) :
  forall acc,
    fold_left (fun items x => (items ++ [f x])%list) l acc
    = (acc ++ map f l)%list.
Proof.
  induction l as [|x l IH]; simpl; intros acc.
  - now rewrite app_nil_r.
  - now rewrite IH, <- app_assoc.
Qed.

Lemma list_conversations_eq cu d :
  list_conversations cu d =
  (Ok {| ConversationsResponse_items :=
           map (conversation_item (users_id cu) d)
               (conversations_of (users_id cu) d) |}, d).
Proof.
  unfold list_conversations, session_scope, bind, query, ret.
  fold (conversations_of (users_id cu) d).
  change (list_conversations_step (users_id cu) d)
    with (fun items cid =>
            (items ++ [conversation_item (users_id cu) d cid])%list).
  now rewrite fold_left_append.
Qed.

Lemma or_else_nonempty a b : b <> "" -> or_else a b <> "".
Proof.
  unfold or_else. intros Hb. destruct a as [s|]; [|exact Hb].
  destruct (String.eqb_spec s ""); assumption.
Qed.

Lemma conversations_of_iff me_id d cid :
  In cid (conversations_of me_id d) <-> is_participant cid me_id d = true.
Proof.
  unfold conversations_of. rewrite in_map_iff, is_participant_iff. split.
  - intros (p & E & Hp). apply filter_In in Hp as [Hp Eu].
    apply String.eqb_eq in Eu. now exists p.
  - intros (p & Hp & E & Eu). exists p. split; [exact E|].
    apply filter_In. split; [exact Hp|]. now apply String.eqb_eq.
Qed.

(** X6.  [list_conversations] never fails and never writes.  It returns one
    item for each participant row of the caller, in table order, so the
    conversations listed are exactly those the caller takes part in.  A
    title is never empty; it is "Conversation" when the conversation has no
    other participant, and the last message is empty when the conversation
    has no message. *)
Theorem list_conversations_lists_own_conversations :
  forall current_user d,
    let me_id := users_id current_user in
    exists items,
      list_conversations current_user d
      = (Ok {| ConversationsResponse_items := items |}, d)
      /\ map ConversationItem_id items = conversations_of me_id d
      /\ (forall cid, (exists it, In it items /\ ConversationItem_id it = cid)
                      <-> is_participant cid me_id d = true)
      /\ (forall it, In it items ->
            ConversationItem_title it <> ""
            /\ (other_participant (ConversationItem_id it) me_id d = None ->
                ConversationItem_title it = "Conversation")
            /\ (messages_of (ConversationItem_id it) d = [] ->
                ConversationItem_last_message it = "")).
Proof.
  intros cu d me_id. rewrite list_conversations_eq. fold me_id.
  exists (map (conversation_item me_id d) (conversations_of me_id d)).
  split; [reflexivity|]. split; [|split].
  - rewrite map_map. simpl. apply map_id.
  - intros cid. rewrite <- conversations_of_iff. split.
    + intros (it & Hit & E). apply in_map_iff in Hit as (c & <- & Hc).
      simpl in E. now subst c.
    + intros Hc. exists (conversation_item me_id d cid).
      split; [now apply in_map|reflexivity].
  - intros it Hit. apply in_map_iff in Hit as (cid & <- & _).
    cbn [conversation_item ConversationItem_id ConversationItem_title
         ConversationItem_last_message].
    split; [|split].
    + unfold conversation_title. apply or_else_nonempty.
      apply or_else_nonempty. discriminate.
    + now intros ->.
    + intros M. unfold last_message_text, order_by_created_at_desc.
      now rewrite M.
Qed.

Lemma list_conversations_lists_own_conversations_witness :
  exists items,
    list_conversations alice club_chat
    = (Ok {| ConversationsResponse_items := items |}, club_chat)
    /\ map ConversationItem_id items = ["c1"]
    /\ map ConversationItem_title items = ["Bob"]
    /\ map ConversationItem_last_message items = ["Sure, 8am?"].
Proof.
  destruct (list_conversations_lists_own_conversations alice club_chat)
    as (items & E & Hids & _).
  exists items. split; [exact E|]. split; [exact Hids|].
  rewrite list_conversations_eq in E. injection E as <-.
  split; reflexivity.
Defined.

Lemma send_message_ok msg_id now cid req cu d item d' :
  let me_id := users_id cu in
  let row := sent_row msg_id now cid req me_id in
  send_message msg_id now cid req cu d = (Ok item, d') ->
  item = sent_item msg_id now req
  /\ has_message msg_id d = false /\ has_user me_id d = true
  /\ ((has_conversation cid d = true /\ is_participant cid me_id d = true
       /\ d' = set_messages (messages d ++ [row]) d)
      \/ (has_conversation cid d = false /\ is_participant cid me_id d = false
          /\ d' = set_messages (messages d ++ [row])
                               (conversation_opened cid now me_id d))).
Proof.
  intros me_id row. rewrite send_message_eq. fold me_id. fold row.
  destruct (has_conversation cid d).
  - destruct (is_participant cid me_id d); [|discriminate].
    destruct (fits 36 msg_id); [|discriminate].
    destruct (has_message msg_id d); [discriminate|].
    destruct (has_user me_id d); [|discriminate]. cbn [orb negb].
    intros E. injection E as <- <-. repeat split. now left.
  - destruct (fits 36 cid && fits 36 msg_id); [|discriminate].
    destruct (is_participant cid me_id d); [discriminate|].
    destruct (has_user me_id d); [|discriminate].
    destruct (has_message msg_id d); [discriminate|]. cbn [orb negb].
    intros E. injection E as <- <-. repeat split. now right.
Qed.

Lemma fk_no_conversation_no_message cid d :
  fk_messages d = true -> has_conversation cid d = false ->
  messages_of cid d = [].
Proof.
  intros FK Hc. unfold messages_of. apply filter_none.
  destruct (existsb _ (messages d)) eqn:B; [|reflexivity].
  apply existsb_exists in B as (m & Hm & E). apply String.eqb_eq in E.
  unfold fk_messages in FK. rewrite forallb_forall in FK.
  specialize (FK m Hm). apply andb_true_iff in FK as [FK _]. congruence.
Qed.

Lemma is_participant_opened cid now me_id d ms c u :
  is_participant c u (set_messages ms (conversation_opened cid now me_id d))
  = is_participant c u d || ((cid =? c) && (me_id =? u)).
Proof.
  unfold conversation_opened.
  change (is_participant c u (set_messages ?x ?y)) with (is_participant c u y).
  change (is_participant c u
            (set_conversation_participants ?x (set_conversations ?y d)))
    with (is_participant c u (set_conversation_participants x d)).
  now rewrite is_participant_app_one.
Qed.

(** X7.  After a [send_message] that created the conversation, the sender
    reads back exactly the message sent, flagged as the sender's own; the
    sender's conversation list shows the conversation under the title
    "Conversation" with the text as last message; and every other user is
    refused with 403 both reading the conversation and sending to it. *)
Theorem send_message_opens_private_conversation :
  forall msg_id now conversation_id req current_user d item d',
    send_message msg_id now conversation_id req current_user d
    = (Ok item, d') ->
    has_conversation conversation_id d = false ->
    fk_conversation_participants d = true -> fk_messages d = true ->
    get_messages conversation_id current_user d'
    = (Ok {| MessagesResponse_items := [item] |}, d')
    /\ MessageItem_is_mine item = true
    /\ (exists items,
           list_conversations current_user d'
           = (Ok {| ConversationsResponse_items := items |}, d')
           /\ In {| ConversationItem_id := conversation_id;
                    ConversationItem_title := "Conversation";
                    ConversationItem_last_message :=
                      SendMessageRequest_text req |} items)
    /\ (forall other,
           users_id other <> users_id current_user ->
           get_messages conversation_id other d' = (Raise forbidden, d')
           /\ forall msg_id' now' req',
                send_message msg_id' now' conversation_id req' other d'
                = (Raise forbidden, d')).
Proof.
  intros msg_id now cid req cu d item d' E Hc FKP FKM.
  apply send_message_ok in E
    as (-> & M & U & [(Hc' & _)|(_ & P & ->)]); [congruence|].
  set (me_id := users_id cu).
  set (row := sent_row msg_id now cid req me_id).
  set (d' := set_messages (messages d ++ [row])
                          (conversation_opened cid now me_id d)).
  assert (HP : forall c u,
             is_participant c u d'
             = is_participant c u d || ((cid =? c) && (me_id =? u)))
    by (intros c u; apply is_participant_opened).
  assert (HM : messages_of cid d' = [row]).
  { unfold messages_of, d'. cbn [messages set_messages].
    rewrite filter_app.
    change (filter _ (messages d)) with (messages_of cid d).
    rewrite (fk_no_conversation_no_message _ _ FKM Hc). simpl.
    now rewrite String.eqb_refl. }
  assert (Hnone : forall u, is_participant cid u d = false)
    by (intros u; now apply fk_no_conversation_no_participant).
  split; [|split; [reflexivity|split]].
  - rewrite get_messages_eq. fold me_id. rewrite HP, Hnone.
    rewrite !String.eqb_refl. cbn [orb andb]. rewrite HM.
    unfold order_by_created_at_asc, sort_by. simpl.
    unfold MessageItem_of_row, sent_item. simpl.
    now rewrite String.eqb_refl.
  - rewrite list_conversations_eq. fold me_id. eexists. split; [reflexivity|].
    apply in_map_iff. exists cid. split.
    + unfold conversation_item. f_equal.
      * unfold other_participant.
        rewrite filter_none; [reflexivity|].
        destruct (existsb _ (conversation_participants d')) eqn:B;
          [|reflexivity].
        apply existsb_exists in B as (p & Hp & Ep).
        apply andb_true_iff in Ep as [Ec Eu].
        apply String.eqb_eq in Ec. apply negb_true_iff in Eu.
        apply String.eqb_neq in Eu.
        assert (T : is_participant cid (conversation_participants_user_id p) d'
                    = true)
          by (apply is_participant_iff; now exists p).
        rewrite HP, Hnone, String.eqb_refl in T. cbn [orb andb] in T.
        apply String.eqb_eq in T. now elim Eu.
      * unfold last_message_text, order_by_created_at_desc. rewrite HM.
        unfold sort_by. simpl. unfold or_else.
        destruct (String.eqb_spec (SendMessageRequest_text req) "") as [->|];
          reflexivity.
    + apply conversations_of_iff. rewrite HP, !String.eqb_refl.
      now rewrite orb_true_r.
  - intros other Hne.
    assert (HO : is_participant cid (users_id other) d' = false).
    { rewrite HP, Hnone. cbn [orb].
      apply andb_false_iff. right. apply String.eqb_neq.
      intros E. now elim Hne. }
    split.
    + now rewrite get_messages_eq, HO.
    + intros msg_id' now' req'. rewrite send_message_eq, HO.
      assert (HC : has_conversation cid d' = true).
      { unfold d', conversation_opened.
        change (has_conversation cid (set_messages ?x ?y))
          with (has_conversation cid y).
        change (has_conversation cid (set_conversation_participants ?x ?y))
          with (has_conversation cid y).
        rewrite has_conversation_app_one. cbn [conversations_id].
        now rewrite String.eqb_refl, orb_true_r. }
      now rewrite HC.
Qed.

Lemma send_message_opens_private_conversation_witness :
  let d' := snd (send_message "m1" 7100 "c1" hello alice club_users) in
  get_messages "c1" alice d'
  = (Ok {| MessagesResponse_items := [sent_item "m1" 7100 hello] |}, d')
  /\ get_messages "c1" bob d' = (Raise forbidden, d').
Proof.
  intros d'.
  destruct (send_message_opens_private_conversation "m1" 7100 "c1" hello alice
              club_users _ _ eq_refl eq_refl eq_refl eq_refl)
    as (Hread & _ & _ & Hother).
  split; [exact Hread|].
  apply (Hother bob). discriminate.
Defined.

(** X8.  After any [send_message] that succeeded, every participant of the
    conversation who reads it gets one item more than the conversation had
    messages, and among the items the message sent, flagged [is_mine] for
    the sender and for nobody else. *)
Theorem get_messages_after_send_message :
  forall msg_id now conversation_id req current_user d item d' viewer,
    send_message msg_id now conversation_id req current_user d
    = (Ok item, d') ->
    is_participant conversation_id (users_id viewer) d' = true ->
    is_participant conversation_id (users_id current_user) d' = true
    /\ exists items,
         get_messages conversation_id viewer d'
         = (Ok {| MessagesResponse_items := items |}, d')
         /\ List.length items
            = S (List.length (messages_of conversation_id d))
         /\ In {| MessageItem_id := msg_id;
                  MessageItem_text := SendMessageRequest_text req;
                  MessageItem_created_at := now;
                  MessageItem_is_mine :=
                    users_id current_user =? users_id viewer |} items.
Proof.
  intros msg_id now cid req cu d item d' viewer E V.
  set (me_id := users_id cu) in *.
  set (row := sent_row msg_id now cid req me_id).
  assert (HM : messages_of cid d' = (messages_of cid d ++ [row])%list
               /\ is_participant cid me_id d' = true).
  { apply send_message_ok in E
      as (_ & _ & _ & [(_ & P & ->)|(_ & _ & ->)]); fold me_id; fold row.
    - split; [|exact P]. unfold messages_of. cbn [messages set_messages].
      rewrite filter_app. simpl. now rewrite String.eqb_refl.
    - split.
      + unfold messages_of. cbn [messages set_messages]. rewrite filter_app.
        simpl. now rewrite String.eqb_refl.
      + rewrite is_participant_opened, !String.eqb_refl.
        now rewrite orb_true_r. }
  destruct HM as [HM HP]. split; [exact HP|].
  rewrite get_messages_eq, V. eexists. split; [reflexivity|]. split.
  - rewrite length_map.
    rewrite (Permutation_length (order_by_created_at_asc_perm _)).
    rewrite HM, length_app. simpl. lia.
  - apply in_map_iff. exists row. split; [reflexivity|].
    apply (Permutation_in _
             (Permutation_sym (order_by_created_at_asc_perm _))).
    rewrite HM. apply in_or_app. right. now left.
Qed.

Lemma get_messages_after_send_message_witness :
  let d' := snd (send_message "m4" 7300 "c1" hello alice club_chat) in
  exists items,
    get_messages "c1" bob d' = (Ok {| MessagesResponse_items := items |}, d')
    /\ List.length items = 3%nat
    /\ In {| MessageItem_id := "m4";
             MessageItem_text := "Hello from the road";
             MessageItem_created_at := 7300;
             MessageItem_is_mine := false |} items.
Proof.
  intros d'.
  exact (proj2 (get_messages_after_send_message "m4" 7300 "c1" hello alice
                  club_chat _ _ bob eq_refl eq_refl)).
Defined.

(** ** Authentication *)

Section CurrentUser.
Context {pyjwt_decode : PyJWTDecode}.

Lemma get_current_user_subject env now token d payload uid :
  token <> "" -> uid <> "" ->
  decode_access_token env now token = Ok payload ->
  dict_get "sub" payload = Some (ClaimStr uid) ->
  get_current_user env now (Some token) d =
  match find (fun u => users_id u =? uid) (users d) with
  | Some row => (Ok row, d)
  | None => (Raise user_not_found, d)
  end.
Proof.
  intros Ht Hu D S. unfold get_current_user.
  apply String.eqb_neq in Ht. rewrite Ht, D. cbn [rbind]. rewrite S.
  cbn [claim_falsy]. apply String.eqb_neq in Hu. rewrite Hu.
  unfold session_scope, bind, query, raise, ret. cbn [id_is].
  now destruct (find _ (users d)).
Qed.

(** X9.  [get_current_user] never writes.  Without a credential, or with an
    empty one, it answers 401 "Not authenticated".  With a token it answers
    401 "Invalid token" whenever decoding raises, and so too when the
    signing secret is not configured, and whenever the claims have no "sub"
    or an empty one.  With a subject that is a non-empty string it answers
    401 "User not found" when no user has that id, and otherwise returns a
    user row with that id. *)
Theorem get_current_user_outcomes :
  forall env now creds d,
    let out := get_current_user env now creds d in
    snd out = d
    /\ (creds = None \/ creds = Some "" -> fst out = Raise not_authenticated)
    /\ (forall token, creds = Some token -> token <> "" ->
          (forall e, decode_access_token env now token = Raise e ->
                     fst out = Raise invalid_token)
          /\ (JWT_SECRET env = None \/ JWT_SECRET env = Some "" ->
              fst out = Raise invalid_token)
          /\ (forall payload,
                decode_access_token env now token = Ok payload ->
                dict_get "sub" payload = None
                \/ dict_get "sub" payload = Some (ClaimStr "") ->
                fst out = Raise invalid_token)
          /\ (forall payload uid,
                decode_access_token env now token = Ok payload ->
                dict_get "sub" payload = Some (ClaimStr uid) -> uid <> "" ->
                (has_user uid d = false -> fst out = Raise user_not_found)
                /\ (has_user uid d = true ->
                    exists row, fst out = Ok row /\ In row (users d)
                                /\ users_id row = uid))).
Proof.
  intros env now creds d out. subst out.
  split; [|split].
  - unfold get_current_user.
    destruct creds as [token|]; [|reflexivity].
    destruct (token =? ""); [reflexivity|].
    destruct (rbind _ _); [|reflexivity].
    unfold session_scope, bind, query, raise, ret.
    now destruct (find _ (users d)).
  - intros [->| ->]; reflexivity.
  - intros token -> Ht. assert (Ht' := Ht). apply String.eqb_neq in Ht'.
    split; [|split; [|split]].
    + intros e D. unfold get_current_user. now rewrite Ht', D.
    + intros Hs. unfold get_current_user, decode_access_token,
        _get_jwt_secret.
      rewrite Ht'. now destruct Hs as [-> | ->].
    + intros payload D S. unfold get_current_user. rewrite Ht', D.
      cbn [rbind]. now destruct S as [-> | ->].
    + intros payload uid D S Hu.
      rewrite (get_current_user_subject _ _ _ _ _ _ Ht Hu D S). split.
      * unfold has_user. intros U. apply find_None_existsb in U.
        now rewrite U.
      * intros U.
        destruct (find (fun u => users_id u =? uid) (users d)) as [row|] eqn:F.
        -- exists row. apply find_some in F as [Hin E].
           apply String.eqb_eq in E. now repeat split.
        -- apply find_None_existsb in F. unfold has_user in U. congruence.
Qed.
End CurrentUser.

Lemma get_current_user_outcomes_witness :
  fst (get_current_user (pyjwt_decode := readable_jwt_decode) club_env 5000
         (Some "s3cret:u-bob") club_users) = Ok bob
  /\ fst (get_current_user (pyjwt_decode := readable_jwt_decode) club_env 5000
            (Some "s3cret:u-zed") club_users) = Raise user_not_found
  /\ fst (get_current_user (pyjwt_decode := readable_jwt_decode) club_env 5000
            (Some "forged:u-bob") club_users) = Raise invalid_token.
Proof.
  split; [|split].
  - reflexivity.
  - destruct (get_current_user_outcomes
                (pyjwt_decode := readable_jwt_decode) club_env 5000
                (Some "s3cret:u-zed") club_users)
      as (_ & _ & Htoken).
    destruct (Htoken _ eq_refl (fun E => match E with end))
      as (_ & _ & _ & Hsub).
    apply (Hsub [("sub", ClaimStr "u-zed")] "u-zed" eq_refl eq_refl);
      [discriminate|reflexivity].
  - destruct (get_current_user_outcomes
                (pyjwt_decode := readable_jwt_decode) club_env 5000
                (Some "forged:u-bob") club_users)
      as (_ & _ & Htoken).
    destruct (Htoken _ eq_refl (fun E => match E with end))
      as (Hraise & _).
    exact (Hraise ValueError eq_refl).
Defined.

Section SignIn.
Context {passlib : Passlib} {pyjwt : PyJWT} {builtins : Builtins}
        {pyjwt_decode : PyJWTDecode}.

End SignIn.


(** ** Tokens *)

Lemma dict_get_set_other {V} (k k' : string) (v : V) (d : dict V) :
  k' <> k -> dict_get k (dict_set k' v d) = dict_get k d.
Proof.
  intros N. induction d as [|[k0 v0] d IH]; simpl.
  - apply String.eqb_neq in N. now rewrite N.
  - destruct (String.eqb_spec k0 k') as [->|N0]; simpl.
    + apply String.eqb_neq in N. now rewrite N.
    + now rewrite IH.
Qed.

Lemma dict_get_update_absent {V} (k : string) (other : dict V) :
  forall d, dict_get k other = None ->
            dict_get k (dict_update d other) = dict_get k d.
Proof.
  unfold dict_update.
  induction other as [|[k' v'] other IH]; simpl; intros d A; [reflexivity|].
  destruct (String.eqb_spec k' k) as [->|N]; [discriminate|].
  rewrite (IH _ A). now apply dict_get_set_other.
Qed.

Section TokenTimes.
Local Open Scope Z_scope.

Lemma round_half_even_cases n d :
  0 < d ->
  (round_half_even n d = n / d /\ 2 * (n mod d) <= d)
  \/ (round_half_even n d = n / d + 1 /\ d <= 2 * (n mod d)).
Proof.
  intros Hd. unfold round_half_even.
  destruct (Z.ltb_spec (2 * (n mod d)) d); [left; lia|].
  destruct (Z.ltb_spec d (2 * (n mod d))); [right; lia|].
  destruct (Z.even (n / d)); [left|right]; lia.
Qed.

(** The exponent that [int_true_divide] picks is below every power of two
    that the quotient is below. *)
Lemma binade_below n b E :
  0 < n -> 0 < b -> 0 <= E -> n < b * 2 ^ E ->
  (if below_pow2 n b (Z.log2 n - Z.log2 b)
   then Z.log2 n - Z.log2 b - 1 else Z.log2 n - Z.log2 b) < E.
Proof.
  intros Hn Hb HE Hlt.
  set (e0 := Z.log2 n - Z.log2 b).
  destruct (Z.log2_spec n Hn) as [Ln _].
  destruct (Z.log2_spec b Hb) as [_ Lb].
  assert (H0 : 0 <= Z.log2 b) by apply Z.log2_nonneg.
  destruct (below_pow2 n b e0) eqn:B.
  - destruct (Z.lt_ge_cases (e0 - 1) E) as [|G]; [assumption|exfalso].
    assert (P : 2 ^ E <= 2 ^ (e0 - 1)) by (apply Z.pow_le_mono_r; lia).
    assert (Q : 2 ^ Z.log2 n = 2 ^ (e0 - 1) * 2 ^ Z.succ (Z.log2 b)).
    { rewrite <- Z.pow_add_r by lia. f_equal. unfold e0. lia. }
    assert (0 < 2 ^ (e0 - 1)) by (apply Z.pow_pos_nonneg; lia).
    nia.
  - destruct (Z.lt_ge_cases e0 E) as [|G]; [assumption|exfalso].
    unfold below_pow2 in B. apply Z.ltb_ge in B.
    rewrite (Z.max_l 0 (- e0)), (Z.max_r 0 e0) in B by lia.
    assert (P : 2 ^ E <= 2 ^ e0) by (apply Z.pow_le_mono_r; lia).
    change (2 ^ 0) with 1 in B. nia.
Qed.

(** [int(dt.timestamp())] after the epoch: the whole seconds or one more,
    the whole seconds when there is no fraction to round, and the whole
    seconds as long as a binary64 tells microseconds apart, which it does
    below [2 ^ 34] seconds. *)
Lemma timestamp_int_pos a :
  0 < a -> a < 1000000 * 2 ^ 53 ->
  let s := a / 1000000 in
  s <= timestamp_int a <= s + 1
  /\ (a mod 1000000 = 0 -> timestamp_int a = s)
  /\ (a < 1000000 * 2 ^ 34 -> timestamp_int a = s).
Proof.
  intros Ha Hlt s.
  unfold timestamp_int, timestamp, int_true_divide, int_of_float.
  replace (a =? 0) with false by (symmetry; apply Z.eqb_neq; lia).
  rewrite Z.abs_eq, Z.sgn_pos, Z.mul_1_l by lia.
  cbn [mantissa exponent].
  set (e := if below_pow2 a 1000000 _ then _ else _).
  assert (He : e < 53) by (apply binade_below; lia).
  assert (He34 : a < 1000000 * 2 ^ 34 -> e < 34)
    by (intros H; apply binade_below; lia).
  rewrite (Z.max_l 0 (e - 52)), (Z.max_r 0 (52 - e)),
    (Z.max_l 0 (- (52 - e))), (Z.max_r 0 (- (e - 52))) by lia.
  change (2 ^ 0) with 1. rewrite !Z.mul_1_r.
  replace (- (e - 52)) with (52 - e) by lia.
  set (k := 52 - e) in *.
  assert (Hk : 0 <= k) by lia.
  assert (Pk : 0 < 2 ^ k) by (apply Z.pow_pos_nonneg; lia).
  set (m := round_half_even (a * 2 ^ k) 1000000).
  assert (Da := Z.div_mod a 1000000 ltac:(lia)).
  assert (Ra := Z.mod_pos_bound a 1000000 ltac:(lia)).
  fold s in Da.
  assert (DN := Z.div_mod (a * 2 ^ k) 1000000 ltac:(lia)).
  assert (RN := Z.mod_pos_bound (a * 2 ^ k) 1000000 ltac:(lia)).
  assert (Hs : 0 <= s) by (apply Z.div_pos; lia).
  assert (Hm : s * 2 ^ k <= m <= (s + 1) * 2 ^ k
               /\ (a mod 1000000 = 0 -> m = s * 2 ^ k)
               /\ (1000000 < 2 ^ (k + 1) -> m < (s + 1) * 2 ^ k)).
  { rewrite Z.pow_add_r by lia. change (2 ^ 1) with 2.
    destruct (round_half_even_cases (a * 2 ^ k) 1000000 ltac:(lia))
      as [[E R]|[E R]]; fold m in E; rewrite E; repeat split; try nia. }
  destruct Hm as (Hm1 & Hm2 & Hm3).
  assert (Hm0 : 0 <= m) by nia.
  rewrite Z.quot_div_nonneg by lia.
  split; [|split].
  - split.
    + apply Z.div_le_lower_bound; lia.
    + apply Z.div_le_upper_bound; [lia|]. nia.
  - intros R0. rewrite (Hm2 R0). apply Z.div_mul. lia.
  - intros H34. specialize (He34 H34).
    assert (K : 1000000 < 2 ^ (k + 1)).
    { assert (2 ^ 20 <= 2 ^ (k + 1)) by (apply Z.pow_le_mono_r; lia).
      change (2 ^ 20) with 1048576 in *. lia. }
    specialize (Hm3 K).
    symmetry. apply Z.div_unique with (r := m - s * 2 ^ k); [left; nia|nia].
Qed.

Lemma timestamp_int_opp a : timestamp_int (- a) = - timestamp_int a.
Proof.
  unfold timestamp_int, timestamp, int_true_divide, int_of_float.
  destruct (Z.eqb_spec a 0) as [->|N]; [reflexivity|].
  replace (- a =? 0) with false by (symmetry; apply Z.eqb_neq; lia).
  rewrite Z.abs_opp, Z.sgn_opp. cbn [mantissa exponent].
  rewrite !Z.mul_opp_l. now rewrite Z.quot_opp_l
    by (apply Z.pow_nonzero; lia).
Qed.

(** Before or after the epoch, [int(dt.timestamp())] lies between the
    seconds rounded down and the seconds rounded up. *)
Lemma timestamp_int_bracket a :
  datetime_min <= a <= datetime_max ->
  a / 1000000 <= timestamp_int a <= - (- a / 1000000).
Proof.
  unfold datetime_min, datetime_max. intros R.
  assert (P53 : 2 ^ 53 = 9007199254740992) by reflexivity.
  assert (Da := Z.div_mod a 1000000 ltac:(lia)).
  assert (Ra := Z.mod_pos_bound a 1000000 ltac:(lia)).
  assert (Dn := Z.div_mod (- a) 1000000 ltac:(lia)).
  assert (Rn := Z.mod_pos_bound (- a) 1000000 ltac:(lia)).
  destruct (Z.lt_trichotomy a 0) as [N|[->|P]].
  - destruct (timestamp_int_pos (- a) ltac:(lia) ltac:(lia)) as (B & Z0 & _).
    rewrite timestamp_int_opp in B, Z0.
    destruct (Z.eq_dec (- a mod 1000000) 0) as [E|E].
    + specialize (Z0 E). lia.
    + lia.
  - vm_compute. split; discriminate.
  - destruct (timestamp_int_pos a ltac:(lia) ltac:(lia)) as (B & Z0 & _).
    destruct (Z.eq_dec (a mod 1000000) 0) as [E|E].
    + specialize (Z0 E). lia.
    + lia.
Qed.

Lemma timestamp_int_floor a :
  0 <= a < 1000000 * 2 ^ 34 -> timestamp_int a = a / 1000000.
Proof.
  intros [H0 H1]. destruct (Z.eq_dec a 0) as [->|N]; [reflexivity|].
  apply timestamp_int_pos; lia.
Qed.

(** The two times of a token differ by the lifetime, up to the second that
    rounding can add or take. *)
Lemma timestamp_int_later now m :
  datetime_min <= now <= datetime_max ->
  datetime_min <= now + m * 60 * 1000000 <= datetime_max ->
  timestamp_int now + 60 * m - 1
  <= timestamp_int (now + m * 60 * 1000000)
  <= timestamp_int now + 60 * m + 1.
Proof.
  intros R1 R2.
  assert (B1 := timestamp_int_bracket _ R1).
  assert (B2 := timestamp_int_bracket _ R2).
  replace (now + m * 60 * 1000000) with (now + (60 * m) * 1000000) in B2
    by lia.
  replace (- (now + (60 * m) * 1000000))
    with (- now + (- (60 * m)) * 1000000) in B2 by lia.
  rewrite !Z.div_add in B2 by lia.
  assert (Da := Z.div_mod now 1000000 ltac:(lia)).
  assert (Ra := Z.mod_pos_bound now 1000000 ltac:(lia)).
  assert (Dn := Z.div_mod (- now) 1000000 ltac:(lia)).
  assert (Rn := Z.mod_pos_bound (- now) 1000000 ltac:(lia)).
  replace (now + m * 60 * 1000000) with (now + (60 * m) * 1000000) by lia.
  lia.
Qed.

Lemma timestamp_int_later_exact now m :
  0 <= now < 1000000 * 2 ^ 34 ->
  0 <= now + m * 60 * 1000000 < 1000000 * 2 ^ 34 ->
  timestamp_int (now + m * 60 * 1000000) = timestamp_int now + 60 * m.
Proof.
  intros R1 R2. rewrite !timestamp_int_floor by assumption.
  replace (now + m * 60 * 1000000) with (now + (60 * m) * 1000000) by lia.
  now rewrite Z.div_add by lia.
Qed.
End TokenTimes.

(** The quotient that [int_true_divide] computes is the one of binary64
    division, on operands that a binary64 holds exactly. *)
Lemma int_true_divide_is_float_division :
  Forall (fun ab => binary64_to_float (int_true_divide (fst ab) (snd ab))
                    = float_quotient (fst ab) (snd ab))
         [(1700000000999999, 1000000); (-29500000, 1000000);
          (1, 1000000); (999999, 1000000); (7, 3); (1, 3); (2, 3); (-2, 3);
          (9007199254740991, 1000000); (8999999999999999, 7);
          (4503599627370497, 2); (4503599627370499, 2)]%Z.
Proof. repeat constructor. Qed.

(** The second that rounding adds: half a minute before the epoch [int]
    rounds towards zero, and from [2 ^ 34] seconds on the last microsecond
    of a second rounds to the next. *)
Lemma timestamp_int_rounds :
  timestamp_int (-29500000) = (-29)%Z
  /\ timestamp_int 1700000000999999 = 1700000000%Z
  /\ timestamp_int (1700000000999999 + 300000000 * 60 * 1000000)
     = (1700000000 + 60 * 300000000 + 1)%Z.
Proof. repeat split; reflexivity. Qed.

Section Tokens.
Context {pyjwt : PyJWT} {builtins : Builtins}.

(** X11.  [create_access_token]: a lifetime of 0 minutes is not an
    immediately expiring token but the configured default, as if no
    lifetime had been passed; a non-zero lifetime is used whatever the
    environment says; when the expiry is no date of the years 1 to 9999 (or
    the lifetime is more than 999999999 days) the call raises
    [OverflowError] and no token is issued; otherwise the "exp" claim is the
    "iat" claim plus 60 seconds for each minute, up to one second either
    way that rounding the timestamps can add or take, and exactly that when
    both times are between the epoch and [2 ^ 34] seconds after it; no token
    is issued without a signing secret; and extra claims that do not name
    "sub" leave the subject as given. *)
Theorem create_access_token_lifetime_and_subject :
  forall env subject extra now,
    create_access_token env subject (Some 0%Z) extra now
    = create_access_token env subject None extra now
    /\ (forall m secret,
          m <> 0%Z -> JWT_SECRET env = Some secret -> secret <> "" ->
          (is_ok (expiry now m) = false ->
           create_access_token env subject (Some m) None now
           = Raise OverflowError)
          /\ (is_ok (expiry now m) = true ->
              (datetime_min <= now + m * 60 * 1000000 <= datetime_max)%Z
              /\ create_access_token env subject (Some m) None now
                 = Ok (jwt_encode (token_payload subject now m) secret)
              /\ exists iat exp,
                   token_payload subject now m
                   = [("sub", ClaimStr subject); ("iat", ClaimInt iat);
                      ("exp", ClaimInt exp)]
                   /\ ((datetime_min <= now <= datetime_max)%Z ->
                       (iat + 60 * m - 1 <= exp <= iat + 60 * m + 1)%Z)
                   /\ ((0 <= now < 1000000 * 2 ^ 34)%Z ->
                       (0 <= now + m * 60 * 1000000 < 1000000 * 2 ^ 34)%Z ->
                       exp = (iat + 60 * m)%Z)))
    /\ (forall expires_minutes,
          JWT_SECRET env = None \/ JWT_SECRET env = Some "" ->
          is_ok (create_access_token env subject expires_minutes extra now)
          = false)
    /\ (forall expires_minutes token,
          create_access_token env subject expires_minutes extra now
          = Ok token ->
          match extra with
          | Some claims => dict_get "sub" claims = None
          | None => True
          end ->
          exists payload secret,
            token = jwt_encode payload secret
            /\ JWT_SECRET env = Some secret
            /\ dict_get "sub" payload = Some (ClaimStr subject)).
Proof.
  intros env subject extra now. split; [reflexivity|]. split; [|split].
  - intros m secret Hm Hs Hne.
    apply Z.eqb_neq in Hm. apply String.eqb_neq in Hne.
    destruct (expiry_cases now m) as [[E R]|E]; split; intros Hx;
      try (rewrite E in Hx; discriminate).
    + split; [exact R|]. split.
      * unfold create_access_token, _get_jwt_secret.
        rewrite Hm, Hs, Hne. cbn [rbind]. now rewrite E.
      * exists (timestamp_int now),
               (timestamp_int (now + m * 60 * 1000000)).
        split; [reflexivity|]. split.
        -- intros Rn. now apply timestamp_int_later.
        -- intros R1 R2. now apply timestamp_int_later_exact.
    + unfold create_access_token. rewrite Hm. cbn [rbind]. now rewrite E.
  - intros expires_minutes Hs. unfold create_access_token.
    destruct (match expires_minutes with Some _ => _ | None => _ end)
      as [minutes|]; [|reflexivity].
    cbn [rbind]. destruct (expiry now minutes); [|reflexivity].
    cbn [rbind]. unfold _get_jwt_secret.
    now destruct Hs as [-> | ->].
  - intros expires_minutes token E Hx. unfold create_access_token in E.
    destruct (match expires_minutes with Some _ => _ | None => _ end)
      as [minutes|]; [|discriminate].
    cbn [rbind] in E.
    destruct (expiry now minutes) as [expires|]; [|discriminate].
    cbn [rbind] in E. unfold _get_jwt_secret in E.
    destruct (JWT_SECRET env) as [secret|]; [|discriminate].
    destruct (secret =? ""); [discriminate|]. cbn [rbind] in E.
    set (issued := [("sub", ClaimStr subject);
                    ("iat", ClaimInt (timestamp_int now));
                    ("exp", ClaimInt (timestamp_int expires))]) in E.
    destruct extra as [[|kv more]|].
    + exists issued, secret.
      injection E as <-. now repeat split.
    + exists (dict_update issued (kv :: more)), secret.
      injection E as <-. split; [reflexivity|]. split; [reflexivity|].
      now rewrite dict_get_update_absent.
    + exists issued, secret.
      injection E as <-. now repeat split.
Qed.
End Tokens.

Lemma create_access_token_lifetime_and_subject_witness :
  create_access_token (pyjwt := readable_jwt) (builtins := decimal_int)
    club_env "u-bob" (Some 30%Z) None 1700000000999999
  = Ok "s3cret:u-bob"
  /\ exists iat exp,
       token_payload "u-bob" 1700000000999999 30
       = [("sub", ClaimStr "u-bob"); ("iat", ClaimInt iat);
          ("exp", ClaimInt exp)]
       /\ exp = (iat + 60 * 30)%Z.
Proof.
  destruct (create_access_token_lifetime_and_subject
              (pyjwt := readable_jwt) (builtins := decimal_int)
              club_env "u-bob" None 1700000000999999) as (_ & Hm & _).
  destruct (Hm 30%Z "s3cret") as (_ & Hok);
    [discriminate|reflexivity|discriminate|].
  destruct (Hok eq_refl) as (_ & E & iat & exp & P & _ & Hexact).
  split; [exact E|]. exists iat, exp. split; [exact P|].
  apply Hexact; split; reflexivity || (intros C; discriminate C).
Defined.

Lemma find_map_preserving {A} (f : A -> bool) (g : A -> A) (l : list A) :
  (forall x, f (g x) = f x) ->
  find f (map g l) = option_map g (find f l).
Proof.
  intros Hg. induction l as [|x l IH]; simpl; [reflexivity|].
  rewrite Hg. now destruct (f x).
Qed.

Lemma send_message_users msg_id now cid req cu d :
  users (snd (send_message msg_id now cid req cu d)) = users d.
Proof.
  rewrite send_message_eq.
  destruct (has_conversation cid d).
  - destruct (is_participant cid (users_id cu) d); [|reflexivity].
    destruct (fits 36 msg_id); [|reflexivity].
    now destruct (has_message msg_id d || negb (has_user (users_id cu) d)).
  - destruct (fits 36 cid && fits 36 msg_id); [|reflexivity].
    now destruct (is_participant cid (users_id cu) d
                  || negb (has_user (users_id cu) d) || has_message msg_id d).
Qed.

Lemma create_ride_users ride_id now cu req d :
  users (snd (create_ride ride_id now cu req d)) = users d.
Proof.
  rewrite create_ride_eq.
  destruct (fits 36 ride_id && ride_request_fits req); [|reflexivity].
  now destruct (has_ride ride_id d || negb (has_user (users_id cu) d)).
Qed.

Lemma update_location_users now req cu d :
  users (snd (update_location now req cu d)) = users d.
Proof.
  rewrite update_location_eq.
  destruct (existsb _ (locations d)); [|destruct (has_user (users_id cu) d)];
    reflexivity.
Qed.

Section LoginFrame.
Context {passlib : Passlib} {pyjwt : PyJWT} {builtins : Builtins}.

Lemma login_fst env now req d :
  fst (login env now req d) =
  match find (fun u => users_email u =? LoginRequest_email req) (users d) with
  | None => Raise invalid_credentials
  | Some row =>
      if verify_password (LoginRequest_password req) (users_password_hash row)
      then token <-- create_access_token env (users_id row) None None now ;;
           Ok {| TokenResponse_access_token := token;
                 TokenResponse_token_type := "bearer" |}
      else Raise invalid_credentials
  end.
Proof.
  rewrite login_eq.
  destruct (find _ (users d)) as [row|]; [|reflexivity].
  destruct (verify_password _ _); [|reflexivity].
  now destruct (create_access_token env (users_id row) None None now).
Qed.

Lemma login_depends_on_users env now req d d' :
  users d' = users d ->
  fst (login env now req d') = fst (login env now req d).
Proof. intros E. now rewrite !login_fst, E. Qed.

(** X12.  What a login answers is not changed by any handler other than
    [register]: a profile update (which may rename the user), a location
    update, a message or a ride leave every login, successful or not, with
    the answer it had. *)
Theorem login_unchanged_by_other_handlers :
  forall env now req t current_user d,
    (forall preq,
        fst (login env now req (snd (update_me t preq current_user d)))
        = fst (login env now req d))
    /\ (forall lreq,
           fst (login env now req
                      (snd (update_location t lreq current_user d)))
           = fst (login env now req d))
    /\ (forall msg_id cid mreq,
           fst (login env now req
                      (snd (send_message msg_id t cid mreq current_user d)))
           = fst (login env now req d))
    /\ (forall ride_id rreq,
           fst (login env now req
                      (snd (create_ride ride_id t current_user rreq d)))
           = fst (login env now req d)).
Proof.
  intros env now req t cu d. split; [|split; [|split]].
  - intros preq.
    destruct (update_me_store t preq cu d) as (_ & (preq' & Hu) & _).
    rewrite !login_fst, Hu. unfold users_synced.
    destruct (ProfileUpdateRequest_display_name preq') as [v|];
      [|reflexivity].
    rewrite (find_map_preserving
               (fun u => users_email u =? LoginRequest_email req)).
    + destruct (find _ (users d)) as [row|]; [|reflexivity].
      cbn [option_map].
      now destruct (users_id row =? users_id cu).
    + intros u. now destruct (users_id u =? users_id cu).
  - intros lreq. apply login_depends_on_users, update_location_users.
  - intros msg_id cid mreq. apply login_depends_on_users, send_message_users.
  - intros ride_id rreq. apply login_depends_on_users, create_ride_users.
Qed.
End LoginFrame.

(** ** Validation at the boundary *)

Lemma ge_le_ok lo hi x y :
  ge_le lo hi x = Ok y ->
  y = x /\ (lo <=? x)%float = true /\ (x <=? hi)%float = true.
Proof.
  unfold ge_le. destruct (lo <=? x)%float, (x <=? hi)%float;
    try discriminate.
  intros E. injection E as <-. now repeat split.
Qed.

Lemma validate_LocationUpdateRequest_ok b req :
  validate_LocationUpdateRequest b = Ok req ->
  LocationUpdateBody_lat b = Given (LocationUpdateRequest_lat req)
  /\ LocationUpdateBody_lng b = Given (LocationUpdateRequest_lng req)
  /\ (-90 <=? LocationUpdateRequest_lat req)%float = true
  /\ (LocationUpdateRequest_lat req <=? 90)%float = true
  /\ (-180 <=? LocationUpdateRequest_lng req)%float = true
  /\ (LocationUpdateRequest_lng req <=? 180)%float = true.
Proof.
  unfold validate_LocationUpdateRequest.
  destruct (LocationUpdateBody_lat b) as [| | |lat]; try discriminate.
  cbn [required rbind].
  destruct (ge_le (-90) 90 lat) as [lat'|] eqn:Elat; [|discriminate].
  cbn [rbind].
  destruct (LocationUpdateBody_lng b) as [| | |lng]; try discriminate.
  cbn [required rbind].
  destruct (ge_le (-180) 180 lng) as [lng'|] eqn:Elng; [|discriminate].
  cbn [rbind]. intros E. injection E as <-.
  apply ge_le_ok in Elat as (-> & L1 & L2).
  apply ge_le_ok in Elng as (-> & L3 & L4). now repeat split.
Qed.

Lemma validate_LocationUpdateRequest_raises b e :
  validate_LocationUpdateRequest b = Raise e -> e = RequestValidationError.
Proof.
  unfold validate_LocationUpdateRequest, ge_le.
  destruct (LocationUpdateBody_lat b) as [| | |lat]; cbn [required rbind];
    try congruence.
  destruct ((-90 <=? lat) && (lat <=? 90))%float; cbn [rbind];
    [|congruence].
  destruct (LocationUpdateBody_lng b) as [| | |lng]; cbn [required rbind];
    try congruence.
  destruct ((-180 <=? lng) && (lng <=? 180))%float; cbn [rbind]; congruence.
Qed.

Lemma update_location_own_rows now req cu d :
  fst (update_location now req cu d) = Ok ok_response ->
  locations_of (users_id cu) (snd (update_location now req cu d)) <> []
  /\ Forall (fun l => l = location_fix (users_id cu) req now)
            (locations_of (users_id cu) (snd (update_location now req cu d))).
Proof.
  rewrite update_location_eq. unfold locations_of.
  destruct (existsb _ (locations d)) eqn:B; cbn [fst snd].
  - intros _. cbn [locations set_locations]. split.
    + apply existsb_exists in B as (l & Hl & E). intros N.
      assert (Hin : In (location_fix (locations_user_id l) req now)
                       (filter (fun l => locations_user_id l =? users_id cu)
                          (update_where
                             (fun l => locations_user_id l =? users_id cu)
                             (fun l => location_fix (locations_user_id l)
                                                    req now)
                             (locations d)))).
      { apply filter_In. split; [|exact E].
        unfold update_where. apply in_map_iff. exists l. now rewrite E. }
      rewrite N in Hin. destruct Hin.
    + apply Forall_forall. intros l Hl. apply filter_In in Hl as [Hl E].
      unfold update_where in Hl. apply in_map_iff in Hl as (l0 & El & _).
      destruct (String.eqb_spec (locations_user_id l0) (users_id cu))
        as [E0|N0].
      * subst l. now rewrite E0.
      * subst l. apply String.eqb_eq in E. now elim N0.
  - destruct (has_user (users_id cu) d); [|discriminate]. intros _.
    cbn [fst snd locations set_locations]. rewrite filter_app.
    rewrite (filter_none _ _ B). simpl. rewrite String.eqb_refl.
    split; [discriminate|]. now repeat constructor.
Qed.

(** X13.  [POST /location] rejects, without writing, a body whose latitude
    is not within [-90, 90] or whose longitude is not within [-180, 180],
    a NaN or an infinity among them, and it raises no other validation
    error.  When it succeeds, the caller has a location row, and every
    location row of the caller holds the coordinates of the body, which are
    within those bounds, and the time of the call. *)
Theorem location_update_checks_bounds :
  forall now current_user b d,
    let out := location_update now current_user b d in
    (forall lat,
        LocationUpdateBody_lat b = Given lat ->
        ((-90 <=? lat) && (lat <=? 90))%float = false ->
        out = (Raise RequestValidationError, d))
    /\ (forall lng,
           LocationUpdateBody_lng b = Given lng ->
           ((-180 <=? lng) && (lng <=? 180))%float = false ->
           out = (Raise RequestValidationError, d))
    /\ (forall r, fst out = Ok r ->
          exists lat lng,
            b = location_body lat lng
            /\ (-90 <=? lat)%float = true /\ (lat <=? 90)%float = true
            /\ (-180 <=? lng)%float = true /\ (lng <=? 180)%float = true
            /\ locations_of (users_id current_user) (snd out) <> []
            /\ Forall (fun l => locations_lat l = lat
                                /\ locations_lng l = lng
                                /\ locations_updated_at l = now)
                      (locations_of (users_id current_user) (snd out))).
Proof.
  intros now cu b d out. subst out. unfold location_update, with_body.
  split; [|split].
  - intros lat E B.
    destruct (validate_LocationUpdateRequest b) as [req|e] eqn:V.
    + apply validate_LocationUpdateRequest_ok in V as (E' & _ & L1 & L2 & _).
      rewrite E in E'. injection E' as ->. rewrite L1, L2 in B. discriminate.
    + now rewrite (validate_LocationUpdateRequest_raises _ _ V).
  - intros lng E B.
    destruct (validate_LocationUpdateRequest b) as [req|e] eqn:V.
    + apply validate_LocationUpdateRequest_ok in V
        as (_ & E' & _ & _ & L3 & L4).
      rewrite E in E'. injection E' as ->. rewrite L3, L4 in B. discriminate.
    + now rewrite (validate_LocationUpdateRequest_raises _ _ V).
  - intros r. destruct (validate_LocationUpdateRequest b) as [req|e] eqn:V;
      [|discriminate].
    intros E.
    assert (E' : fst (update_location now req cu d) = Ok ok_response).
    { rewrite update_location_eq in *.
      destruct (existsb _ (locations d)); [reflexivity|].
      now destruct (has_user (users_id cu) d). }
    apply validate_LocationUpdateRequest_ok in V
      as (Hlat & Hlng & L1 & L2 & L3 & L4).
    exists (LocationUpdateRequest_lat req), (LocationUpdateRequest_lng req).
    destruct (update_location_own_rows _ _ _ _ E') as [Hne Hall].
    split.
    { destruct b as [m1 m2].
      cbn [LocationUpdateBody_lat LocationUpdateBody_lng] in Hlat, Hlng.
      now rewrite Hlat, Hlng. }
    repeat (split; [assumption|]).
    eapply Forall_impl; [|exact Hall]. intros l ->. now repeat split.
Qed.

Lemma location_update_checks_bounds_witness :
  location_update 8400 alice (location_body nan 0) club_users
  = (Raise RequestValidationError, club_users)
  /\ location_update 8400 alice (location_body 0 infinity) club_users
     = (Raise RequestValidationError, club_users)
  /\ location_update 8400 alice (location_body 90.5 0) club_users
     = (Raise RequestValidationError, club_users)
  /\ exists lat lng,
       location_body (-90) 180 = location_body lat lng
       /\ locations_of "u-alice"
            (snd (location_update 8400 alice (location_body (-90) 180)
                                  club_users)) <> [].
Proof.
  split; [|split; [|split]].
  - destruct (location_update_checks_bounds 8400 alice (location_body nan 0)
                club_users) as (Hlat & _).
    exact (Hlat nan eq_refl eq_refl).
  - destruct (location_update_checks_bounds 8400 alice
                (location_body 0 infinity) club_users) as (_ & Hlng & _).
    exact (Hlng infinity eq_refl eq_refl).
  - destruct (location_update_checks_bounds 8400 alice (location_body 90.5 0)
                club_users) as (Hlat & _).
    exact (Hlat 90.5%float eq_refl eq_refl).
  - destruct (location_update_checks_bounds 8400 alice
                (location_body (-90) 180) club_users) as (_ & _ & Hok).
    destruct (Hok _ eq_refl) as (lat & lng & E & _ & _ & _ & _ & Hne & _).
    now exists lat, lng.
Defined.

Lemma nearby_query_ok lat lng radius_km la lo r :
  nearby_query lat lng radius_km = Ok (la, lo, r) ->
  lat = Param la /\ lng = Param lo
  /\ (radius_km = NoParam /\ r = 5.0%float
      \/ radius_km = Param r /\ (0 <? r)%float = true
         /\ (r <=? 200)%float = true).
Proof.
  unfold nearby_query.
  destruct lat as [| |la']; try discriminate. cbn [rbind].
  destruct lng as [| |lo']; try discriminate. cbn [rbind].
  destruct radius_km as [| |r']; try discriminate; cbn [rbind].
  - intros E. injection E as <- <- <-. repeat split. now left.
  - destruct (0 <? r')%float eqn:L0; [|discriminate].
    destruct (r' <=? 200)%float eqn:L1; [|discriminate]. cbn [andb rbind].
    intros E. injection E as <- <- <-. repeat split. right. now repeat split.
Qed.

Section NearbyBoundary.
Context {libm : Libm}.

(** X14.  [GET /nearby] rejects, without searching, a radius that is not
    greater than 0, that is greater than 200, or that is NaN, and a missing
    latitude or longitude; without a radius it searches within 5.0 km.
    Whatever it returns, every distance in the answer is at most the radius
    searched, hence at most 200, and none is NaN. *)
Theorem nearby_radius_bounds :
  forall lat lng radius_km current_user d,
    let out := nearby lat lng radius_km current_user d in
    (forall r, radius_km = Param r ->
               ((0 <? r) && (r <=? 200))%float = false ->
               out = (Raise RequestValidationError, d))
    /\ (forall la lo, lat = Param la -> lng = Param lo ->
                      radius_km = NoParam ->
                      out = nearby_search la lo 5.0 current_user d)
    /\ (forall resp, fst out = Ok resp ->
          exists la lo r,
            lat = Param la /\ lng = Param lo
            /\ out = nearby_search la lo r current_user d
            /\ (r <=? 200)%float = true
            /\ Forall (fun it =>
                         (NearbyUserItem_distance_km it <=? r)%float = true
                         /\ (NearbyUserItem_distance_km it <=? 200)%float
                            = true
                         /\ comparable (NearbyUserItem_distance_km it))
                      (NearbyResponse_items resp)).
Proof.
  intros lat lng radius_km cu d out. subst out. unfold nearby, with_body.
  cbn [fst snd]. split; [|split].
  - intros r -> B. unfold nearby_query.
    destruct lat; cbn [rbind]; try reflexivity.
    destruct lng; cbn [rbind]; try reflexivity. now rewrite B.
  - intros la lo -> -> ->. reflexivity.
  - intros resp.
    destruct (nearby_query lat lng radius_km) as [[[la lo] r]|e] eqn:Q;
      [|discriminate].
    cbn [fst snd]. intros E.
    apply nearby_query_ok in Q as (-> & -> & Hr).
    assert (R : (r <=? 200)%float = true)
      by (destruct Hr as [[_ ->]|(_ & _ & R)]; [reflexivity|exact R]).
    exists la, lo, r. repeat (split; [reflexivity || assumption|]).
    apply Forall_forall. intros it Hit.
    apply (nearby_search_member _ _ _ _ _ _ it E) in Hit
      as (row & dist & _ & _ & L & ->).
    cbn [NearbyUserItem_of_row NearbyUserItem_distance_km].
    split; [exact L|]. split.
    + now apply (float_leb_trans dist r).
    + now apply (float_leb_comparable dist r).
Qed.
End NearbyBoundary.

Lemma nearby_radius_bounds_witness :
  nearby (libm := series_libm) (Param 0%float) (Param 0%float)
         (Param 200.5%float) alice club_riders
  = (Raise RequestValidationError, club_riders)
  /\ nearby (libm := series_libm) (Param 0%float) (Param 0%float)
            (Param nan) alice club_riders
     = (Raise RequestValidationError, club_riders)
  /\ nearby (libm := series_libm) (Param 0%float) (Param 0%float) NoParam
            alice club_riders
     = nearby_search (libm := series_libm) 0 0 5.0 alice club_riders.
Proof.
  destruct (nearby_radius_bounds (libm := series_libm) (Param 0%float)
              (Param 0%float) (Param 200.5%float) alice club_riders)
    as (Hbad & _).
  destruct (nearby_radius_bounds (libm := series_libm) (Param 0%float)
              (Param 0%float) (Param nan) alice club_riders)
    as (Hnan & _).
  destruct (nearby_radius_bounds (libm := series_libm) (Param 0%float)
              (Param 0%float) NoParam alice club_riders)
    as (_ & Hdefault & _).
  split; [exact (Hbad _ eq_refl eq_refl)|].
  split; [exact (Hnan _ eq_refl eq_refl)|].
  exact (Hdefault _ _ eq_refl eq_refl eq_refl).
Defined.

(** X15.  [POST /conversations/{id}/messages] rejects a body whose text is
    empty, absent, null or not a string before the handler runs: nothing is
    written, so an empty message does not create a conversation.  Any
    non-empty text is handed to [send_message], and every message the route
    stores has a non-empty text. *)
Theorem conversations_messages_send_needs_text :
  forall msg_id now conversation_id current_user b d,
    let out := conversations_messages_send msg_id now conversation_id
                 current_user b d in
    (SendMessageBody_text b = Given "" \/ is_given (SendMessageBody_text b)
                                          = false ->
     out = (Raise RequestValidationError, d))
    /\ (forall text,
           SendMessageBody_text b = Given text -> text <> "" ->
           out = send_message msg_id now conversation_id
                   {| SendMessageRequest_text := text |} current_user d)
    /\ (forall item, fst out = Ok item ->
          MessageItem_text item <> ""
          /\ exists row, messages (snd out) = (messages d ++ [row])%list
                         /\ messages_text row = MessageItem_text item).
Proof.
  intros msg_id now cid cu b d out. subst out.
  unfold conversations_messages_send, with_body, validate_SendMessageRequest.
  split; [|split].
  - intros [E|E]; [now rewrite E|].
    now rewrite (required_not_given _ E).
  - intros text E Hne. rewrite E. cbn [required rbind]. unfold min_length.
    destruct text as [|c text]; [now elim Hne|reflexivity].
  - intros item.
    destruct (SendMessageBody_text b) as [| | |text]; try discriminate.
    cbn [required rbind]. unfold min_length.
    destruct text as [|c text]; [discriminate|].
    cbn [rbind String.length Nat.leb]. intros E.
    destruct (send_message msg_id now cid
                {| SendMessageRequest_text := String c text |} cu d)
      as [[it|e] d'] eqn:S; cbn [fst] in E; [|discriminate].
    injection E as ->.
    destruct (send_message_ok _ _ _ _ _ _ _ _ S) as (-> & _ & _ & Hd).
    cbn [snd sent_item MessageItem_text SendMessageRequest_text].
    split; [discriminate|].
    exists (sent_row msg_id now cid
              {| SendMessageRequest_text := String c text |} (users_id cu)).
    split; [|reflexivity].
    destruct Hd as [(_ & _ & ->)|(_ & _ & ->)]; reflexivity.
Qed.

Lemma conversations_messages_send_needs_text_witness :
  conversations_messages_send "m1" 7100 "c1" alice (text_body "") club_users
  = (Raise RequestValidationError, club_users)
  /\ conversations_messages_send "m1" 7100 "c1" alice
       (text_body "Hello from the road") club_users
     = send_message "m1" 7100 "c1" hello alice club_users.
Proof.
  destruct (conversations_messages_send_needs_text "m1" 7100 "c1" alice
              (text_body "") club_users) as (Hempty & _).
  destruct (conversations_messages_send_needs_text "m1" 7100 "c1" alice
              (text_body "Hello from the road") club_users)
    as (_ & Htext & _).
  split; [exact (Hempty (or_introl eq_refl))|].
  apply (Htext "Hello from the road" eq_refl). discriminate.
Defined.

(** ** The schema's constraints hold of every reachable store *)

Lemma fk_locations_kept d d' :
  locations d' = locations d -> keeps_users d d' ->
  fk_locations d = true -> fk_locations d' = true.
Proof.
  unfold fk_locations. intros -> K. apply forallb_impl. intros l. apply K.
Qed.

Lemma fk_messages_kept d d' :
  messages d' = messages d -> keeps_users d d' -> keeps_conversations d d' ->
  fk_messages d = true -> fk_messages d' = true.
Proof.
  unfold fk_messages. intros -> KU KC. apply forallb_impl. intros m Hm.
  apply andb_true_iff in Hm as [Hc Hu]. apply andb_true_iff. split; auto.
Qed.

Lemma fk_rides_kept d d' :
  rides d' = rides d -> keeps_users d d' ->
  fk_rides d = true -> fk_rides d' = true.
Proof.
  unfold fk_rides. intros -> K. apply forallb_impl. intros r.
  destruct (rides_creator_id r); [apply K|trivial].
Qed.

Lemma keeps_users_same d d' : users d' = users d -> keeps_users d d'.
Proof. intros E uid. unfold has_user. now rewrite E. Qed.

Lemma keeps_conversations_same d d' :
  conversations d' = conversations d -> keeps_conversations d d'.
Proof. intros E cid. unfold has_conversation. now rewrite E. Qed.

Lemma key_constraints_same_tables d d' :
  keeps_users d d' ->
  map users_email (users d') = map users_email (users d) ->
  locations d' = locations d -> conversations d' = conversations d ->
  conversation_participants d' = conversation_participants d ->
  messages d' = messages d -> rides d' = rides d ->
  key_constraints d -> key_constraints d'.
Proof.
  intros KU Ee El Ec Ep Em Er (UE & PC & PP & PM & PR & FL & FM & FR).
  unfold key_constraints, unique_emails, pk_conversations,
    pk_conversation_participants, participant_rows, pk_messages, pk_rides.
  rewrite Ee, Ec, Ep, Em, Er. repeat (split; [assumption|]).
  split; [now apply (fk_locations_kept d)|].
  split; [|now apply (fk_rides_kept d)].
  apply (fk_messages_kept d); auto. now apply keeps_conversations_same.
Qed.

Lemma register_key_constraints {passlib : Passlib}
  user_id salt t_users t_profiles req d :
  key_constraints d ->
  key_constraints (snd (register user_id salt t_users t_profiles req d)).
Proof.
  intros K. rewrite register_eq.
  destruct (email_taken (RegisterRequest_email req) d) eqn:T; [exact K|].
  destruct (register_fits user_id salt req); [|exact K].
  destruct (has_user user_id d || has_profile user_id d); [exact K|].
  cbn [snd].
  assert (KU : keeps_users d
                 (set_profiles
                    (profiles d ++ [default_profile user_id t_profiles req])
                    (set_users
                       (users d
                        ++ [registered_user user_id salt t_users req]) d))).
  { intros uid U.
    change (has_user uid (set_profiles ?x ?y)) with (has_user uid y).
    now apply has_user_more. }
  destruct K as (UE & PC & PP & PM & PR & FL & FM & FR).
  split; [|split; [exact PC|split; [exact PP|split; [exact PM|
    split; [exact PR|split; [|split]]]]]].
  - unfold unique_emails. cbn [users set_profiles set_users].
    now apply NoDup_app_fresh.
  - now apply (fk_locations_kept d).
  - apply (fk_messages_kept d); auto. now apply keeps_conversations_same.
  - now apply (fk_rides_kept d).
Qed.

Lemma update_me_key_constraints now req cu d :
  key_constraints d -> key_constraints (snd (update_me now req cu d)).
Proof.
  destruct (update_me_store now req cu d)
    as ((El & Ec & Ep & Em & Er) & (req' & Eu) & _).
  apply key_constraints_same_tables; auto.
  - intros uid U.
    now rewrite (has_user_synced uid (users_id cu) req' d _ Eu).
  - rewrite Eu. unfold users_synced.
    destruct (ProfileUpdateRequest_display_name req') as [v|];
      [|reflexivity].
    rewrite map_map. apply map_ext. intros u.
    now destruct (users_id u =? users_id cu).
Qed.

Lemma update_location_key_constraints now req cu d :
  key_constraints d -> key_constraints (snd (update_location now req cu d)).
Proof.
  intros K. rewrite update_location_eq.
  destruct (existsb _ (locations d)) eqn:B;
    [|destruct (has_user (users_id cu) d) eqn:U; [|exact K]]; cbn [snd];
    destruct K as (UE & PC & PP & PM & PR & FL & FM & FR);
    repeat (split; [assumption|]);
    (split; [|split; assumption]).
  - unfold fk_locations, update_where in *.
    cbn [locations set_locations]. rewrite forallb_forall in *.
    intros l Hl. apply in_map_iff in Hl as (l0 & <- & Hl0).
    change (has_user ?u (set_locations ?x ?y)) with (has_user u y).
    destruct (locations_user_id l0 =? users_id cu);
      cbn [locations_user_id location_fix]; now apply FL.
  - unfold fk_locations in *. cbn [locations set_locations].
    rewrite forallb_app. apply andb_true_iff. split; [exact FL|].
    cbn [forallb locations_user_id location_fix].
    change (has_user ?u (set_locations ?x ?y)) with (has_user u y).
    now rewrite U.
Qed.

Lemma create_ride_key_constraints ride_id now cu req d :
  key_constraints d -> key_constraints (snd (create_ride ride_id now cu req d)).
Proof.
  intros K. rewrite create_ride_eq.
  destruct (fits 36 ride_id && ride_request_fits req); [|exact K].
  destruct (has_ride ride_id d) eqn:R; [exact K|].
  destruct (has_user (users_id cu) d) eqn:U; [|exact K]. cbn [orb negb snd].
  destruct K as (UE & PC & PP & PM & PR & FL & FM & FR).
  repeat (split; [assumption|]).
  split; [|split; [assumption|split; [assumption|]]].
  - unfold pk_rides. cbn [rides set_rides]. now apply NoDup_app_fresh.
  - unfold fk_rides in *. cbn [rides set_rides].
    rewrite forallb_app. apply andb_true_iff. split; [exact FR|].
    cbn [forallb rides_creator_id stored_ride].
    change (has_user ?u (set_rides ?x ?y)) with (has_user u y).
    now rewrite U.
Qed.

Lemma send_message_key_constraints msg_id now cid req cu d :
  key_constraints d ->
  key_constraints (snd (send_message msg_id now cid req cu d)).
Proof.
  intros K.
  destruct (send_message msg_id now cid req cu d) as [[item|e] d'] eqn:S.
  2:{ rewrite send_message_eq in S. cbn [snd].
      destruct (has_conversation cid d).
      - destruct (is_participant cid (users_id cu) d);
          [|now injection S as _ <-].
        destruct (fits 36 msg_id); [|now injection S as _ <-].
        destruct (has_message msg_id d || negb (has_user (users_id cu) d));
          [now injection S as _ <-|discriminate].
      - destruct (fits 36 cid && fits 36 msg_id);
          [|now injection S as _ <-].
        destruct (is_participant cid (users_id cu) d
                  || negb (has_user (users_id cu) d) || has_message msg_id d);
          [now injection S as _ <-|discriminate]. }
  cbn [snd].
  apply send_message_ok in S as (_ & M & U & Hd).
  destruct K as (UE & PC & PP & PM & PR & FL & FM & FR).
  set (me_id := users_id cu) in *.
  set (row := sent_row msg_id now cid req me_id) in *.
  destruct Hd as [(Hc & P & ->)|(Hc & P & ->)].
  - repeat (split; [assumption|]).
    split; [|split; [assumption|split; [assumption|split; [|assumption]]]].
    + unfold pk_messages. cbn [messages set_messages].
      now apply NoDup_app_fresh.
    + unfold fk_messages in *. cbn [messages set_messages].
      rewrite forallb_app. apply andb_true_iff. split; [exact FM|].
      cbn [forallb messages_conversation_id messages_sender_id row sent_row].
      change (has_user ?u (set_messages ?x ?y)) with (has_user u y).
      change (has_conversation ?c (set_messages ?x ?y))
        with (has_conversation c y).
      now rewrite Hc, U.
  - assert (KC : forall c,
               has_conversation c
                 (set_messages (messages d ++ [row])
                               (conversation_opened cid now me_id d))
               = has_conversation c d || (cid =? c)).
    { intros c. unfold conversation_opened.
      change (has_conversation c (set_messages ?x ?y))
        with (has_conversation c y).
      change (has_conversation c (set_conversation_participants ?x ?y))
        with (has_conversation c y).
      now rewrite has_conversation_app_one. }
    split; [exact UE|]. split; [|split; [|split; [|split; [exact PR|
      split; [exact FL|split; [|exact FR]]]]]].
    + unfold pk_conversations, conversation_opened.
      cbn [conversations set_messages set_conversation_participants
           set_conversations].
      now apply NoDup_app_fresh.
    + intros c u. unfold participant_rows, conversation_opened.
      cbn [conversation_participants set_messages
           set_conversation_participants].
      rewrite filter_app, length_app. specialize (PP c u).
      unfold participant_rows in PP. simpl.
      destruct ((cid =? c) && (me_id =? u)) eqn:E; simpl; [|lia].
      apply andb_true_iff in E as [Ec Eu].
      apply String.eqb_eq in Ec, Eu. subst c u.
      rewrite filter_none; [simpl; lia|exact P].
    + unfold pk_messages. cbn [messages set_messages].
      now apply NoDup_app_fresh.
    + unfold fk_messages in *. cbn [messages set_messages].
      rewrite forallb_app. apply andb_true_iff. split.
      * revert FM. apply forallb_impl. intros m Hm.
        apply andb_true_iff in Hm as [Hmc Hmu].
        rewrite KC, Hmc. exact Hmu.
      * cbn [forallb messages_conversation_id messages_sender_id row
             sent_row].
        rewrite KC, String.eqb_refl, orb_true_r.
        change (has_user me_id (set_messages ?x ?y)) with (has_user me_id d).
        now rewrite U.
Qed.

Lemma reachable_key_constraints d : reachable d -> key_constraints d.
Proof.
  induction 1.
  - unfold key_constraints, unique_emails, pk_conversations, pk_messages,
      pk_rides. simpl.
    split; [constructor|split; [constructor|split; [|split; [constructor|
      split; [constructor|now repeat split]]]]].
    intros c u. apply le_0_n.
  - now apply register_key_constraints.
  - now apply update_me_key_constraints.
  - now apply update_location_key_constraints.
  - now apply send_message_key_constraints.
  - now apply create_ride_key_constraints.
Qed.

(** X16.  Every store that the handlers can produce from the empty one
    satisfies the constraints the schema declares: primary keys, the unique
    email, and foreign keys.  No handler ever commits a row that a key
    forbids. *)
Theorem reachable_schema_constraints :
  forall d, reachable d -> schema_constraints d.
Proof.
  intros d R. split; [|split].
  - now apply reachable_integrity.
  - now apply reachable_primary_keys.
  - now apply reachable_key_constraints.
Qed.

Lemma reachable_schema_constraints_witness :
  schema_constraints
    (snd (send_message "m1" 7100 "c1" hello
            {| users_id := "u-dave"; users_email := "dave@example.org";
               users_password_hash := "pedals";
               users_display_name := Some "Dave";
               users_created_at := 4000 |}
            (snd (register (passlib := plain_passlib) "u-dave" "salt"
                           4000 4001 dave_request empty_db)))).
Proof.
  apply reachable_schema_constraints.
  apply reachable_send_message, reachable_register, reachable_empty.
Defined.

(** ** A location update, then a search *)

Section NearbyAfterUpdate.
Context {libm : Libm}.

(** X17.  After a user's [update_location] succeeded, a search by any other
    user sees that user at the new fix and nowhere else: every item about
    the user carries the distance to the coordinates just stored, and when
    that distance is within the radius the user is in the answer. *)
Theorem nearby_search_after_update_location :
  forall now req mover lat lng radius_km seeker d resp,
    let d' := snd (update_location now req mover d) in
    users_id mover <> users_id seeker ->
    has_user (users_id mover) d = true ->
    fst (update_location now req mover d) = Ok ok_response ->
    fst (nearby_search lat lng radius_km seeker d') = Ok resp ->
    (forall it, In it (NearbyResponse_items resp) ->
                NearbyUserItem_user_id it = users_id mover ->
                _haversine_km lat lng (LocationUpdateRequest_lat req)
                              (LocationUpdateRequest_lng req)
                = Ok (NearbyUserItem_distance_km it))
    /\ (forall dist,
           _haversine_km lat lng (LocationUpdateRequest_lat req)
                         (LocationUpdateRequest_lng req) = Ok dist ->
           (dist <=? radius_km)%float = true ->
           exists it, In it (NearbyResponse_items resp)
                      /\ NearbyUserItem_user_id it = users_id mover
                      /\ NearbyUserItem_distance_km it = dist).
Proof.
  intros now req mover lat lng radius_km seeker d resp d' Hne U Eu En.
  destruct (update_location_own_rows _ _ _ _ Eu) as [Hrows Hall].
  fold d' in Hrows, Hall. rewrite Forall_forall in Hall.
  assert (M := fun it => nearby_search_member _ _ _ _ _ _ it En).
  split.
  - intros it Hit Eid. apply M in Hit as (r & dist & Hr & Hd & _ & ->).
    apply nearby_select_rows in Hr as (u & l & _ & _ & Hl & El & Hp).
    assert (Er : nearby_row_user_id r = users_id u
                 /\ nearby_row_lat r = locations_lat l
                 /\ nearby_row_lng r = locations_lng l)
      by (destruct Hp as [[_ ->]|(p & _ & _ & ->)]; now repeat split).
    destruct Er as (E1 & E2 & E3).
    cbn [NearbyUserItem_of_row NearbyUserItem_user_id] in Eid.
    assert (Hfix : l = location_fix (users_id mover) req now).
    { apply Hall. apply filter_In. split; [exact Hl|].
      apply String.eqb_eq. congruence. }
    rewrite E2, E3, Hfix in Hd. exact Hd.
  - intros dist Hd L.
    apply existsb_exists in U as (u & Hu & Eu').
    apply String.eqb_eq in Eu'.
    assert (Hu' : In u (users d'))
      by (unfold d'; now rewrite update_location_users).
    set (l := location_fix (users_id mover) req now).
    assert (Hl : In l (locations d')).
    { destruct (locations_of (users_id mover) d') as [|l0 ls] eqn:F;
        [now elim Hrows|].
      assert (Hin : In l0 (locations_of (users_id mover) d'))
        by (rewrite F; now left).
      unfold l. rewrite <- (Hall l0 (or_introl eq_refl)).
      unfold locations_of in Hin. now apply filter_In in Hin as [Hin _]. }
    assert (Hr : exists pace bike_type,
               In (joined_row u l pace bike_type)
                  (nearby_select (users_id seeker) d')).
    { destruct (has_profile (users_id u) d') eqn:P.
      - apply existsb_exists in P as (p & Hp & Ep).
        apply String.eqb_eq in Ep.
        exists (profiles_pace p), (profiles_bike_type p).
        apply nearby_select_rows. exists u, l.
        split; [exact Hu'|]. split; [congruence|]. split; [exact Hl|].
        split; [now symmetry|]. right. now exists p.
      - exists None, None. apply nearby_select_rows. exists u, l.
        split; [exact Hu'|]. split; [congruence|]. split; [exact Hl|].
        split; [now symmetry|]. now left. }
    destruct Hr as (pace & bike_type & Hr).
    exists (NearbyUserItem_of_row (joined_row u l pace bike_type) dist).
    split; [|split; [exact Eu'|reflexivity]].
    apply M. now exists (joined_row u l pace bike_type), dist.
Qed.
End NearbyAfterUpdate.

Lemma nearby_search_after_update_location_witness :
  let d' := snd (update_location 8500 fix_origin bob club_riders) in
  exists it,
    In it (NearbyResponse_items
             (match fst (nearby_search (libm := series_libm) 0 0 1 alice d')
              with
              | Ok resp => resp
              | Raise _ => {| NearbyResponse_items := [] |}
              end))
    /\ NearbyUserItem_user_id it = "u-bob"
    /\ NearbyUserItem_distance_km it = 0%float.
Proof.
  intros d'.
  refine (proj2 (nearby_search_after_update_location (libm := series_libm)
                   8500 fix_origin bob 0 0 1 alice club_riders _ _ eq_refl
                   eq_refl _)
                0%float _ _).
  - discriminate.
  - vm_compute. reflexivity.
  - vm_compute. reflexivity.
  - vm_compute. reflexivity.
Defined.

(** ** The allowed origins *)

Lemma lstrip_all_space s : all_chars isspace s = true -> lstrip s = "".
Proof.
  induction s as [|c s IH]; simpl; [reflexivity|].
  intros A. apply andb_true_iff in A as [Hc A]. rewrite Hc. now apply IH.
Qed.

Lemma lstrip_all_chars f s :
  all_chars f s = true -> all_chars f (lstrip s) = true.
Proof.
  induction s as [|c s IH]; simpl; [reflexivity|]. intros A.
  destruct (isspace c); [|exact A].
  apply andb_true_iff in A as [_ A]. now apply IH.
Qed.

Lemma rstrip_all_chars f s :
  all_chars f s = true -> all_chars f (rstrip s) = true.
Proof.
  induction s as [|c s IH]; simpl; [reflexivity|]. intros A.
  apply andb_true_iff in A as [Hc A]. specialize (IH A).
  destruct (rstrip s) as [|c' t].
  - destruct (isspace c); simpl; [reflexivity|]. now rewrite Hc.
  - simpl in *. now rewrite Hc, IH.
Qed.

Lemma strip_all_chars f s :
  all_chars f s = true -> all_chars f (strip s) = true.
Proof. intros A. now apply rstrip_all_chars, lstrip_all_chars. Qed.

Lemma lstrip_starts_clean s : starts_clean (lstrip s) = true.
Proof.
  induction s as [|c s IH]; simpl; [reflexivity|].
  destruct (isspace c) eqn:Hc; [exact IH|]. simpl. now rewrite Hc.
Qed.

Lemma lstrip_clean s : starts_clean s = true -> lstrip s = s.
Proof.
  destruct s as [|c s]; simpl; [reflexivity|].
  intros Hc. apply negb_true_iff in Hc. now rewrite Hc.
Qed.

Lemma rstrip_starts_clean s :
  starts_clean s = true -> starts_clean (rstrip s) = true.
Proof.
  destruct s as [|c s]; simpl; [reflexivity|]. intros Hc.
  destruct (rstrip s).
  - apply negb_true_iff in Hc. rewrite Hc. simpl. now rewrite Hc.
  - exact Hc.
Qed.

Lemma rstrip_idempotent s : rstrip (rstrip s) = rstrip s.
Proof.
  induction s as [|c s IH]; simpl; [reflexivity|].
  destruct (rstrip s) as [|c' t] eqn:R.
  - destruct (isspace c) eqn:Hc; simpl; [reflexivity|]. now rewrite Hc.
  - simpl. simpl in IH. now rewrite IH.
Qed.

Lemma strip_idempotent s : strip (strip s) = strip s.
Proof.
  unfold strip.
  rewrite (lstrip_clean (rstrip (lstrip s))).
  - apply rstrip_idempotent.
  - apply rstrip_starts_clean, lstrip_starts_clean.
Qed.

Lemma split_comma_pieces f s :
  all_chars (fun c => is_comma c || f c) s = true ->
  Forall (fun piece => all_chars f piece = true) (split_comma s).
Proof.
  induction s as [|c s IH]; simpl; intros A.
  - now repeat constructor.
  - apply andb_true_iff in A as [Hc A]. specialize (IH A).
    destruct (is_comma c); [now constructor|]. simpl in Hc.
    destruct (split_comma s) as [|piece pieces].
    + constructor; [|constructor]. simpl. now rewrite Hc.
    + inversion IH as [|? ? Hp Hps]; subst. constructor; [|exact Hps].
      simpl. now rewrite Hc, Hp.
Qed.

Lemma all_chars_comma_or_not s :
  all_chars (fun c => is_comma c || negb (is_comma c)) s = true.
Proof.
  induction s as [|c s IH]; simpl; [reflexivity|].
  rewrite IH. now destruct (is_comma c).
Qed.

(** X18.  The allow list of the CORS middleware: an unset, empty or blank
    [CORS_ALLOW_ORIGINS] allows every origin ("*"); otherwise the list holds
    the comma-separated entries, none of them empty, none with a comma, and
    none with a space at either end; and a value made of commas and spaces
    only, with at least one comma, allows no origin at all. *)
Theorem allow_origins_entries :
  forall CORS_ALLOW_ORIGINS,
    let raw := strip (match CORS_ALLOW_ORIGINS with
                      | Some s => s
                      | None => ""
                      end) in
    (raw = "" -> allow_origins CORS_ALLOW_ORIGINS = ["*"])
    /\ (raw <> "" ->
        Forall (fun o => o <> "" /\ strip o = o
                         /\ all_chars (fun c => negb (is_comma c)) o = true)
               (allow_origins CORS_ALLOW_ORIGINS))
    /\ (raw <> "" ->
        all_chars (fun c => is_comma c || isspace c) raw = true ->
        allow_origins CORS_ALLOW_ORIGINS = []).
Proof.
  intros v raw. unfold allow_origins. fold raw.
  split; [|split].
  - intros ->. reflexivity.
  - intros Hne. apply String.eqb_neq in Hne. rewrite Hne.
    apply Forall_forall. intros o Ho.
    apply in_map_iff in Ho as (piece & <- & Hp).
    apply filter_In in Hp as [Hp Hs].
    apply negb_true_iff in Hs. apply String.eqb_neq in Hs.
    split; [exact Hs|]. split; [apply strip_idempotent|].
    apply strip_all_chars.
    assert (F := split_comma_pieces (fun c => negb (is_comma c)) raw
                   (all_chars_comma_or_not raw)).
    rewrite Forall_forall in F. now apply F.
  - intros Hne A. apply String.eqb_neq in Hne. rewrite Hne.
    assert (F := split_comma_pieces isspace raw A).
    induction F as [|piece pieces Hp _ IH]; simpl; [reflexivity|].
    assert (E : strip piece = "")
      by (unfold strip; now rewrite (lstrip_all_space _ Hp)).
    rewrite E. simpl. exact IH.
Qed.

Lemma allow_origins_entries_witness :
  allow_origins (Some " https://a.example , ,https://b.example,")
  = ["https://a.example"; "https://b.example"]
  /\ allow_origins (Some " , ,") = []
  /\ allow_origins (Some "   ") = ["*"].
Proof.
  split; [reflexivity|]. split.
  - destruct (allow_origins_entries (Some " , ,")) as (_ & _ & Hnone).
    apply Hnone; [discriminate|reflexivity].
  - destruct (allow_origins_entries (Some "   ")) as (Hall & _).
    now apply Hall.
Defined.

(** ** The cached sessionmaker *)

Section SessionmakerCache.
Context {sqlalchemy : SQLAlchemy}.

Lemma sessionmaker_after_cached urls made :
  sessionmaker_after urls (Some made) = Some made.
Proof. induction urls as [|url urls IH]; simpl; [reflexivity|exact IH]. Qed.

(** X19.  [get_sessionmaker] raises [RuntimeError] when nothing is cached
    and [DATABASE_URL] is unset or empty, and a call that raises caches
    nothing, so a later call can still succeed.  Once a call has returned a
    sessionmaker, every later call returns that same one, bound to the
    engine of the first URL, whatever [DATABASE_URL] has become since, even
    unset. *)
Theorem get_sessionmaker_caches_first_engine :
  forall url cache,
    (cache = None -> url = None \/ url = Some "" ->
     get_sessionmaker url cache = (Raise RuntimeError, None))
    /\ (forall e, fst (get_sessionmaker url cache) = Raise e ->
                  cache = None /\ snd (get_sessionmaker url cache) = None)
    /\ (forall made,
          fst (get_sessionmaker url cache) = Ok made ->
          (cache = None ->
           exists database_url,
             url = Some database_url /\ database_url <> ""
             /\ create_engine database_url = Ok (bind_engine made))
          /\ forall urls url',
               get_sessionmaker url'
                 (sessionmaker_after urls (snd (get_sessionmaker url cache)))
               = (Ok made, Some made)).
Proof.
  intros url cache. split; [|split].
  - intros -> [-> | ->]; reflexivity.
  - intros e. unfold get_sessionmaker.
    destruct cache as [cached|]; [discriminate|].
    destruct (get_engine url); [discriminate|]. now split.
  - intros made E. split.
    + intros ->. unfold get_sessionmaker, get_engine in E.
      destruct url as [database_url|]; [|discriminate].
      destruct (String.eqb_spec database_url "") as [|N]; [discriminate|].
      destruct (create_engine database_url) as [engine|] eqn:C;
        [|discriminate].
      injection E as <-. exists database_url. now repeat split.
    + intros urls url'.
      assert (S : snd (get_sessionmaker url cache) = Some made).
      { unfold get_sessionmaker in *. destruct cache as [cached|].
        - now injection E as <-.
        - destruct (get_engine url); [|discriminate]. now injection E as <-. }
      now rewrite S, sessionmaker_after_cached.
Qed.
End SessionmakerCache.

Lemma get_sessionmaker_caches_first_engine_witness :
  let first := get_sessionmaker (sqlalchemy := url_engine)
                 (Some "postgresql://db/bikes") None in
  get_sessionmaker (sqlalchemy := url_engine) None None
  = (Raise RuntimeError, None)
  /\ get_sessionmaker (sqlalchemy := url_engine) None
       (sessionmaker_after [Some "postgresql://other/db"; None] (snd first))
     = first.
Proof.
  intros first.
  destruct (get_sessionmaker_caches_first_engine (sqlalchemy := url_engine)
              None None) as (Hunset & _).
  destruct (get_sessionmaker_caches_first_engine (sqlalchemy := url_engine)
              (Some "postgresql://db/bikes") None) as (_ & _ & Hmade).
  split; [exact (Hunset eq_refl (or_introl eq_refl))|].
  exact (proj2 (Hmade _ eq_refl) [Some "postgresql://other/db"; None] None).
Defined.

(** ** Nothing is deleted or rewritten *)

Lemma extends_refl {A} (l : list A) : extends l l.
Proof. exists []. now rewrite app_nil_r. Qed.

Lemma extends_same {A} (l l' : list A) : l' = l -> extends l l'.
Proof. intros ->. apply extends_refl. Qed.

Lemma extends_one {A} (l : list A) (x : A) : extends l (l ++ [x]).
Proof. now exists [x]. Qed.

Lemma extends_trans {A} (l1 l2 l3 : list A) :
  extends l1 l2 -> extends l2 l3 -> extends l1 l3.
Proof.
  intros [m1 ->] [m2 ->]. exists (m1 ++ m2)%list. now rewrite app_assoc.
Qed.

Lemma extends_in {A} (l l' : list A) (x : A) :
  extends l l' -> In x l -> In x l'.
Proof. intros [m ->] Hx. apply in_or_app. now left. Qed.

Lemma history_kept_refl d : history_kept d d.
Proof. repeat split; apply extends_refl. Qed.

Lemma history_kept_trans d1 d2 d3 :
  history_kept d1 d2 -> history_kept d2 d3 -> history_kept d1 d3.
Proof.
  intros (A1 & A2 & A3 & A4 & A5 & A6 & A7) (B1 & B2 & B3 & B4 & B5 & B6 & B7).
  repeat split; eapply extends_trans; eassumption.
Qed.

Lemma register_history {passlib : Passlib}
  user_id salt t_users t_profiles req d :
  history_kept d (snd (register user_id salt t_users t_profiles req d)).
Proof.
  rewrite register_eq.
  destruct (email_taken (RegisterRequest_email req) d);
    [apply history_kept_refl|].
  destruct (register_fits user_id salt req); [|apply history_kept_refl].
  destruct (has_user user_id d || has_profile user_id d);
    [apply history_kept_refl|].
  cbn [snd]. unfold history_kept.
  cbn [users messages rides conversations conversation_participants
       set_profiles set_users].
  rewrite !map_app.
  repeat split; try apply extends_refl; apply extends_one.
Qed.

Lemma update_me_history now req cu d :
  history_kept d (snd (update_me now req cu d)).
Proof.
  destruct (update_me_store now req cu d)
    as ((_ & Ec & Ep & Em & Er) & (req' & Eu) & _).
  assert (K : forall {B} (f : users_row -> B),
             (forall v u, f (users_set_display_name v u) = f u) ->
             map f (users_synced (users_id cu) req' (users d))
             = map f (users d)).
  { intros B f Hf. unfold users_synced.
    destruct (ProfileUpdateRequest_display_name req') as [v|];
      [|reflexivity].
    rewrite map_map. apply map_ext. intros u.
    destruct (users_id u =? users_id cu); [apply Hf|reflexivity]. }
  unfold history_kept. rewrite Ec, Ep, Em, Er, Eu.
  rewrite !K by reflexivity. repeat split; apply extends_refl.
Qed.

Lemma update_location_history now req cu d :
  history_kept d (snd (update_location now req cu d)).
Proof.
  rewrite update_location_eq.
  destruct (existsb _ (locations d)); [|destruct (has_user (users_id cu) d)];
    cbn [snd]; repeat split; apply extends_refl.
Qed.

Lemma create_ride_history ride_id now cu req d :
  history_kept d (snd (create_ride ride_id now cu req d)).
Proof.
  rewrite create_ride_eq.
  destruct (fits 36 ride_id && ride_request_fits req);
    [|apply history_kept_refl].
  destruct (has_ride ride_id d || negb (has_user (users_id cu) d));
    [apply history_kept_refl|].
  cbn [snd]. repeat split; try apply extends_refl. apply extends_one.
Qed.

Lemma send_message_history msg_id now cid req cu d :
  history_kept d (snd (send_message msg_id now cid req cu d)).
Proof.
  rewrite send_message_eq.
  destruct (has_conversation cid d).
  - destruct (is_participant cid (users_id cu) d);
      [|apply history_kept_refl].
    destruct (fits 36 msg_id); [|apply history_kept_refl].
    destruct (has_message msg_id d || negb (has_user (users_id cu) d));
      [apply history_kept_refl|].
    cbn [snd]. repeat split; try apply extends_refl. apply extends_one.
  - destruct (fits 36 cid && fits 36 msg_id); [|apply history_kept_refl].
    destruct (is_participant cid (users_id cu) d
              || negb (has_user (users_id cu) d) || has_message msg_id d);
      [apply history_kept_refl|].
    cbn [snd]. repeat split; try apply extends_refl; apply extends_one.
Qed.

Lemma evolves_history d0 d : evolves d0 d -> history_kept d0 d.
Proof.
  induction 1.
  - apply history_kept_refl.
  - eapply history_kept_trans; [eassumption|apply register_history].
  - eapply history_kept_trans; [eassumption|apply update_me_history].
  - eapply history_kept_trans; [eassumption|apply update_location_history].
  - eapply history_kept_trans; [eassumption|apply send_message_history].
  - eapply history_kept_trans; [eassumption|apply create_ride_history].
Qed.

Lemma existsb_extends {A B} (f : A -> B) (g : B -> bool) (l l' : list A) :
  extends (map f l) (map f l') ->
  existsb (fun x => g (f x)) l = true -> existsb (fun x => g (f x)) l' = true.
Proof.
  intros [more E]. rewrite !existsb_exists.
  intros (x & Hx & Gx).
  assert (Hin : In (f x) (map f l'))
    by (rewrite E; apply in_or_app; left; now apply in_map).
  apply in_map_iff in Hin as (y & Ey & Hy). exists y. split; [exact Hy|].
  now rewrite Ey.
Qed.

(** X20.  No handler deletes or rewrites a message, a ride, a conversation
    or a participant row, or changes the id, email or password hash of a
    user: through any run of handler calls these are only added to.  So a
    message or ride that was stored stays as it was, a participant is never
    locked out of a conversation, and an email that was registered stays
    taken: registering it again is a 409 at any later time. *)
Theorem handlers_only_append :
  forall d d',
    evolves d d' ->
    history_kept d d'
    /\ (forall m, In m (messages d) -> In m (messages d'))
    /\ (forall r, In r (rides d) -> In r (rides d'))
    /\ (forall cid viewer,
          is_participant cid (users_id viewer) d = true ->
          fst (get_messages cid viewer d') <> Raise forbidden)
    /\ (forall (passlib : Passlib) user_id salt t_users t_profiles req,
          email_taken (RegisterRequest_email req) d = true ->
          register user_id salt t_users t_profiles req d'
          = (Raise (HTTPException 409 "Email already registered"), d')).
Proof.
  intros d d' E. apply evolves_history in E.
  split; [exact E|].
  destruct E as (Hm & Hr & _ & Hp & _ & He & _).
  split; [|split; [|split]].
  - intros m. now apply extends_in.
  - intros r. now apply extends_in.
  - intros cid viewer P. rewrite get_messages_eq.
    assert (P' : is_participant cid (users_id viewer) d' = true).
    { apply is_participant_iff in P as (p & Hin & E1 & E2).
      apply is_participant_iff. exists p.
      split; [now apply (extends_in _ _ _ Hp)|now split]. }
    rewrite P'. discriminate.
  - intros passlib user_id salt t_users t_profiles req T.
    rewrite register_eq.
    assert (T' : email_taken (RegisterRequest_email req) d' = true).
    { unfold email_taken in *.
      apply (existsb_extends users_email
               (fun e => e =? RegisterRequest_email req) _ _ He T). }
    now rewrite T'.
Qed.

Lemma handlers_only_append_witness :
  let d' := snd (update_me 9000 rename_carol carol
              (snd (send_message "m4" 7300 "c1" hello bob club_chat))) in
  fst (get_messages "c1" alice d') <> Raise forbidden
  /\ register (passlib := plain_passlib) "u-new" "salt" 9500 9501
       {| RegisterRequest_email := "carol@example.org";
          RegisterRequest_password := "pedals";
          RegisterRequest_display_name := None |} d'
     = (Raise (HTTPException 409 "Email already registered"), d').
Proof.
  intros d'.
  destruct (handlers_only_append club_chat d') as (_ & _ & _ & Hread & Htaken).
  { apply evolves_update_me, evolves_send_message, evolves_refl. }
  split.
  - apply Hread. reflexivity.
  - apply Htaken. reflexivity.
Defined.

(** ** The lengths of the columns *)

Lemma forallb_app_one {A} (f : A -> bool) (l : list A) (x : A) :
  forallb f l = true -> f x = true -> forallb f (l ++ [x]) = true.
Proof.
  intros Hl Hx. rewrite forallb_app, Hl. cbn [forallb andb].
  now rewrite Hx.
Qed.

Lemma forallb_map_if {A} (f c : A -> bool) (g : A -> A) (l : list A) :
  (forall x, f x = true -> f (g x) = true) ->
  forallb f l = true ->
  forallb f (map (fun x => if c x then g x else x) l) = true.
Proof.
  intros Hg. rewrite !forallb_forall. intros Hl y Hy.
  apply in_map_iff in Hy as (x & <- & Hx).
  destruct (c x); auto.
Qed.

Lemma has_user_fits uid d :
  forallb users_fit (users d) = true -> has_user uid d = true ->
  fits 36 uid = true.
Proof.
  unfold has_user. rewrite forallb_forall. intros F U.
  apply existsb_exists in U as (u & Hu & E). apply String.eqb_eq in E.
  subst uid. specialize (F u Hu). unfold users_fit in F.
  now repeat (apply andb_true_iff in F; destruct F as [F _]).
Qed.

Lemma has_conversation_fits cid d :
  forallb conversations_fit (conversations d) = true ->
  has_conversation cid d = true -> fits 36 cid = true.
Proof.
  unfold has_conversation. rewrite forallb_forall. intros F C.
  apply existsb_exists in C as (c & Hc & E). apply String.eqb_eq in E.
  subst cid. exact (F c Hc).
Qed.

Lemma supplied_fits {n} (new old : option string) :
  fits_null n new = true -> fits_null n old = true ->
  fits_null n (supplied new old) = true.
Proof. now destruct new. Qed.

Lemma updated_profile_fits req now p :
  profile_request_fits req = true ->
  profiles_fit p && fits 36 (profiles_user_id p) = true ->
  profiles_fit (updated_profile req now p)
  && fits 36 (profiles_user_id (updated_profile req now p)) = true.
Proof.
  unfold profile_request_fits, profiles_fit. intros W F.
  cbn [updated_profile profiles_display_name profiles_pace
       profiles_bike_type profiles_looking_for profiles_home_base
       profiles_user_id].
  repeat (apply andb_true_iff in W; destruct W as [W ?]).
  apply andb_true_iff in F as [F Fi].
  repeat (apply andb_true_iff in F; destruct F as [F ?]).
  rewrite Fi, !supplied_fits by assumption. reflexivity.
Qed.

Lemma users_synced_fit me req us :
  (forall v, ProfileUpdateRequest_display_name req = Some v ->
             fits 120 v = true) ->
  forallb users_fit us = true ->
  forallb users_fit (users_synced me req us) = true.
Proof.
  intros Wv F. unfold users_synced.
  destruct (ProfileUpdateRequest_display_name req) as [v|]; [|exact F].
  apply forallb_map_if; [|exact F].
  intros u. unfold users_fit.
  cbn [users_set_display_name users_id users_email users_password_hash
       users_display_name fits_null].
  intros Fu. apply andb_true_iff in Fu as [Fu _].
  now rewrite Fu, (Wv v eq_refl).
Qed.

Lemma register_lengths {passlib : Passlib}
  user_id salt t_users t_profiles req d :
  lengths_kept d ->
  lengths_kept (snd (register user_id salt t_users t_profiles req d)).
Proof.
  intros L. rewrite register_eq.
  destruct (email_taken (RegisterRequest_email req) d); [exact L|].
  destruct (register_fits user_id salt req) eqn:W; [|exact L].
  destruct (has_user user_id d || has_profile user_id d); [exact L|].
  destruct (register_fits_rows user_id salt t_users t_profiles req)
    as [Eu Ep].
  destruct L as (LU & LP & LL & LC & LCP & LM & LR). cbn [snd].
  split; [|split; [|now repeat split]].
  - cbn [users set_profiles set_users]. apply forallb_app_one; [exact LU|].
    now rewrite Eu.
  - cbn [profiles set_profiles set_users].
    apply forallb_app_one; [exact LP|].
    rewrite (Ep W). cbn [andb profiles_user_id default_profile].
    unfold register_fits in W.
    now repeat (apply andb_true_iff in W; destruct W as [W _]).
Qed.

Lemma update_me_lengths now req cu d :
  lengths_kept d -> lengths_kept (snd (update_me now req cu d)).
Proof.
  intros L. rewrite update_me_eq.
  destruct (profile_request_fits req) eqn:W; [|exact L].
  assert (Wv : forall v, ProfileUpdateRequest_display_name req = Some v ->
                         fits 120 v = true)
    by (intros v; now apply profile_request_fits_display_name).
  destruct L as (LU & LP & LL & LC & LCP & LM & LR).
  destruct (select_profile (users_id cu) d) as [p|];
    [|destruct (has_user (users_id cu) d) eqn:U;
      [|now repeat split]]; cbn [snd];
    (split; [|split; [|now repeat split]]).
  - cbn [users set_users]. now apply users_synced_fit.
  - cbn [profiles set_users set_profiles].
    apply forallb_map_if; [|exact LP].
    intros q. now apply updated_profile_fits.
  - cbn [users set_users]. now apply users_synced_fit.
  - cbn [profiles set_users set_profiles].
    apply forallb_app_one; [exact LP|].
    change (profiles_fit (created_profile (users_id cu) req now))
      with (profile_request_fits req).
    rewrite W. cbn [andb profiles_user_id created_profile].
    now apply (has_user_fits _ d).
Qed.

Lemma update_location_lengths now req cu d :
  lengths_kept d -> lengths_kept (snd (update_location now req cu d)).
Proof.
  intros L. rewrite update_location_eq.
  destruct L as (LU & LP & LL & LC & LCP & LM & LR).
  destruct (existsb _ (locations d));
    [|destruct (has_user (users_id cu) d) eqn:U; [|now repeat split]];
    cbn [snd]; (split; [exact LU|split; [exact LP|split;
      [|now repeat split]]]); cbn [locations set_locations].
  - unfold update_where. apply forallb_map_if; [|exact LL]. now intros l.
  - apply forallb_app_one; [exact LL|].
    cbn [locations_user_id location_fix]. now apply (has_user_fits _ d).
Qed.

Lemma create_ride_lengths ride_id now cu req d :
  lengths_kept d -> lengths_kept (snd (create_ride ride_id now cu req d)).
Proof.
  intros L. rewrite create_ride_eq.
  destruct (fits 36 ride_id && ride_request_fits req) eqn:W; [|exact L].
  destruct (has_ride ride_id d); [exact L|].
  destruct (has_user (users_id cu) d) eqn:U; [|exact L].
  destruct L as (LU & LP & LL & LC & LCP & LM & LR). cbn [orb negb snd].
  repeat (split; [assumption|]). cbn [rides set_rides].
  apply forallb_app_one; [exact LR|].
  assert (F : rides_fit (stored_ride ride_id now (users_id cu) req)
              = fits 36 ride_id && ride_request_fits req)
    by (unfold rides_fit, ride_request_fits; cbn [stored_ride rides_id
          rides_title rides_date rides_time rides_pace rides_start];
        now destruct (fits 36 ride_id)).
  rewrite F, W. cbn [andb rides_creator_id stored_ride fits_null].
  now apply (has_user_fits _ d).
Qed.

Lemma send_message_lengths msg_id now cid req cu d :
  lengths_kept d ->
  lengths_kept (snd (send_message msg_id now cid req cu d)).
Proof.
  intros L. rewrite send_message_eq.
  destruct L as (LU & LP & LL & LC & LCP & LM & LR).
  destruct (has_conversation cid d) eqn:Hc.
  - destruct (is_participant cid (users_id cu) d); [|now repeat split].
    destruct (fits 36 msg_id) eqn:Wm; [|now repeat split].
    destruct (has_message msg_id d); [now repeat split|].
    destruct (has_user (users_id cu) d) eqn:U; [|now repeat split].
    cbn [orb negb snd]. repeat (split; [assumption|]).
    split; [|exact LR]. cbn [messages set_messages].
    apply forallb_app_one; [exact LM|].
    unfold messages_fit.
    cbn [sent_row messages_id messages_conversation_id messages_sender_id].
    now rewrite Wm, (has_conversation_fits _ d LC Hc),
      (has_user_fits _ d LU U).
  - destruct (fits 36 cid && fits 36 msg_id) eqn:W; [|now repeat split].
    apply andb_true_iff in W as [Wc Wm].
    destruct (is_participant cid (users_id cu) d); [now repeat split|].
    destruct (has_user (users_id cu) d) eqn:U; [|now repeat split].
    destruct (has_message msg_id d); [now repeat split|].
    cbn [orb negb snd]. unfold conversation_opened.
    assert (Wu := has_user_fits _ d LU U).
    split; [exact LU|]. split; [exact LP|]. split; [exact LL|].
    split; [|split; [|split; [|exact LR]]].
    + cbn [conversations set_messages set_conversation_participants
           set_conversations].
      apply forallb_app_one; [exact LC|]. exact Wc.
    + cbn [conversation_participants set_messages
           set_conversation_participants].
      apply forallb_app_one; [exact LCP|].
      cbn [conversation_participants_conversation_id
           conversation_participants_user_id].
      now rewrite Wc, Wu.
    + cbn [messages set_messages].
      apply forallb_app_one; [exact LM|].
      unfold messages_fit.
      cbn [sent_row messages_id messages_conversation_id messages_sender_id].
      now rewrite Wm, Wc, Wu.
Qed.

(** X21.  No store that the handlers can produce from the empty one holds a
    value longer than its column: what a handler writes into a column with
    a declared length it has checked against that length, and what it
    writes into a foreign key column is the key of a stored row. *)
Theorem reachable_lengths_kept :
  forall d, reachable d -> lengths_kept d.
Proof.
  induction 1.
  - now repeat split.
  - now apply register_lengths.
  - now apply update_me_lengths.
  - now apply update_location_lengths.
  - now apply send_message_lengths.
  - now apply create_ride_lengths.
Qed.

Lemma reachable_lengths_kept_witness :
  lengths_kept
    (snd (register (passlib := plain_passlib) "u-erin" "salt" 5000 5001
            long_email_request
            (snd (send_message "m1" 7100 long_conversation_id hello alice
                    (snd (register (passlib := plain_passlib) "u-dave" "salt"
                                   4000 4001 dave_request empty_db)))))).
Proof.
  apply reachable_lengths_kept.
  apply reachable_register, reachable_send_message, reachable_register,
    reachable_empty.
Defined.
